(** * Frames: layout and caption-positioning engine

    A shallow embedding of the geometry code of the photo framing tool:
    the padding calculator [getFramePadding], the caption resolver
    [getCaptionYOffset] / [getCaptionYPosition], the aspect-ratio
    classifier [isSupportedAspectRatio] / [getImageAspectRatioType], the
    caption painter [drawCaption], the preview compositor [drawCanvas],
    the export handler of the Print button and the upload handler
    [handleFilesUpload].

    Numbers.  A JavaScript [number] is an IEEE-754 double; a finite one
    is represented by the rational it denotes ([Q]).  Where the source
    can divide by zero (the classifier receives raw image dimensions)
    the value is a [number]: a rational, an infinity or NaN, with the
    comparisons of the language (every comparison with NaN is false).
    Signed zeros are not distinguished.  Lengths and positions
    (paddings, rectangles, anchors) are computed exactly.  Where a
    result is discrete and rounding can change it (the tolerance tests
    on the ratio of a photo, the font sizes of the caption, the
    reciprocal of an exposure time) the arithmetic is that of doubles,
    module [F64].  The classifier and the caption resolver are given in
    both arithmetics; on the whole dimensions of a photo the two
    readings differ only for a ratio that lies exactly on the edge of a
    tolerance band.

    Objects used as tables ([Record<string, Record<string, number>>]) are
    finite maps keyed by strings, holding the own keys of the object;
    [T[ratio]?.[space] ?? d] is a nested lookup with default [d]. *)

From Stdlib Require Import QArith Qround Qabs Qpower Lqa Lia ZArith Ascii String
  List.
From Stdlib Require Import DecimalString DecimalN DecimalPos.
From stdpp Require Import gmap strings.

Local Open Scope Q_scope.

(* ================================================================== *)
(** ** Numbers *)

Module Num.

(** Strict comparison on rationals as a boolean. *)
Definition ltb (x y : Q) : bool := negb (Qle_bool y x).
Definition gtb (x y : Q) : bool := ltb y x.
Definition geb (x y : Q) : bool := Qle_bool y x.
Definition eqb (x y : Q) : bool := Qeq_bool x y.

(** [Math.round]: the nearest integer, halves going up. *)
Definition Math_round (x : Q) : Q := inject_Z (Qfloor (x + (1 # 2))).
Definition Math_floor (x : Q) : Q := inject_Z (Qfloor x).
Definition Math_min (x y : Q) : Q := if Qle_bool x y then x else y.
Definition Math_max (x y : Q) : Q := if Qle_bool x y then y else x.

(** A value that is a whole number. *)
Definition is_integer (x : Q) : Prop := inject_Z (Qfloor x) == x.

(** The result of a division that may have a zero divisor. *)
Inductive number : Type :=
| Finite (q : Q)
| PosInfinity
| NegInfinity
| NaN.

(** [a / b] on two finite numbers. *)
Definition div (a b : Q) : number :=
  if eqb b 0 then
    if eqb a 0 then NaN
    else if ltb 0 a then PosInfinity else NegInfinity
  else Finite (a / b).

(** [x - t] for a finite [t]. *)
Definition sub (x : number) (t : Q) : number :=
  match x with
  | Finite q => Finite (q - t)
  | other => other
  end.

(** [Math.abs]. *)
Definition abs (x : number) : number :=
  match x with
  | Finite q => Finite (Qabs q)
  | PosInfinity | NegInfinity => PosInfinity
  | NaN => NaN
  end.

(** [x < t] for a finite [t]. *)
Definition lt (x : number) (t : Q) : bool :=
  match x with
  | Finite q => ltb q t
  | NegInfinity => true
  | PosInfinity | NaN => false
  end.

(** Truthiness of an optional number: [undefined] and [0] are falsy. *)
Definition truthy (o : option Q) : bool :=
  match o with
  | Some q => negb (eqb q 0)
  | None => false
  end.

End Num.

Import Num.

(* ================================================================== *)
(** ** User selections *)

(** [RATIOS = ['1:1', '5:7', '9:16']] and [SPACES = ['S', 'M', 'L']]. *)
Inductive RatioType : Type := Ratio_1_1 | Ratio_5_7 | Ratio_9_16.
Inductive SpaceType : Type := Space_S | Space_M | Space_L.

#[global] Instance RatioType_eq_dec : EqDecision RatioType.
Proof. solve_decision. Defined.

#[global] Instance SpaceType_eq_dec : EqDecision SpaceType.
Proof. solve_decision. Defined.

Definition ratio_str (r : RatioType) : string :=
  match r with
  | Ratio_1_1 => "1:1"
  | Ratio_5_7 => "5:7"
  | Ratio_9_16 => "9:16"
  end.

Definition space_str (s : SpaceType) : string :=
  match s with
  | Space_S => "S"
  | Space_M => "M"
  | Space_L => "L"
  end.

(** The tables of the source are object literals, and an object answers
    the property names it inherits from [Object.prototype] with the
    inherited function or object: [T['constructor']] is not
    [undefined], so [?.] and [??] do not fall back to the default.  The
    finite maps below hold the own keys of each table, which is all
    there is to look up for every other key; a statement about an
    arbitrary key string assumes [ownKey] of it.  The ratio and spacing
    keys of the component, and the empty string, are no inherited
    names. *)
Definition Object_prototype_names : list string :=
  [ "constructor"; "hasOwnProperty"; "isPrototypeOf"; "propertyIsEnumerable";
    "toLocaleString"; "toString"; "valueOf"; "__proto__";
    "__defineGetter__"; "__defineSetter__"; "__lookupGetter__";
    "__lookupSetter__" ]%string.

Definition ownKey (key : string) : bool :=
  negb (existsb (String.eqb key) Object_prototype_names).

(** Two-level table lookup [T[ratio]?.[space]]. *)
Definition lookup2 (T : gmap string (gmap string Q)) (ratio space : string)
  : option Q :=
  T !! ratio ≫= (.!! space).

(* ================================================================== *)
(** ** Padding calculator *)

Definition OUTPUT_LONG_SIDE : Q := 2400.

Definition minPadBottomTable : gmap string (gmap string Q) :=
  {[ "1:1" := {[ "S" := 0.17; "M" := 0.17; "L" := 0.17 ]};
     "5:7" := {[ "S" := 0.1; "M" := 0.17; "L" := 0.17 ]};
     "9:16" := {[ "S" := 0.17; "M" := 0.17; "L" := 0.17 ]} ]}.

Record Padding : Type := mkPadding {
  padTop : Q;
  padLeft : Q;
  padRight : Q;
  padBottom : Q
}.

Definition getFramePadding (width height : Q) (ratio space : string)
  : Padding :=
  let basePadding :=
    if (space =? "S")%string then 0.04
    else if (space =? "M")%string then 0.08 else 0.15 in
  let minPadBottom := default 0.17 (lookup2 minPadBottomTable ratio space) in
  let extraBottom := Math_max 0 (minPadBottom - basePadding) in
  let shortSide := Math_min width height in
  let padTop0 := Math_round (shortSide * basePadding) in
  let padLeft := Math_round (shortSide * basePadding) in
  let padRight := Math_round (shortSide * basePadding) in
  let padBottom := Math_round (shortSide * (basePadding + extraBottom)) in
  let padTop :=
    if (ratio =? "9:16")%string then
      let padTop1 := padTop0 * 2.5 in
      if (space =? "S")%string then padTop1 * 1.8 else padTop1
    else padTop0 in
  {| padTop := padTop; padLeft := padLeft;
     padRight := padRight; padBottom := padBottom |}.

(* ================================================================== *)
(** ** Caption offset and position resolver *)

Definition CAPTION_Y_OFFSET_RATIO : gmap string (gmap string Q) :=
  {[ "1:1" := {[ "S" := 0; "M" := 0 ]};
     "5:7" := {[ "S" := -0.012; "M" := -0.012 ]} ]}.

Definition CAPTION_Y_OFFSET_RATIO_57IMG : gmap string (gmap string Q) :=
  {[ "1:1" := {[ "S" := 0; "M" := -0.003 ]};
     "5:7" := {[ "S" := 0; "M" := -0.0015 ]} ]}.

Definition CAPTION_Y_OFFSET_RATIO_23IMG : gmap string (gmap string Q) :=
  {[ "1:1" := {[ "S" := 0; "M" := 0 ]};
     "5:7" := {[ "S" := 0; "M" := -0.003 ]} ]}.

Definition CAPTION_Y_OFFSET_RATIO_45IMG : gmap string (gmap string Q) :=
  {[ "1:1" := {[ "S" := 0; "M" := 0 ]};
     "5:7" := {[ "S" := -0.045; "M" := -0.037 ]} ]}.

Definition CAPTION_DISTANCE_FROM_IMAGE_BOTTOM_L : gmap string Q :=
  {[ "1:1" := 0.02; "5:7" := 0.02; "9:16" := 0.02 ]}.

(** The resolver is given twice: here with the ratio tests in exact
    arithmetic, and in module [F64] below with the tests in doubles, as
    the engine evaluates them; the renderer calls the latter.

    The guard repeated by the three source-specific branches:
    [imageWidth && imageHeight &&
     Math.abs(imageWidth / imageHeight - target) < tol].
    Both operands are non-zero when the division is reached. *)
Definition imageRatioNear (imageWidth imageHeight : option Q)
  (target tol : Q) : bool :=
  truthy imageWidth && truthy imageHeight &&
  match imageWidth, imageHeight with
  | Some w, Some h => ltb (Qabs (w / h - target)) tol
  | _, _ => false
  end.

(** [canvasH && canvasH < bound]. *)
Definition canvasBelow (canvasH : option Q) (bound : Q) : bool :=
  truthy canvasH &&
  match canvasH with
  | Some c => ltb c bound
  | None => false
  end.

Definition getCaptionYOffset (ratio space : string)
  (imageWidth imageHeight canvasH : option Q) : Q :=
  if (space =? "L")%string then
    default 0 (CAPTION_DISTANCE_FROM_IMAGE_BOTTOM_L !! ratio)
  else if imageRatioNear imageWidth imageHeight (5 / 7) 0.01 then
    default 0 (lookup2 CAPTION_Y_OFFSET_RATIO_57IMG ratio space)
  else if imageRatioNear imageWidth imageHeight (2 / 3) 0.05 then
    default 0 (lookup2 CAPTION_Y_OFFSET_RATIO_23IMG ratio space)
  else if imageRatioNear imageWidth imageHeight (4 / 5) 0.05 then
    default 0 (lookup2 CAPTION_Y_OFFSET_RATIO_45IMG ratio space)
  else
    let base := default 0 (lookup2 CAPTION_Y_OFFSET_RATIO ratio space) in
    let base :=
      if (ratio =? "1:1")%string && (space =? "S")%string
         && canvasBelow canvasH 480
      then base - 0.021 else base in
    let base :=
      if (ratio =? "5:7")%string && (space =? "S")%string
         && canvasBelow canvasH 672
      then base - 0.012 else base in
    base.

Definition getCaptionYPosition (ratio space : string)
  (canvasHeight padBottom imageDrawTop imageDrawHeight captionHeight : Q)
  (imageWidth imageHeight : option Q) : Q :=
  if (ratio =? "9:16")%string then
    let imageBottom := imageDrawTop + imageDrawHeight in
    let distanceFromBottom :=
      default 0.02 (CAPTION_DISTANCE_FROM_IMAGE_BOTTOM_L !! "9:16")
      * canvasHeight in
    imageBottom + distanceFromBottom
  else if (space =? "L")%string then
    let imageBottom := imageDrawTop + imageDrawHeight in
    let distanceFromBottom :=
      default 0.02 (CAPTION_DISTANCE_FROM_IMAGE_BOTTOM_L !! ratio)
      * canvasHeight in
    imageBottom + distanceFromBottom
  else
    let yOffsetRatio :=
      getCaptionYOffset ratio space imageWidth imageHeight
        (Some canvasHeight) in
    let yOffsetPx := yOffsetRatio * canvasHeight in
    canvasHeight - padBottom / 2 - captionHeight / 2 + yOffsetPx.

(* ================================================================== *)
(** ** Aspect-ratio classifier *)

(** The classifier in exact arithmetic; module [F64] below gives it in
    doubles.  On whole dimensions the two differ only when the ratio is
    exactly 17/30 or 9/10 (the acceptance check) or 37/60 or 17/20 (the
    styling class). *)
Definition isSupportedAspectRatio (width height : Q) : bool :=
  let aspectRatio := Num.div width height in
  let targetRatio34 := 3 / 4 in
  let targetRatio23 := 2 / 3 in
  let targetRatio45 := 4 / 5 in
  let tolerance := 0.1 in
  Num.lt (Num.abs (Num.sub aspectRatio targetRatio34)) tolerance
  || Num.lt (Num.abs (Num.sub aspectRatio targetRatio23)) tolerance
  || Num.lt (Num.abs (Num.sub aspectRatio targetRatio45)) tolerance.

Inductive AspectRatioType : Type :=
| Aspect_3_4
| Aspect_2_3
| Aspect_4_5
| Aspect_other.

Definition getImageAspectRatioType (width height : Q) : AspectRatioType :=
  let aspectRatio := Num.div width height in
  let targetRatio34 := 3 / 4 in
  let targetRatio23 := 2 / 3 in
  let targetRatio45 := 4 / 5 in
  let tolerance := 0.05 in
  if Num.lt (Num.abs (Num.sub aspectRatio targetRatio34)) tolerance
  then Aspect_3_4
  else if Num.lt (Num.abs (Num.sub aspectRatio targetRatio23)) tolerance
  then Aspect_2_3
  else if Num.lt (Num.abs (Num.sub aspectRatio targetRatio45)) tolerance
  then Aspect_4_5
  else Aspect_other.

(* ================================================================== *)
(** ** Double precision *)

(** JavaScript numbers are IEEE-754 binary64.  Where the outcome hinges
    on rounding (a comparison against a tolerance band, [Math.round] of
    a product, a reciprocal) every arithmetic operation is rounded as
    the engine rounds it: to the nearest double, ties to the even one,
    with gradual underflow and overflow to an infinity.  A double is
    represented by the rational it denotes; [Math.abs], [Math.min],
    [Math.round] and the comparisons are exact on doubles.  The
    classifier and the caption resolver are given here a second time in
    this arithmetic; the definitions above are their reading in exact
    arithmetic, which differs from the code only for a ratio that lies
    on the edge of a band.  The compositor and the caption renderer
    below use the double-precision versions. *)

Module F64.

(** [2^e]. *)
Definition pow2 (e : Z) : Q := 2 ^ e.

(** The binade of a positive rational: the [e] with
    [2^e <= x < 2^(e+1)].  The difference of the bit lengths of numerator
    and denominator is that exponent or one more. *)
Definition binade (x : Q) : Z :=
  let k := (Z.log2 (Qnum x) - Z.log2 (Zpos (Qden x)))%Z in
  if Qle_bool (pow2 k) x then k else (k - 1)%Z.

(** The nearest integer, a tie going to the even one. *)
Definition nearestEven (x : Q) : Z :=
  let f := Qfloor x in
  let r := x - inject_Z f in
  if ltb r (1 # 2) then f
  else if ltb (1 # 2) r then (f + 1)%Z
  else if Z.even f then f else (f + 1)%Z.

(** The nearest multiple of the unit in the last place of a positive
    rational: 53 significant bits, and no unit below [2^-1074]. *)
Definition roundPos (x : Q) : Q :=
  let q := Z.max (binade x - 52) (-1074) in
  inject_Z (nearestEven (x / pow2 q)) * pow2 q.

(** The double nearest to a rational, before the overflow check.  A
    literal of the source ([0.1], and [3 / 4] as the quotient of two
    literals) denotes [round] of its exact value. *)
Definition round (x : Q) : Q :=
  let x := Qred x in
  if eqb x 0 then 0
  else if ltb x 0 then - roundPos (- x) else roundPos x.

(** A rounded result of magnitude [2^1024] or more is an infinity. *)
Definition fin (v : Q) : number :=
  if geb (Qabs v) (pow2 1024)
  then (if ltb v 0 then NegInfinity else PosInfinity)
  else Finite v.

(** [a / b] on two doubles. *)
Definition div (a b : Q) : number :=
  match Num.div a b with
  | Finite q => fin (round q)
  | other => other
  end.

(** [x - t] for a finite [t]. *)
Definition sub (x : number) (t : Q) : number :=
  match x with
  | Finite q => fin (round (q - t))
  | other => other
  end.

(** [a * b] and [a / b] where the result is finite: the operands are
    canvas sizes and the constants of the caption style. *)
Definition mul (a b : Q) : Q := round (a * b).
Definition quot (a b : Q) : Q := round (a / b).

(** [isSupportedAspectRatio] in doubles. *)
Definition isSupportedAspectRatio (width height : Q) : bool :=
  let aspectRatio := div width height in
  let targetRatio34 := round (3 / 4) in
  let targetRatio23 := round (2 / 3) in
  let targetRatio45 := round (4 / 5) in
  let tolerance := round 0.1 in
  Num.lt (Num.abs (sub aspectRatio targetRatio34)) tolerance
  || Num.lt (Num.abs (sub aspectRatio targetRatio23)) tolerance
  || Num.lt (Num.abs (sub aspectRatio targetRatio45)) tolerance.

(** [getImageAspectRatioType] in doubles. *)
Definition getImageAspectRatioType (width height : Q) : AspectRatioType :=
  let aspectRatio := div width height in
  let targetRatio34 := round (3 / 4) in
  let targetRatio23 := round (2 / 3) in
  let targetRatio45 := round (4 / 5) in
  let tolerance := round 0.05 in
  if Num.lt (Num.abs (sub aspectRatio targetRatio34)) tolerance
  then Aspect_3_4
  else if Num.lt (Num.abs (sub aspectRatio targetRatio23)) tolerance
  then Aspect_2_3
  else if Num.lt (Num.abs (sub aspectRatio targetRatio45)) tolerance
  then Aspect_4_5
  else Aspect_other.

(** The guard of the source-specific branches of [getCaptionYOffset],
    [imageWidth && imageHeight &&
     Math.abs(imageWidth / imageHeight - target) < tol], in doubles. *)
Definition imageRatioNear (imageWidth imageHeight : option Q)
  (target tol : Q) : bool :=
  truthy imageWidth && truthy imageHeight &&
  match imageWidth, imageHeight with
  | Some w, Some h => Num.lt (Num.abs (sub (div w h) target)) tol
  | _, _ => false
  end.

(** [getCaptionYOffset] with its three guards in doubles. *)
Definition getCaptionYOffset (ratio space : string)
  (imageWidth imageHeight canvasH : option Q) : Q :=
  if (space =? "L")%string then
    default 0 (CAPTION_DISTANCE_FROM_IMAGE_BOTTOM_L !! ratio)
  else if imageRatioNear imageWidth imageHeight (round (5 / 7)) (round 0.01)
  then default 0 (lookup2 CAPTION_Y_OFFSET_RATIO_57IMG ratio space)
  else if imageRatioNear imageWidth imageHeight (round (2 / 3)) (round 0.05)
  then default 0 (lookup2 CAPTION_Y_OFFSET_RATIO_23IMG ratio space)
  else if imageRatioNear imageWidth imageHeight (round (4 / 5)) (round 0.05)
  then default 0 (lookup2 CAPTION_Y_OFFSET_RATIO_45IMG ratio space)
  else
    let base := default 0 (lookup2 CAPTION_Y_OFFSET_RATIO ratio space) in
    let base :=
      if (ratio =? "1:1")%string && (space =? "S")%string
         && canvasBelow canvasH 480
      then base - 0.021 else base in
    let base :=
      if (ratio =? "5:7")%string && (space =? "S")%string
         && canvasBelow canvasH 672
      then base - 0.012 else base in
    base.

(** [getCaptionYPosition] over that resolver. *)
Definition getCaptionYPosition (ratio space : string)
  (canvasHeight padBottom imageDrawTop imageDrawHeight captionHeight : Q)
  (imageWidth imageHeight : option Q) : Q :=
  if (ratio =? "9:16")%string then
    let imageBottom := imageDrawTop + imageDrawHeight in
    let distanceFromBottom :=
      default 0.02 (CAPTION_DISTANCE_FROM_IMAGE_BOTTOM_L !! "9:16")
      * canvasHeight in
    imageBottom + distanceFromBottom
  else if (space =? "L")%string then
    let imageBottom := imageDrawTop + imageDrawHeight in
    let distanceFromBottom :=
      default 0.02 (CAPTION_DISTANCE_FROM_IMAGE_BOTTOM_L !! ratio)
      * canvasHeight in
    imageBottom + distanceFromBottom
  else
    let yOffsetRatio :=
      getCaptionYOffset ratio space imageWidth imageHeight
        (Some canvasHeight) in
    let yOffsetPx := yOffsetRatio * canvasHeight in
    canvasHeight - padBottom / 2 - captionHeight / 2 + yOffsetPx.

End F64.

(* ================================================================== *)
(** ** Colours *)

Module Color.

Local Open Scope string_scope.

Definition SNAP_COLORS_pattern1 : string := "#00AD50".
Definition SNAP_COLORS_pattern2 : string := "#FF9900".
Definition RETROBLUE_COLORS_pattern1 : string := "#0037A6".
Definition RETROBLUE_COLORS_pattern2 : string := "#008080".

(** The two-valued pattern counters [1 | 2]. *)
Inductive Pattern : Type := Pattern1 | Pattern2.

Definition getFrameColor (color autoColor : string)
  (snapPattern retrobluePattern : Pattern) : string :=
  if color =? "" then "#dfdfdf"
  else if color =? "white" then "#fff"
  else if color =? "black" then "#111"
  else if color =? "retroblue" then
    match retrobluePattern with
    | Pattern1 => RETROBLUE_COLORS_pattern1
    | Pattern2 => RETROBLUE_COLORS_pattern2
    end
  else if color =? "snap" then
    match snapPattern with
    | Pattern1 => SNAP_COLORS_pattern1
    | Pattern2 => SNAP_COLORS_pattern2
    end
  else if color =? "auto" then autoColor
  else "#dfdfdf".

Definition hexDigit (c : ascii) : option Z :=
  let n := Z.of_N (N_of_ascii c) in
  if (48 <=? n)%Z && (n <=? 57)%Z then Some (n - 48)%Z
  else if (97 <=? n)%Z && (n <=? 102)%Z then Some (n - 87)%Z
  else if (65 <=? n)%Z && (n <=? 70)%Z then Some (n - 55)%Z
  else None.

Definition decDigit (c : ascii) : option Z :=
  let n := Z.of_N (N_of_ascii c) in
  if (48 <=? n)%Z && (n <=? 57)%Z then Some (n - 48)%Z else None.

(** Value of the longest prefix of digits, [None] when it is empty. *)
Fixpoint parsePrefix (digit : ascii -> option Z) (radix : Z)
  (acc : option Z) (s : string) : option Z :=
  match s with
  | EmptyString => acc
  | String c rest =>
      match digit c with
      | Some d => parsePrefix digit radix
                    (Some (default 0%Z acc * radix + d)%Z) rest
      | None => acc
      end
  end.

(** [parseInt(s, 16)] and [parseInt(s, 10)] on the strings the colour
    code passes: no leading blank, sign or [0x]; [None] is NaN. *)
Definition parseInt16 (s : string) : option Z :=
  parsePrefix hexDigit 16 None s.
Definition parseInt10 (s : string) : option Z :=
  parsePrefix decDigit 10 None s.

(** [color.match(/\d+/g)]: the maximal runs of decimal digits. *)
Fixpoint digitRuns (cur : string) (s : string) : list string :=
  match s with
  | EmptyString => if cur =? "" then [] else [cur]
  | String c rest =>
      match decDigit c with
      | Some _ => digitRuns (cur ++ String c EmptyString) rest
      | None =>
          if cur =? "" then digitRuns "" rest
          else cur :: digitRuns "" rest
      end
  end.

Definition toLowerChar (c : ascii) : ascii :=
  let n := N_of_ascii c in
  if (65 <=? n)%N && (n <=? 90)%N then ascii_of_N (n + 32) else c.

Fixpoint toLowerCase (s : string) : string :=
  match s with
  | EmptyString => EmptyString
  | String c rest => String (toLowerChar c) (toLowerCase rest)
  end.

(** [yiq >= 128 ? '#222' : '#fff']; a NaN channel makes the test false. *)
Definition yiqColor (r g b : option Z) : string :=
  match r, g, b with
  | Some r, Some g, Some b =>
      let yiq := (inject_Z (r * 299 + g * 587 + b * 114) / 1000)%Q in
      if Num.geb yiq 128 then "#222" else "#fff"
  | _, _, _ => "#fff"
  end.

Definition getContrastColor (color : string) : string :=
  if (color =? "#fff") || (color =? "#ffffff") then "#222"
  else if (color =? "#111") || (color =? "#000") || (color =? "#000000")
  then "#fff"
  else if toLowerCase color =? "#008080" then "#222"
  else if (String.prefix "#" color) && (String.length color =? 7)%nat then
    yiqColor (parseInt16 (substring 1 2 color))
             (parseInt16 (substring 3 2 color))
             (parseInt16 (substring 5 2 color))
  else
    match (if String.prefix "rgb" color then digitRuns "" color else [])
    with
    | r :: g :: b :: _ => yiqColor (parseInt10 r) (parseInt10 g) (parseInt10 b)
    | _ => "#222"
    end.

End Color.

Import Color.

(* ================================================================== *)
(** ** Drawing surface *)

(** A decoded image: its intrinsic size and an identity standing for its
    pixels. *)
Record Image : Type := mkImage {
  img_width : N;
  img_height : N;
  img_id : nat
}.

Definition NtoQ (n : N) : Q := inject_Z (Z.of_N n).

(** [`${weight} ${px}px '${family}', Arial`]. *)
Record Font : Type := mkFont {
  font_weight : Z;
  font_px : Q;
  font_family : string
}.

(** The calls made on a 2D context, in order. *)
Inductive DrawOp : Type :=
| FillRect (fillStyle : string) (x y w h : Q)
| StrokeRect (strokeStyle : string) (lineWidth x y w h : Q)
| StrokeLine (strokeStyle : string) (lineWidth x0 y0 x1 y1 : Q)
| DrawImage (image : Image) (dx dy dw dh : Q)
| FillText (font : Font) (fillStyle : string) (globalAlpha : Q)
    (char : ascii) (x y : Q).

Definition CAPTION_STYLE_font1 : Q := 0.023.
Definition CAPTION_STYLE_font2 : Q := 0.019.
Definition CAPTION_STYLE_lineGap : Q := 0.007.

Definition strlenQ (s : string) : Q :=
  inject_Z (Z.of_nat (String.length s)).

(** [s.replace(pat, '')]: the first occurrence of [pat] is removed. *)
Fixpoint dropChars (n : nat) (s : string) : string :=
  match n, s with
  | O, _ => s
  | Datatypes.S n', String _ rest => dropChars n' rest
  | Datatypes.S _, EmptyString => EmptyString
  end.

Fixpoint removeFirst (pat s : string) : string :=
  if String.prefix pat s then dropChars (String.length pat) s
  else match s with
       | EmptyString => EmptyString
       | String c rest => String c (removeFirst pat rest)
       end.

Section Caption.

(** [ctx.measureText(text).width] under a given font: a property of the
    browser's text shaping. *)
Variable measureText : Font -> string -> Q.

Fixpoint drawTextWithLetterSpacing (font : Font) (fillStyle : string)
  (globalAlpha : Q) (text : string) (x y letterSpacing : Q)
  : list DrawOp :=
  match text with
  | EmptyString => []
  | String char rest =>
      FillText font fillStyle globalAlpha char x y ::
      drawTextWithLetterSpacing font fillStyle globalAlpha rest
        (x + (measureText font (String char EmptyString) + letterSpacing))
        y letterSpacing
  end.

(** The three lengths [drawCaption] derives from the canvas size, in
    doubles: the products and the quotient are rounded one by one, left
    to right. *)
Definition outputShortSide (ratio : string) : Q :=
  Math_min OUTPUT_LONG_SIDE
    (F64.mul OUTPUT_LONG_SIDE
       (if (ratio =? "1:1")%string then 1
        else if (ratio =? "5:7")%string then F64.quot 5 7
             else F64.quot 9 16)).

Definition captionScale (width height : Q) (ratio : string) : Q :=
  F64.quot (Math_min width height) (outputShortSide ratio).

Definition baseFontPx1 (width height : Q) (ratio : string) : Q :=
  Math_round
    (F64.mul (F64.mul (outputShortSide ratio) (F64.round CAPTION_STYLE_font1))
       (captionScale width height ratio)).
Definition baseFontPx2 (width height : Q) (ratio : string) : Q :=
  Math_round
    (F64.mul (F64.mul (outputShortSide ratio) (F64.round CAPTION_STYLE_font2))
       (captionScale width height ratio)).
Definition lineGap (width height : Q) (ratio : string) : Q :=
  Math_round
    (F64.mul (F64.mul (outputShortSide ratio)
                (F64.round CAPTION_STYLE_lineGap))
       (captionScale width height ratio)).
Definition totalHeight (width height : Q) (ratio : string) : Q :=
  baseFontPx1 width height ratio + baseFontPx2 width height ratio
  + lineGap width height ratio.

(** [yStart] of [drawCaption]. *)
Definition captionYStart (width height padBottom imageDrawTop
  imageDrawHeight : Q) (space ratio : string)
  (imageWidth imageHeight : option Q) : Q :=
  F64.getCaptionYPosition ratio space height padBottom imageDrawTop
    imageDrawHeight (totalHeight width height ratio)
    imageWidth imageHeight.

(** The colour selection of [drawCaption]: first and second line. *)
Definition captionColors (frameColor : string) : string * string :=
  let isSnapColor :=
    (frameColor =? SNAP_COLORS_pattern1)%string
    || (frameColor =? SNAP_COLORS_pattern2)%string in
  let isSnapPattern2 := (frameColor =? SNAP_COLORS_pattern2)%string in
  if isSnapPattern2 then ("#E2211C", "#E2211C")%string
  else if isSnapColor then ("#fff", "#222")%string
  else (getContrastColor frameColor, getContrastColor frameColor).

Definition drawCaption (width height padBottom imageDrawTop
  imageDrawHeight : Q) (captionLines : string * string)
  (frameColor : string) (space ratio : string)
  (imageWidth imageHeight : option Q) : list DrawOp :=
  let px1 := baseFontPx1 width height ratio in
  let px2 := baseFontPx2 width height ratio in
  let gap := lineGap width height ratio in
  let yStart :=
    captionYStart width height padBottom imageDrawTop imageDrawHeight
      space ratio imageWidth imageHeight in
  let isSnapColor :=
    (frameColor =? SNAP_COLORS_pattern1)%string
    || (frameColor =? SNAP_COLORS_pattern2)%string in
  let '(firstLineColor, secondLineColor) := captionColors frameColor in
  let letterSpacing1 := 0.4 in
  let letterSpacing2 := 0.4 in
  let line1 :=
    if (captionLines.1 =? "")%string then []
    else
      let shotOn := "Shot on "%string in
      let cameraName := removeFirst shotOn captionLines.1 in
      let regular := mkFont 400 px1 "KT Flux 100" in
      let medium := mkFont 500 px1 "KT Flux 100" in
      let shotOnWidth :=
        measureText regular shotOn
        + (strlenQ shotOn - 1) * letterSpacing1 in
      let cameraWidth :=
        measureText medium cameraName
        + (strlenQ cameraName - 1) * letterSpacing1 in
      let totalWidth := shotOnWidth + cameraWidth in
      let xStart := width / 2 - totalWidth / 2 in
      drawTextWithLetterSpacing regular firstLineColor 1 shotOn
        xStart yStart letterSpacing1
      ++ drawTextWithLetterSpacing medium firstLineColor 1 cameraName
           (xStart + shotOnWidth) yStart letterSpacing1 in
  let line2 :=
    if (captionLines.2 =? "")%string then []
    else
      let font2 := mkFont 400 px2 "KT Flux 200" in
      let alpha := if isSnapColor then 1 else 0.7 in
      let line2Width :=
        measureText font2 captionLines.2
        + (strlenQ captionLines.2 - 1) * letterSpacing2 in
      let x2 := width / 2 - line2Width / 2 in
      drawTextWithLetterSpacing font2 secondLineColor alpha
        captionLines.2 x2 (yStart + px1 + gap) letterSpacing2 in
  line1 ++ line2.

End Caption.

(* ================================================================== *)
(** ** Compositor: image placement *)

(** The rectangle handed to [drawImage]. *)
Record Placement : Type := mkPlacement {
  imageDrawLeft : Q;
  imageDrawTop : Q;
  imageDrawWidth : Q;
  imageDrawHeight : Q
}.

(** A stored image has passed the upload check, so both dimensions are
    positive and [image.width / image.height] is an ordinary quotient.
    The placement code also divides by the height of the padded
    interior; the statements about it assume that interior not empty. *)
Definition imageAspect (image : Image) : Q :=
  NtoQ (img_width image) / NtoQ (img_height image).

(** The inline tests
    [Math.abs(image.width / image.height - 3 / 4) < 0.05], in doubles. *)
Definition is34Image (image : Image) : bool :=
  Num.lt (Num.abs (F64.sub (F64.div (NtoQ (img_width image))
                              (NtoQ (img_height image)))
                     (F64.round (3 / 4))))
    (F64.round 0.05).
Definition is45Image (image : Image) : bool :=
  Num.lt (Num.abs (F64.sub (F64.div (NtoQ (img_width image))
                              (NtoQ (img_height image)))
                     (F64.round (4 / 5))))
    (F64.round 0.05).

(** The test that selects vertical centring, shared verbatim by the
    preview and the export code. *)
Definition centersVertically (image : Image) (ratio space : string) : bool :=
  (ratio =? "9:16")%string
  || (is34Image image && (ratio =? "5:7")%string && (space =? "L")%string)
  || (is45Image image && (ratio =? "5:7")%string && (space =? "L")%string).

(** Placement as computed inside [drawCanvas] (preview). *)
Definition drawCanvas_placement (canvasW canvasH : Q) (ratio space : string)
  (image : Image) : Placement :=
  let p := getFramePadding canvasW canvasH ratio space in
  let drawW := canvasW - padLeft p - padRight p in
  let drawH := canvasH - padTop p - padBottom p in
  let special := (ratio =? "9:16")%string && (space =? "L")%string in
  let padTopForDraw := if special then 0 else padTop p in
  let drawHForDraw := if special then canvasH else drawH in
  let imgAspect := imageAspect image in
  let frameAspect := drawW / drawHForDraw in
  let '(targetW, targetH) :=
    if gtb imgAspect frameAspect
    then (drawW, drawW / imgAspect)
    else (drawHForDraw * imgAspect, drawHForDraw) in
  let left := padLeft p + (drawW - targetW) / 2 in
  let top :=
    if centersVertically image ratio space
    then padTopForDraw + (drawHForDraw - targetH) / 2
    else padTopForDraw in
  {| imageDrawLeft := left; imageDrawTop := top;
     imageDrawWidth := targetW; imageDrawHeight := targetH |}.

(** Placement as computed inside the Print button handler of the mobile
    layout (export).  The fixed desktop panel, which is rendered only
    until the draggable panel has been initialised by the first effect,
    carries the same code. *)
Definition print_placement (outputW outputH : Q) (ratio space : string)
  (image : Image) : Placement :=
  let p := getFramePadding outputW outputH ratio space in
  let drawWOut := outputW - padLeft p - padRight p in
  let drawHOut := outputH - padTop p - padBottom p in
  let imgAspect := imageAspect image in
  let frameAspect := drawWOut / drawHOut in
  let '(targetW, targetH) :=
    if gtb imgAspect frameAspect
    then (drawWOut, drawWOut / imgAspect)
    else (drawHOut * imgAspect, drawHOut) in
  let left := padLeft p + (drawWOut - targetW) / 2 in
  let top :=
    if centersVertically image ratio space
    then padTop p + (drawHOut - targetH) / 2
    else padTop p in
  {| imageDrawLeft := left; imageDrawTop := top;
     imageDrawWidth := targetW; imageDrawHeight := targetH |}.

(** Placement as computed inside the Print button handler of the
    draggable panel, the one the desktop layout shows: the photo is
    centred for 9:16 and top-aligned otherwise, whatever its class. *)
Definition print_placement_panel (outputW outputH : Q) (ratio space : string)
  (image : Image) : Placement :=
  let p := getFramePadding outputW outputH ratio space in
  let drawWOut := outputW - padLeft p - padRight p in
  let drawHOut := outputH - padTop p - padBottom p in
  let imgAspect := imageAspect image in
  let frameAspect := drawWOut / drawHOut in
  let '(targetW, targetH) :=
    if gtb imgAspect frameAspect
    then (drawWOut, drawWOut / imgAspect)
    else (drawHOut * imgAspect, drawHOut) in
  let left := padLeft p + (drawWOut - targetW) / 2 in
  let top :=
    if (ratio =? "9:16")%string
    then padTop p + (drawHOut - targetH) / 2
    else padTop p in
  {| imageDrawLeft := left; imageDrawTop := top;
     imageDrawWidth := targetW; imageDrawHeight := targetH |}.

(* ================================================================== *)
(** ** Canvas sizes *)

Definition ratioPair (r : RatioType) : Q * Q :=
  match r with
  | Ratio_1_1 => (1, 1)
  | Ratio_5_7 => (5, 7)
  | Ratio_9_16 => (9, 16)
  end.

(** Preview canvas [(canvasW, canvasH)] of the component body.
    [forceMobile] is [null | boolean]. *)
Definition previewCanvas (innerWidth : Q) (forceMobile : option bool)
  (ratio : RatioType) : Q * Q :=
  let maxMobileW := Math_floor (Math_min (innerWidth * 0.80) 300) in
  let maxMobileH := 600 in
  let '(rw, rh) := ratioPair ratio in
  let mobilePreviewW := maxMobileW in
  let mobilePreviewH := Math_round (mobilePreviewW * rh / rw) in
  let '(mobilePreviewW, mobilePreviewH) :=
    if gtb mobilePreviewH maxMobileH
    then (Math_round (maxMobileH * rw / rh), maxMobileH)
    else (mobilePreviewW, mobilePreviewH) in
  match forceMobile with
  | Some true => (mobilePreviewW, mobilePreviewH)
  | _ =>
      let baseW := 480 in
      let baseH := Math_round (baseW * 7 / 5) in
      match ratio with
      | Ratio_1_1 => (baseW, baseW)
      | Ratio_9_16 => (Math_round (baseH * 9 / 16), baseH)
      | Ratio_5_7 => (baseW, baseH)
      end
  end.

(** Export canvas [(outputW, outputH)] of the Print handler. *)
Definition outputCanvas (ratio : RatioType) : Q * Q :=
  let '(rw, rh) := ratioPair ratio in
  let outputLong := OUTPUT_LONG_SIDE in
  let outputW :=
    if geb rw rh then outputLong else Math_round (outputLong * rw / rh) in
  let outputH :=
    if gtb rh rw then outputLong else Math_round (outputLong * rh / rw) in
  (outputW, outputH).

(* ================================================================== *)
(** ** Component state, rendering and upload *)

Record ExifData : Type := mkExif {
  Make : option string;
  Model : option string;
  ISO : option Q;
  FNumber : option Q;
  ExposureTime : option Q;
  Software : option string
}.

Inductive AutoPattern : Type := Auto1 | Auto2 | Auto3.

(** The [useState] cells of [FramesTool] that rendering and upload read
    or write. *)
Record State : Type := mkState {
  image : option Image;
  space : SpaceType;
  ratio : RatioType;
  color : string;
  autoColor : string;
  snapPattern : Pattern;
  retrobluePattern : Pattern;
  autoPattern : AutoPattern;
  exifData : option ExifData;
  captionLines : string * string;
  showErrorPopup : bool;
  isFilmScannerImage : bool;
  manualCamera : string;
  manualPlace : string;
  forceMobile : option bool
}.

(** What the browser and the out-of-scope helpers supply. *)
Record Browser : Type := mkBrowser {
  measureText : Font -> string -> Q;
  innerWidth : Q;
  isMobileDevice : bool;
  getDominantColor : Image -> string;
  EXIF_getData : Image -> ExifData;
  isFilmScanExif : option string -> option string -> bool;
  getCaptionLines : ExifData -> string * string
}.

Section Component.

Variable B : Browser.

Definition canvasSize (st : State) : Q * Q :=
  previewCanvas (innerWidth B) (forceMobile st) (ratio st).

Definition hasCaption (lines : string * string) : bool :=
  negb (lines.1 =? "")%string || negb (lines.2 =? "")%string.

(** [drawCanvas]: the drawing calls of one preview render.  The canvas
    and its context are taken to be available; the device-pixel-ratio
    transform scales every call alike and is left out. *)
Definition drawCanvas (st : State) : list DrawOp :=
  let '(canvasW, canvasH) := canvasSize st in
  let frameColor :=
    getFrameColor (color st) (autoColor st) (snapPattern st)
      (retrobluePattern st) in
  match image st with
  | None =>
      [ FillRect frameColor 0 0 canvasW canvasH;
        StrokeRect "#bbb" 2 0 0 canvasW canvasH;
        StrokeLine "#bbb" 1 canvasW 0 0 canvasH;
        StrokeLine "#bbb" 1 0 0 canvasW canvasH ]
  | Some img =>
      let r := ratio_str (ratio st) in
      let s := space_str (space st) in
      let p := getFramePadding canvasW canvasH r s in
      let g := drawCanvas_placement canvasW canvasH r s img in
      FillRect frameColor 0 0 canvasW canvasH ::
      DrawImage img (imageDrawLeft g) (imageDrawTop g)
        (imageDrawWidth g) (imageDrawHeight g) ::
      (if hasCaption (captionLines st) then
         drawCaption (measureText B) canvasW canvasH (padBottom p)
           (imageDrawTop g) (imageDrawHeight g) (captionLines st)
           frameColor s r
           (Some (NtoQ (img_width img))) (Some (NtoQ (img_height img)))
       else [])
  end.

(** The Print button handler: the drawing calls on the export canvas;
    nothing is drawn without an image.  The component returns the mobile
    layout when [forceMobile] is true and the desktop layout otherwise,
    and each layout carries a handler of its own; the two differ in the
    placement of the photo only. *)
Definition printCanvas (st : State) : list DrawOp :=
  match image st with
  | None => []
  | Some img =>
      let '(canvasW, canvasH) := canvasSize st in
      let '(outputW, outputH) := outputCanvas (ratio st) in
      let r := ratio_str (ratio st) in
      let s := space_str (space st) in
      let frameColorOut :=
        getFrameColor (color st) (autoColor st) (snapPattern st)
          (retrobluePattern st) in
      let p := getFramePadding outputW outputH r s in
      let g :=
        match forceMobile st with
        | Some true => print_placement outputW outputH r s img
        | _ => print_placement_panel outputW outputH r s img
        end in
      FillRect frameColorOut 0 0 outputW outputH ::
      DrawImage img (imageDrawLeft g) (imageDrawTop g)
        (imageDrawWidth g) (imageDrawHeight g) ::
      (if hasCaption (captionLines st) then
         let canvasHForCaption :=
           if isMobileDevice B then canvasH else outputH in
         drawCaption (measureText B) outputW canvasHForCaption
           (padBottom p) (imageDrawTop g) (imageDrawHeight g)
           (captionLines st) frameColorOut s r
           (Some (NtoQ (img_width img))) (Some (NtoQ (img_height img)))
       else [])
  end.

(** [img.onload] inside [handleFilesUpload].  The upload check is taken
    in its exact reading, which is the check of the code for every photo
    whose ratio is not exactly 17/30 or 9/10. *)
Definition img_onload (st : State) (img : Image) : State :=
  if negb (isSupportedAspectRatio (NtoQ (img_width img))
             (NtoQ (img_height img)))
  then
    {| image := image st; space := space st; ratio := ratio st;
       color := color st; autoColor := autoColor st;
       snapPattern := snapPattern st;
       retrobluePattern := retrobluePattern st;
       autoPattern := autoPattern st; exifData := exifData st;
       captionLines := captionLines st;
       showErrorPopup := true;
       isFilmScannerImage := isFilmScannerImage st;
       manualCamera := manualCamera st; manualPlace := manualPlace st;
       forceMobile := forceMobile st |}
  else
    let exif := EXIF_getData B img in
    let isFilmScannerDetected :=
      isFilmScanExif B (Make exif) (Software exif) in
    {| image := Some img; space := space st; ratio := ratio st;
       color := if (color st =? "")%string then "white"%string
                else color st;
       autoColor := getDominantColor B img;
       snapPattern := snapPattern st;
       retrobluePattern := retrobluePattern st;
       autoPattern := Auto1; exifData := Some exif;
       captionLines :=
         if isFilmScannerDetected then (""%string, ""%string)
         else getCaptionLines B exif;
       showErrorPopup := showErrorPopup st;
       isFilmScannerImage := isFilmScannerDetected;
       manualCamera := if isFilmScannerDetected then ""%string
                       else manualCamera st;
       manualPlace := if isFilmScannerDetected then ""%string
                      else manualPlace st;
       forceMobile := forceMobile st |}.

(** [handleFilesUpload]: the first file of the list is decoded and
    handed to [img_onload]; an empty list does nothing. *)
Definition handleFilesUpload (st : State) (files : list Image) : State :=
  match files with
  | [] => st
  | file :: _ => img_onload st file
  end.


End Component.

(** The [useState] defaults of [FramesTool]. *)
Definition initialState : State :=
  {| image := None; space := Space_M; ratio := Ratio_5_7;
     color := ""; autoColor := "#e53e3e";
     snapPattern := Pattern1; retrobluePattern := Pattern1;
     autoPattern := Auto1; exifData := None;
     captionLines := (""%string, ""%string);
     showErrorPopup := false; isFilmScannerImage := false;
     manualCamera := ""; manualPlace := ""; forceMobile := None |}.

(** A desktop browser used in the examples: every glyph is 0.6 em wide,
    the window is 1920 px wide, and the metadata of every photo names the
    same camera. *)
Definition desktopBrowser : Browser :=
  {| measureText := fun font text => font_px font * 0.6 * strlenQ text;
     innerWidth := 1920;
     isMobileDevice := false;
     getDominantColor := fun _ => "rgb(120,130,140)"%string;
     EXIF_getData := fun _ =>
       {| Make := Some "FUJIFILM"%string; Model := Some "X100V"%string;
          ISO := Some 200; FNumber := Some (F64.round 2.8);
          ExposureTime := Some (F64.round (1 # 125)); Software := None |};
     isFilmScanExif := fun _ _ => false;
     getCaptionLines := fun _ =>
       ("Shot on FUJIFILM X100V"%string, "ISO 200 / f2.8 / 1/125s"%string) |}.

(* ================================================================== *)
(** ** The specification's wording, for comparison with the code *)

Module Spec.

(** Step 1: the base padding fraction of a spacing tier. *)
Definition basePadding (s : SpaceType) : Q :=
  match s with
  | Space_S => 0.04
  | Space_M => 0.08
  | Space_L => 0.15
  end.

(** Step 2: the minimum bottom fraction, 5:7 with S being the sole
    outlier. *)
Definition minPadBottomFraction (r : RatioType) (s : SpaceType) : Q :=
  match r, s with
  | Ratio_5_7, Space_S => 0.1
  | _, _ => 0.17
  end.

(** Step 3. *)
Definition extraBottom (r : RatioType) (s : SpaceType) : Q :=
  Math_max 0 (minPadBottomFraction r s - basePadding s).

(** Step 5: the multipliers applied to [padTop], in order. *)
Definition padTopMultipliers (r : RatioType) (s : SpaceType) : list Q :=
  match r, s with
  | Ratio_9_16, Space_S => [2.5; 1.8]
  | Ratio_9_16, _ => [2.5]
  | _, _ => []
  end.

Definition computePadding (canvasWidth canvasHeight : Q)
  (r : RatioType) (s : SpaceType) : Padding :=
  let shortSide := Math_min canvasWidth canvasHeight in
  let pre := Math_round (shortSide * basePadding s) in
  {| padTop := fold_left Qmult (padTopMultipliers r s) pre;
     padLeft := pre;
     padRight := pre;
     padBottom :=
       Math_round (shortSide * (basePadding s + extraBottom r s)) |}.

(** The three target ratios of the classifier. *)
Definition targetRatios : list Q := [3 / 4; 2 / 3; 4 / 5].

(** [|width / height - t| < tol] for some target [t]; a zero height
    gives no ratio to compare. *)
Definition withinBand (tol width height : Q) : Prop :=
  ~ height == 0 /\
  exists t, In t targetRatios /\ Qabs (width / height - t) < tol.

(** The caption offset tables, by enumerated key; a missing entry
    counts as 0. *)
Definition offsetBase (r : RatioType) (s : SpaceType) : Q :=
  match r, s with
  | Ratio_5_7, Space_S | Ratio_5_7, Space_M => -0.012
  | _, _ => 0
  end.
Definition offset57 (r : RatioType) (s : SpaceType) : Q :=
  match r, s with
  | Ratio_1_1, Space_M => -0.003
  | Ratio_5_7, Space_M => -0.0015
  | _, _ => 0
  end.
Definition offset23 (r : RatioType) (s : SpaceType) : Q :=
  match r, s with
  | Ratio_5_7, Space_M => -0.003
  | _, _ => 0
  end.
Definition offset45 (r : RatioType) (s : SpaceType) : Q :=
  match r, s with
  | Ratio_5_7, Space_S => -0.045
  | Ratio_5_7, Space_M => -0.037
  | _, _ => 0
  end.

(** The source image ratio is within [tol] of [target]. *)
Definition near (imageWidth imageHeight target tol : Q) : bool :=
  ltb (Qabs (imageWidth / imageHeight - target)) tol.

(** The priority-ordered lookup: 5:7-specific, 2:3-specific,
    4:5-specific, base. *)
Definition offsetLookup (r : RatioType) (s : SpaceType)
  (imageWidth imageHeight : Q) : Q :=
  if near imageWidth imageHeight (5 / 7) 0.01 then offset57 r s
  else if near imageWidth imageHeight (2 / 3) 0.05 then offset23 r s
  else if near imageWidth imageHeight (4 / 5) 0.05 then offset45 r s
  else offsetBase r s.

Definition usesBaseTable (imageWidth imageHeight : Q) : bool :=
  negb (near imageWidth imageHeight (5 / 7) 0.01)
  && negb (near imageWidth imageHeight (2 / 3) 0.05)
  && negb (near imageWidth imageHeight (4 / 5) 0.05).

(** The small-screen correction: a constant for (1:1, S) below 480 and
    for (5:7, S) below 672. *)
Definition smallScreenCorrection (r : RatioType) (s : SpaceType)
  (canvasHeight : Q) : Q :=
  match r, s with
  | Ratio_1_1, Space_S => if ltb canvasHeight 480 then 0.021 else 0
  | Ratio_5_7, Space_S => if ltb canvasHeight 672 then 0.012 else 0
  | _, _ => 0
  end.

(** The offset as the specification words it: the correction is
    subtracted from the offset whichever table supplied it. *)
Definition captionOffsetAnyTable (r : RatioType) (s : SpaceType)
  (imageWidth imageHeight canvasHeight : Q) : Q :=
  offsetLookup r s imageWidth imageHeight
  - smallScreenCorrection r s canvasHeight.

(** The offset with the correction confined to the base table. *)
Definition captionOffsetBaseOnly (r : RatioType) (s : SpaceType)
  (imageWidth imageHeight canvasHeight : Q) : Q :=
  offsetLookup r s imageWidth imageHeight
  - (if usesBaseTable imageWidth imageHeight
     then smallScreenCorrection r s canvasHeight else 0).

(** The source tests as double arithmetic decides them for a photo of
    whole dimensions: the band, and for the 2:3 and the 4:5 test also
    the ratio that lies exactly on one edge of the band (37/60 and
    17/20), which rounding lets in. *)
Definition nearOrOn (imageWidth imageHeight target tol edge : Q) : bool :=
  near imageWidth imageHeight target tol
  || eqb (imageWidth / imageHeight) edge.

Definition offsetLookupClosed (r : RatioType) (s : SpaceType)
  (imageWidth imageHeight : Q) : Q :=
  if near imageWidth imageHeight (5 / 7) 0.01 then offset57 r s
  else if nearOrOn imageWidth imageHeight (2 / 3) 0.05 (37 # 60)
  then offset23 r s
  else if nearOrOn imageWidth imageHeight (4 / 5) 0.05 (17 # 20)
  then offset45 r s
  else offsetBase r s.

Definition usesBaseTableClosed (imageWidth imageHeight : Q) : bool :=
  negb (near imageWidth imageHeight (5 / 7) 0.01)
  && negb (nearOrOn imageWidth imageHeight (2 / 3) 0.05 (37 # 60))
  && negb (nearOrOn imageWidth imageHeight (4 / 5) 0.05 (17 # 20)).

(** The offset with the correction confined to the base table, the
    tests being those of the doubles. *)
Definition captionOffsetClosed (r : RatioType) (s : SpaceType)
  (imageWidth imageHeight canvasHeight : Q) : Q :=
  offsetLookupClosed r s imageWidth imageHeight
  - (if usesBaseTableClosed imageWidth imageHeight
     then smallScreenCorrection r s canvasHeight else 0).

(** The padding-centred anchor; the offset is a fraction of the canvas
    height. *)
Definition paddingCenteredY (canvasHeight padBottom captionBlockHeight
  offset : Q) : Q :=
  canvasHeight - padBottom / 2 - captionBlockHeight / 2
  + offset * canvasHeight.

(** The padded interior is not empty. *)
Definition paddedInteriorNonEmpty (W H : Q) (p : Padding) : Prop :=
  0 < W - padLeft p - padRight p /\ 0 < H - padTop p - padBottom p.

(** The rectangle lies between the paddings. *)
Definition withinPaddedInterior (W H : Q) (p : Padding) (g : Placement)
  : Prop :=
  padLeft p <= imageDrawLeft g /\
  imageDrawLeft g + imageDrawWidth g <= W - padRight p /\
  padTop p <= imageDrawTop g /\
  imageDrawTop g + imageDrawHeight g <= H - padBottom p.

(** The rectangle has the aspect ratio of the source. *)
Definition preservesAspect (img : Image) (g : Placement) : Prop :=
  imageDrawWidth g * NtoQ (img_height img)
  == imageDrawHeight g * NtoQ (img_width img).

Definition centeredHorizontally (W : Q) (p : Padding) (g : Placement)
  : Prop :=
  imageDrawLeft g - padLeft p
  == W - padRight p - (imageDrawLeft g + imageDrawWidth g).

Definition centeredVertically (H : Q) (p : Padding) (g : Placement)
  : Prop :=
  imageDrawTop g - padTop p
  == H - padBottom p - (imageDrawTop g + imageDrawHeight g).

Definition topAligned (p : Padding) (g : Placement) : Prop :=
  imageDrawTop g == padTop p.

(** The documented exceptions to top alignment. *)
Definition centeringException (r : RatioType) (s : SpaceType)
  (c : AspectRatioType) : bool :=
  match r, s, c with
  | Ratio_9_16, _, _ => true
  | Ratio_5_7, Space_L, Aspect_3_4 => true
  | Ratio_5_7, Space_L, Aspect_4_5 => true
  | _, _, _ => false
  end.

Definition sourceAspectClass (img : Image) : AspectRatioType :=
  getImageAspectRatioType (NtoQ (img_width img)) (NtoQ (img_height img)).

(** The image-placement invariant of the specification. *)
Definition placementInvariant (W H : Q) (r : RatioType) (s : SpaceType)
  (img : Image) (g : Placement) : Prop :=
  let p := getFramePadding W H (ratio_str r) (space_str s) in
  withinPaddedInterior W H p g /\
  preservesAspect img g /\
  centeredHorizontally W p g /\
  (if centeringException r s (sourceAspectClass img)
   then centeredVertically H p g else topAligned p g).

(** What the preview does for (9:16, L): between the side paddings as
    before, but centred in the full height of the canvas. *)
Definition centeredInFullHeight (W H : Q) (p : Padding) (img : Image)
  (g : Placement) : Prop :=
  padLeft p <= imageDrawLeft g /\
  imageDrawLeft g + imageDrawWidth g <= W - padRight p /\
  0 <= imageDrawTop g /\
  imageDrawTop g + imageDrawHeight g <= H /\
  preservesAspect img g /\
  centeredHorizontally W p g /\
  imageDrawTop g == H - (imageDrawTop g + imageDrawHeight g).

End Spec.

(** Field-wise equality of paddings up to the value of the rationals. *)
Definition Padding_eq (p q : Padding) : Prop :=
  padTop p == padTop q /\ padLeft p == padLeft q /\
  padRight p == padRight q /\ padBottom p == padBottom q.

(** ** Predicates used by the statements *)

(** The common shape of [drawCanvas_placement] and [print_placement]:
    contain-fit of a source of aspect [a] into a box [dw] wide and [boxH]
    high whose top edge is at [boxTop] and whose left edge is at [padL]. *)
Definition placeInBox (padL dw boxTop boxH a : Q) (center : bool)
  : Placement :=
  let '(targetW, targetH) :=
    if gtb a (dw / boxH)
    then (dw, dw / a)
    else (boxH * a, boxH) in
  {| imageDrawLeft := padL + (dw - targetW) / 2;
     imageDrawTop := if center then boxTop + (boxH - targetH) / 2
                     else boxTop;
     imageDrawWidth := targetW; imageDrawHeight := targetH |}.

Definition nonneg_integer (x : Q) : Prop := 0 <= x /\ is_integer x.

(** The postcondition as the specification words it. *)
Definition padding_postcondition (p : Padding) : Prop :=
  padLeft p == padRight p /\
  nonneg_integer (padTop p) /\ nonneg_integer (padLeft p) /\
  nonneg_integer (padRight p) /\ nonneg_integer (padBottom p).

(** The image kept in the state, if any, has positive dimensions. *)
Definition stored_image_positive (st : State) : Prop :=
  match image st with
  | Some img => (0 < img_width img)%N /\ (0 < img_height img)%N
  | None => True
  end.

(** Half a unit in the last place of 1, and a bound on half the smallest
    positive double. *)
Definition ulp53 : Q := 1 # 9007199254740992.
Definition tiny : Q := 1 # 1267650600228229401496703205376.

(** The test [Math.abs(r - t) < tol] on doubles, [r] being a quotient
    that is rounded first. *)
Definition bandTest (r t tol : Q) : bool :=
  ltb (Qabs (F64.round (F64.round r - F64.round t))) (F64.round tol).

(** Distances that dwarf the rounding error of a band test. *)
Definition margin : Q := 1 # 35184372088832.
Definition gridGap : Q := 1 # 4398046511104.

(** Image dimensions are whole numbers of pixels, at most [2^32], and
    the height is not zero. *)
Definition pixelDims (w h : N) : Prop :=
  (0 < h)%N /\ (w <= 4294967296)%N /\ (h <= 4294967296)%N.

(** The exact ratio of two dimensions. *)
Definition ratioOf (w h : N) : Q := NtoQ w / NtoQ h.


(** The baseline coordinate of a text call. *)
Definition textY (op : DrawOp) : option Q :=
  match op with
  | FillText _ _ _ _ _ y => Some y
  | _ => None
  end.

(* ================================================================== *)
(** ** Automatic frame colour: pixel sampling *)

Module Sampling.

Local Open Scope string_scope.

(** Decimal numeral of a non-negative integer, as template strings
    print it. *)
Definition decimal (n : N) : string :=
  DecimalString.NilZero.string_of_uint (N.to_uint n).

(** [`rgb(${r},${g},${b})`]. *)
Definition rgbString (r g b : N) : string :=
  "rgb(" ++ decimal r ++ "," ++ decimal g ++ "," ++ decimal b ++ ")".

(** [Math.round] of a non-negative quotient, as an integer. *)
Definition roundN (q : Q) : N := Z.to_N (Qfloor (q + (1 # 2))).

(** One pixel of [getImageData(...).data]: red, green, blue, alpha. *)
Record Pixel : Type := mkPixel {
  px_r : N;
  px_g : N;
  px_b : N;
  px_a : N
}.

Definition sumBy (f : Pixel -> N) (data : list Pixel) : N :=
  fold_left (fun acc p => (acc + f p)%N) data 0%N.

(** [getDominantColor] on the pixels of the 10 x 10 copy of the photo:
    the three sums are divided by 100, the pixel count of that copy. *)
Definition getDominantColor_data (data : list Pixel) : string :=
  let r := roundN (NtoQ (sumBy px_r data) / 100) in
  let g := roundN (NtoQ (sumBy px_g data) / 100) in
  let b := roundN (NtoQ (sumBy px_b data) / 100) in
  rgbString r g b.

Definition Math_max3 (a b c : Q) : Q := Math_max (Math_max a b) c.
Definition Math_min3 (a b c : Q) : Q := Math_min (Math_min a b) c.

(** [rgbToHsl]: hue, saturation and lightness of a colour whose channels
    are given on the scale 0..255. *)
Definition rgbToHsl (r g b : Q) : Q * Q * Q :=
  let r := (r / 255)%Q in
  let g := (g / 255)%Q in
  let b := (b / 255)%Q in
  let max := Math_max3 r g b in
  let min := Math_min3 r g b in
  let l := ((max + min) / 2)%Q in
  if Num.eqb max min then (0%Q, 0%Q, l)
  else
    let d := (max - min)%Q in
    let s := if Num.gtb l 0.5 then (d / (2 - max - min))%Q
             else (d / (max + min))%Q in
    let h :=
      if Num.eqb max r then
        ((g - b) / d + (if Num.ltb g b then 6 else 0))%Q
      else if Num.eqb max g then ((b - r) / d + 2)%Q
      else if Num.eqb max b then ((r - g) / d + 4)%Q
      else 0%Q in
    ((h / 6)%Q, s, l).

(** The filter of [getHighlightColor]: bright and saturated pixels. *)
Definition isHighlight (p : Pixel) : bool :=
  let '(h, s, l) := rgbToHsl (NtoQ (px_r p)) (NtoQ (px_g p)) (NtoQ (px_b p)) in
  Num.gtb l 0.4 && Num.gtb s 0.4.

(** [getHighlightColor] on the pixels of the 20 x 20 copy of the photo. *)
Definition getHighlightColor_data (data : list Pixel) : string :=
  let colors := List.filter isHighlight data in
  match colors with
  | [] => "#e53e3e"
  | _ :: _ =>
      let n := NtoQ (N.of_nat (List.length colors)) in
      let r := roundN (NtoQ (sumBy px_r colors) / n) in
      let g := roundN (NtoQ (sumBy px_g colors) / n) in
      let b := roundN (NtoQ (sumBy px_b colors) / n) in
      rgbString r g b
  end.

End Sampling.

(** Value of a digit list read from the left with accumulator [acc]. *)
Fixpoint uintValue (acc : Z) (d : Decimal.uint) : Z :=
  match d with
  | Decimal.Nil => acc
  | Decimal.D0 l => uintValue (acc * 10 + 0) l
  | Decimal.D1 l => uintValue (acc * 10 + 1) l
  | Decimal.D2 l => uintValue (acc * 10 + 2) l
  | Decimal.D3 l => uintValue (acc * 10 + 3) l
  | Decimal.D4 l => uintValue (acc * 10 + 4) l
  | Decimal.D5 l => uintValue (acc * 10 + 5) l
  | Decimal.D6 l => uintValue (acc * 10 + 6) l
  | Decimal.D7 l => uintValue (acc * 10 + 7) l
  | Decimal.D8 l => uintValue (acc * 10 + 8) l
  | Decimal.D9 l => uintValue (acc * 10 + 9) l
  end.

(** A pixel of a [Uint8ClampedArray]: every channel is a byte. *)
Definition byteChannels (p : Sampling.Pixel) : Prop :=
  (Sampling.px_r p <= 255 /\ Sampling.px_g p <= 255
   /\ Sampling.px_b p <= 255)%N.


(* ================================================================== *)
(** ** The controls: colour, ratio, spacing, cancel, print, manual caption *)

(** The remaining [useState] cells of [FramesTool] that the controls
    write: [printStatus === 'done'], [showResetButton],
    [isPrintDisabled]. *)
Record UI : Type := mkUI {
  ui_state : State;
  printDone : bool;
  showResetButton : bool;
  isPrintDisabled : bool
}.

Definition initialUI : UI :=
  {| ui_state := initialState; printDone := false;
     showResetButton := false; isPrintDisabled := false |}.

(** Updates of single cells of [State]. *)
Definition set_color (v : string) (st : State) : State :=
  {| image := image st; space := space st; ratio := ratio st;
     color := v; autoColor := autoColor st;
     snapPattern := snapPattern st;
     retrobluePattern := retrobluePattern st;
     autoPattern := autoPattern st; exifData := exifData st;
     captionLines := captionLines st;
     showErrorPopup := showErrorPopup st;
     isFilmScannerImage := isFilmScannerImage st;
     manualCamera := manualCamera st; manualPlace := manualPlace st;
     forceMobile := forceMobile st |}.

Definition set_autoColor (v : string) (st : State) : State :=
  {| image := image st; space := space st; ratio := ratio st;
     color := color st; autoColor := v;
     snapPattern := snapPattern st;
     retrobluePattern := retrobluePattern st;
     autoPattern := autoPattern st; exifData := exifData st;
     captionLines := captionLines st;
     showErrorPopup := showErrorPopup st;
     isFilmScannerImage := isFilmScannerImage st;
     manualCamera := manualCamera st; manualPlace := manualPlace st;
     forceMobile := forceMobile st |}.

Definition set_snapPattern (v : Pattern) (st : State) : State :=
  {| image := image st; space := space st; ratio := ratio st;
     color := color st; autoColor := autoColor st;
     snapPattern := v;
     retrobluePattern := retrobluePattern st;
     autoPattern := autoPattern st; exifData := exifData st;
     captionLines := captionLines st;
     showErrorPopup := showErrorPopup st;
     isFilmScannerImage := isFilmScannerImage st;
     manualCamera := manualCamera st; manualPlace := manualPlace st;
     forceMobile := forceMobile st |}.

Definition set_retrobluePattern (v : Pattern) (st : State) : State :=
  {| image := image st; space := space st; ratio := ratio st;
     color := color st; autoColor := autoColor st;
     snapPattern := snapPattern st;
     retrobluePattern := v;
     autoPattern := autoPattern st; exifData := exifData st;
     captionLines := captionLines st;
     showErrorPopup := showErrorPopup st;
     isFilmScannerImage := isFilmScannerImage st;
     manualCamera := manualCamera st; manualPlace := manualPlace st;
     forceMobile := forceMobile st |}.

Definition set_autoPattern (v : AutoPattern) (st : State) : State :=
  {| image := image st; space := space st; ratio := ratio st;
     color := color st; autoColor := autoColor st;
     snapPattern := snapPattern st;
     retrobluePattern := retrobluePattern st;
     autoPattern := v; exifData := exifData st;
     captionLines := captionLines st;
     showErrorPopup := showErrorPopup st;
     isFilmScannerImage := isFilmScannerImage st;
     manualCamera := manualCamera st; manualPlace := manualPlace st;
     forceMobile := forceMobile st |}.

Definition set_ratio (v : RatioType) (st : State) : State :=
  {| image := image st; space := space st; ratio := v;
     color := color st; autoColor := autoColor st;
     snapPattern := snapPattern st;
     retrobluePattern := retrobluePattern st;
     autoPattern := autoPattern st; exifData := exifData st;
     captionLines := captionLines st;
     showErrorPopup := showErrorPopup st;
     isFilmScannerImage := isFilmScannerImage st;
     manualCamera := manualCamera st; manualPlace := manualPlace st;
     forceMobile := forceMobile st |}.

Definition set_space (v : SpaceType) (st : State) : State :=
  {| image := image st; space := v; ratio := ratio st;
     color := color st; autoColor := autoColor st;
     snapPattern := snapPattern st;
     retrobluePattern := retrobluePattern st;
     autoPattern := autoPattern st; exifData := exifData st;
     captionLines := captionLines st;
     showErrorPopup := showErrorPopup st;
     isFilmScannerImage := isFilmScannerImage st;
     manualCamera := manualCamera st; manualPlace := manualPlace st;
     forceMobile := forceMobile st |}.

Definition set_showErrorPopup (v : bool) (st : State) : State :=
  {| image := image st; space := space st; ratio := ratio st;
     color := color st; autoColor := autoColor st;
     snapPattern := snapPattern st;
     retrobluePattern := retrobluePattern st;
     autoPattern := autoPattern st; exifData := exifData st;
     captionLines := captionLines st;
     showErrorPopup := v;
     isFilmScannerImage := isFilmScannerImage st;
     manualCamera := manualCamera st; manualPlace := manualPlace st;
     forceMobile := forceMobile st |}.

(** [manualCamera], [manualPlace] and the caption effect that follows
    them: in manual mode the caption is rebuilt from the two inputs. *)
Definition manualCaption (camera place : string) : string * string :=
  ((if (camera =? "")%string then ""%string
    else ("Shot on " ++ camera)%string),
   place).

Definition set_manual (camera place : string) (st : State) : State :=
  {| image := image st; space := space st; ratio := ratio st;
     color := color st; autoColor := autoColor st;
     snapPattern := snapPattern st;
     retrobluePattern := retrobluePattern st;
     autoPattern := autoPattern st; exifData := exifData st;
     captionLines :=
       if isFilmScannerImage st then manualCaption camera place
       else captionLines st;
     showErrorPopup := showErrorPopup st;
     isFilmScannerImage := isFilmScannerImage st;
     manualCamera := camera; manualPlace := place;
     forceMobile := forceMobile st |}.

Definition togglePattern (p : Pattern) : Pattern :=
  match p with
  | Pattern1 => Pattern2
  | Pattern2 => Pattern1
  end.

Definition nextAutoPattern (p : AutoPattern) : AutoPattern :=
  match p with
  | Auto1 => Auto2
  | Auto2 => Auto3
  | Auto3 => Auto1
  end.

(** What the user does. [PrintFinished] is the completion of the export
    (share or download), which may arrive after other events. *)
Inductive Event : Type :=
| Upload (files : list Image)
| ColorChange (newColor : string)
| RatioChange (newRatio : RatioType)
| SpaceChange (newSpace : SpaceType)
| Cancel
| PrintFinished
| ClosePopup
| ManualCamera (value : string)
| ManualPlace (value : string).

Section Controls.

Variable B : Browser.

(** The two other samplers of the automatic colour. *)
Variable getCenterAverageColor : Image -> string.
Variable getHighlightColor : Image -> string.

Definition sampleAuto (p : AutoPattern) (img : Image) : string :=
  match p with
  | Auto1 => getDominantColor B img
  | Auto2 => getCenterAverageColor img
  | Auto3 => getHighlightColor img
  end.

(** [if (isPrintDisabled) { setIsPrintDisabled(false);
    setPrintStatus('idle'); }] followed by an update of the state. *)
Definition unlockAnd (f : State -> State) (ui : UI) : UI :=
  {| ui_state := f (ui_state ui);
     printDone := if isPrintDisabled ui then false else printDone ui;
     showResetButton := showResetButton ui;
     isPrintDisabled := false |}.

(** The state part of [handleColorChange]; the handler reads [color],
    [image] and the patterns of the render it belongs to. *)
Definition colorChange (newColor : string) (st : State) : State :=
  if (newColor =? "retroblue")%string then
    if (color st =? "retroblue")%string
    then set_retrobluePattern (togglePattern (retrobluePattern st)) st
    else set_color "retroblue" (set_retrobluePattern Pattern1 st)
  else if (newColor =? "snap")%string then
    if (color st =? "snap")%string
    then set_snapPattern (togglePattern (snapPattern st)) st
    else set_color "snap" (set_snapPattern Pattern1 st)
  else if (newColor =? "auto")%string then
    let st1 := set_color "auto" st in
    let st2 := match image st with
               | Some img => set_autoColor (getDominantColor B img) st1
               | None => st1
               end in
    if (color st =? "auto")%string then
      let nextPattern := nextAutoPattern (autoPattern st) in
      let st3 := set_autoPattern nextPattern st2 in
      match image st with
      | Some img => set_autoColor (sampleAuto nextPattern img) st3
      | None => st3
      end
    else set_autoPattern Auto1 st2
  else set_color newColor st.

Definition handleColorChange (newColor : string) (ui : UI) : UI :=
  unlockAnd (colorChange newColor) ui.

(** The Cancel / Reset button. *)
Definition cancel (ui : UI) : UI :=
  let st := ui_state ui in
  {| ui_state :=
       {| image := None; space := space st; ratio := ratio st;
          color := "white"; autoColor := "#e53e3e";
          snapPattern := Pattern1; retrobluePattern := Pattern1;
          autoPattern := Auto1; exifData := None;
          captionLines := (""%string, ""%string);
          showErrorPopup := showErrorPopup st;
          isFilmScannerImage := false;
          manualCamera := manualCamera st; manualPlace := manualPlace st;
          forceMobile := forceMobile st |};
     printDone := false;
     showResetButton := false;
     isPrintDisabled := false |}.

Definition step (ui : UI) (e : Event) : UI :=
  match e with
  | Upload files =>
      {| ui_state := handleFilesUpload B (ui_state ui) files;
         printDone := printDone ui;
         showResetButton := showResetButton ui;
         isPrintDisabled := isPrintDisabled ui |}
  | ColorChange newColor => handleColorChange newColor ui
  | RatioChange newRatio => unlockAnd (set_ratio newRatio) ui
  | SpaceChange newSpace => unlockAnd (set_space newSpace) ui
  | Cancel => cancel ui
  | PrintFinished =>
      {| ui_state := ui_state ui; printDone := true;
         showResetButton := true; isPrintDisabled := true |}
  | ClosePopup =>
      {| ui_state := set_showErrorPopup false (ui_state ui);
         printDone := printDone ui;
         showResetButton := showResetButton ui;
         isPrintDisabled := isPrintDisabled ui |}
  | ManualCamera value =>
      {| ui_state := set_manual value (manualPlace (ui_state ui)) (ui_state ui);
         printDone := printDone ui;
         showResetButton := showResetButton ui;
         isPrintDisabled := isPrintDisabled ui |}
  | ManualPlace value =>
      {| ui_state := set_manual (manualCamera (ui_state ui)) value (ui_state ui);
         printDone := printDone ui;
         showResetButton := showResetButton ui;
         isPrintDisabled := isPrintDisabled ui |}
  end.

Definition run (events : list Event) : UI := fold_left step events initialUI.

(** The frame colour of a state. *)
Definition frameColorOf (st : State) : string :=
  getFrameColor (color st) (autoColor st) (snapPattern st)
    (retrobluePattern st).

End Controls.

(* ================================================================== *)
(** ** Caption text: [getCaptionLines] *)

(** [s.includes(sub)]. *)
Fixpoint includes (s sub : string) : bool :=
  String.prefix sub s ||
  match s with
  | EmptyString => false
  | String _ rest => includes rest sub
  end.

(** [s.endsWith(suffix)]. *)
Definition endsWith (s suffix : string) : bool :=
  (String.length suffix <=? String.length s)%nat &&
  (substring (String.length s - String.length suffix)
     (String.length suffix) s =? suffix)%string.

(** [s.slice(0, -n)]. *)
Definition dropLast (n : nat) (s : string) : string :=
  substring 0 (String.length s - n) s.

Module CaptionText.

Local Open Scope string_scope.

Import Sampling.

(** Decimal numeral of an integer. *)
Definition decimalZ (z : Z) : string :=
  if (z <? 0)%Z then "-" ++ decimal (Z.to_N (- z)) else decimal (Z.to_N z).

Definition isIntegerb (x : Q) : bool := Qeq_bool (inject_Z (Qfloor x)) x.

Section Builder.

(** The three sections of [camera_aliases.json]; a section that is
    missing is the empty table.  The values are strings.  A key is
    looked up among the entries of its section only: for a make or a
    model that is a name inherited from [Object.prototype] the source
    finds the inherited function instead, so the statements about
    arbitrary EXIF strings assume [ownKey] of them. *)
Variable manufacturers models aliases : gmap string string.

(** [String.prototype.toLowerCase], which is not limited to ASCII
    (camera names such as "α7 III" occur in the tables). *)
Variable toLowerCase : string -> string.

(** [Number::toString] where it is not the plain decimal numeral of an
    integer: fractions and magnitudes above 2^53. *)
Variable Number_toString : Q -> string.

(** [`${x}`] for a number. *)
Definition toString (x : Q) : string :=
  if isIntegerb x && Qle_bool (Qabs x) (inject_Z (2 ^ 53))
  then decimalZ (Qfloor x) else Number_toString x.

(** [x.toFixed(1)]: the integer [n] nearest to [10 x] (the larger one on
    a tie), printed with a point before its last digit. *)
Definition toFixed1_abs (x : Q) : string :=
  if geb x (inject_Z (10 ^ 21)) then Number_toString x
  else
    let n := Qfloor (10 * x + (1 # 2)) in
    decimal (Z.to_N (n / 10)) ++ "." ++ decimal (Z.to_N (n mod 10)).

Definition toFixed1 (x : Q) : string :=
  if ltb x 0 then "-" ++ toFixed1_abs (- x) else toFixed1_abs x.

(** [table[key] || key]. *)
Definition lookupOr (table : gmap string string) (key : string) : string :=
  match table !! key with
  | Some v => if v =? "" then key else v
  | None => key
  end.

Definition normalizeMake (make : option string) : string :=
  match make with
  | None => ""
  | Some m => if m =? "" then "" else lookupOr manufacturers m
  end.

Definition normalizeModel (model : option string) : string :=
  match model with
  | None => ""
  | Some m => if m =? "" then "" else lookupOr models m
  end.

Definition nonEmpty (s : string) : bool := negb (s =? "").

Definition generateCameraName (make model : option string) : string :=
  if negb (nonEmpty (default "" model)) then ""
  else
    let normalizedMake := normalizeMake make in
    let normalizedModel := normalizeModel model in
    let both := nonEmpty normalizedMake && nonEmpty normalizedModel in
    let makeLower := toLowerCase normalizedMake in
    let modelLower := toLowerCase normalizedModel in
    if both && includes modelLower makeLower then normalizedModel
    else if both && includes makeLower modelLower then normalizedMake
    else if both then normalizedMake ++ " " ++ normalizedModel
    else if nonEmpty normalizedModel then normalizedModel
    else normalizedMake.

Definition getCameraName (make model : option string) : string :=
  match model with
  | None => ""
  | Some m =>
      if m =? "" then ""
      else match aliases !! m with
           | Some a => if nonEmpty a then a else generateCameraName make model
           | None => generateCameraName make model
           end
  end.

(** [Math.round] of a number that may be an infinity, and its
    [`${x}`]. *)
Definition roundNumber (x : number) : number :=
  match x with
  | Finite q => Finite (Math_round q)
  | other => other
  end.

Definition templateNumber (x : number) : string :=
  match x with
  | Finite q => toString q
  | PosInfinity => "Infinity"
  | NegInfinity => "-Infinity"
  | NaN => "NaN"
  end.

(** The reciprocal [1 / exposure] is a double division. *)
Definition getExposureString (exposure : option Q) : string :=
  match exposure with
  | None => ""
  | Some e =>
      if eqb e 0 then ""
      else if geb e 1 then toFixed1 e ++ "s"
      else "1/" ++ templateNumber (roundNumber (F64.div 1 e)) ++ "s"
  end.

Definition getFNumberString (fNumber : option Q) : string :=
  match fNumber with
  | None => ""
  | Some f =>
      if eqb f 0 then ""
      else
        let rounded := toFixed1 f in
        let displayValue :=
          if endsWith rounded ".0" then dropLast 2 rounded else rounded in
        "f" ++ displayValue
  end.

Definition getCaptionLines (exif : ExifData) : string * string :=
  let camera := getCameraName (Make exif) (Model exif) in
  let line1 := if nonEmpty camera then "Shot on " ++ camera else "" in
  let iso :=
    match ISO exif with
    | Some i => if eqb i 0 then "" else "ISO " ++ toString i
    | None => ""
    end in
  let fnum := getFNumberString (FNumber exif) in
  let exp := getExposureString (ExposureTime exif) in
  let settings := String.concat " / " (List.filter nonEmpty [iso; fnum; exp]) in
  (line1, settings).

End Builder.

End CaptionText.

(* ================================================================== *)
(** ** Film scans: [isFilmScanExif] *)

Module FilmScan.

Local Open Scope string_scope.

Section Scanners.

(** The [film_scanners] list of [film_scanners.json]. *)
Variable filmScanners : list string.

Variable toUpperCase toLowerCase : string -> string.

Definition isFilmScanner (manufacturer : string) : bool :=
  if manufacturer =? "" then false
  else existsb
         (fun scanner =>
            includes (toUpperCase manufacturer) (toUpperCase scanner))
         filmScanners.

Definition getFilmScannerList : list string := filmScanners.

Definition isFilmScanExif (make software : option string) : bool :=
  if isFilmScanner (default "" make) then true
  else match software with
       | Some s => includes (toLowerCase s) "negative lab pro"
       | None => false
       end.

End Scanners.

End FilmScan.

(* ================================================================== *)
(** ** Drawn text and a film-scan upload *)

(** The characters written by the [fillText] calls of a render, in the
    order of the calls. *)
Definition drawnText (ops : list DrawOp) : string :=
  fold_right
    (fun op acc =>
       match op with
       | FillText _ _ _ char _ _ => String char acc
       | _ => acc
       end)
    EmptyString ops.

(** What [drawCaption] writes for a first line: "Shot on ", and the line
    with its first "Shot on " removed. *)
Definition firstLineText (line1 : string) : string :=
  if (line1 =? "")%string then ""%string
  else ("Shot on " ++ removeFirst "Shot on " line1)%string.

(** A browser whose photos carry the software tag of a negative
    converter and whose film-scan test is [FilmScan.isFilmScanExif] over
    a one-entry scanner list. *)
Definition filmScanBrowser : Browser :=
  {| measureText := measureText desktopBrowser;
     innerWidth := innerWidth desktopBrowser;
     isMobileDevice := false;
     getDominantColor := getDominantColor desktopBrowser;
     EXIF_getData := fun _ =>
       {| Make := None; Model := None; ISO := None; FNumber := None;
          ExposureTime := None;
          Software := Some "Negative Lab Pro v2.3"%string |};
     isFilmScanExif :=
       FilmScan.isFilmScanExif ["NORITSU KOKI"%string] (fun s => s)
         Color.toLowerCase;
     getCaptionLines :=
       CaptionText.getCaptionLines ∅ ∅ ∅ Color.toLowerCase
         (fun _ => EmptyString) |}.

(* ================================================================== *)
(** * Properties *)

(** ** Arithmetic helpers *)

(** The quotients of literals that the source writes ([3 / 4], ...) are
    turned into fractions, which linear arithmetic reads as constants. *)
Ltac fractions :=
  change (3 / 4) with (3 # 4) in *;
  change (2 / 3) with (2 # 3) in *;
  change (4 / 5) with (4 # 5) in *;
  change (5 / 7) with (5 # 7) in *;
  change (9 / 16) with (9 # 16) in *.

(** Linear arithmetic after halving is written as a product. *)
Ltac qlra :=
  fractions; unfold Qdiv in *; change (/ 2) with (1 # 2) in *; lra.

Lemma ltb_lt (x y : Q) : ltb x y = true <-> x < y.
Proof.
  unfold ltb. rewrite negb_true_iff, <- not_true_iff_false, Qle_bool_iff.
  split; [apply Qnot_le_lt | apply Qlt_not_le].
Qed.

Lemma ltb_ge (x y : Q) : ltb x y = false <-> y <= x.
Proof.
  unfold ltb. rewrite negb_false_iff, Qle_bool_iff. reflexivity.
Qed.

Lemma Math_min_spec (x y : Q) :
  (x <= y /\ Math_min x y = x) \/ (y < x /\ Math_min x y = y).
Proof.
  unfold Math_min. destruct (Qle_bool x y) eqn:E.
  - left. split; [now apply Qle_bool_iff | reflexivity].
  - right. split; [| reflexivity].
    apply Qnot_le_lt. intros H. apply Qle_bool_iff in H. congruence.
Qed.

Lemma Math_min_nonneg (x y : Q) : 0 <= x -> 0 <= y -> 0 <= Math_min x y.
Proof. intros Hx Hy. destruct (Math_min_spec x y) as [[_ ->] | [_ ->]]; assumption. Qed.

Lemma Math_round_nonneg (x : Q) : 0 <= x -> 0 <= Math_round x.
Proof.
  intros Hx. unfold Math_round.
  change 0 with (inject_Z 0). rewrite <- Zle_Qle.
  change 0%Z with (Qfloor 0). apply Qfloor_resp_le. lra.
Qed.

Lemma Math_round_integer (x : Q) : is_integer (Math_round x).
Proof. unfold is_integer, Math_round. now rewrite Qfloor_Z. Qed.

Lemma Math_round_near (x : Q) :
  x - (1 # 2) < Math_round x /\ Math_round x <= x + (1 # 2).
Proof.
  unfold Math_round. split.
  - pose proof (Qlt_floor (x + (1 # 2))) as H.
    rewrite inject_Z_plus in H. change (inject_Z 1) with 1 in H. lra.
  - apply Qfloor_le.
Qed.

Lemma eqb_eq (x y : Q) : Num.eqb x y = true <-> x == y.
Proof. apply Qeq_bool_iff. Qed.

Lemma truthy_pos (q : Q) : 0 < q -> truthy (Some q) = true.
Proof.
  intros H. cbn. apply negb_true_iff, not_true_iff_false.
  intros E. apply eqb_eq in E. lra.
Qed.

Lemma NtoQ_zero (n : N) : NtoQ n == 0 <-> n = 0%N.
Proof.
  unfold NtoQ. split.
  - intros H. unfold Qeq in H. cbn in H. lia.
  - intros ->. reflexivity.
Qed.

Lemma NtoQ_pos (n : N) : (0 < n)%N -> 0 < NtoQ n.
Proof.
  intros H. unfold NtoQ. change 0 with (inject_Z 0).
  rewrite <- Zlt_Qlt. lia.
Qed.

(* ------------------------------------------------------------------ *)
(** ** Double precision: the rounding error *)

Lemma pow2_pos (e : Z) : 0 < F64.pow2 e.
Proof. unfold F64.pow2. apply Qpower_0_lt. reflexivity. Qed.

Lemma pow2_inject (n : Z) : (0 <= n)%Z -> inject_Z (2 ^ n) == F64.pow2 n.
Proof. intros H. unfold F64.pow2. now rewrite Zpower_Qpower. Qed.

Lemma nearestEven_error (y : Q) :
  Qabs (inject_Z (F64.nearestEven y) - y) <= 1 # 2.
Proof.
  unfold F64.nearestEven.
  pose proof (Qfloor_le y) as Hl. pose proof (Qlt_floor y) as Hu.
  rewrite inject_Z_plus in Hu. change (inject_Z 1) with 1 in Hu.
  destruct (ltb (y - inject_Z (Qfloor y)) (1 # 2)) eqn:E1.
  - apply ltb_lt in E1. apply Qabs_Qle_condition. split; lra.
  - apply ltb_ge in E1.
    destruct (ltb (1 # 2) (y - inject_Z (Qfloor y))) eqn:E2.
    + rewrite inject_Z_plus. change (inject_Z 1) with 1.
      apply Qabs_Qle_condition. split; lra.
    + apply ltb_ge in E2.
      destruct (Z.even (Qfloor y)).
      * apply Qabs_Qle_condition. split; lra.
      * rewrite inject_Z_plus. change (inject_Z 1) with 1.
        apply Qabs_Qle_condition. split; lra.
Qed.

(** The computed binade is not above the number. *)
Lemma binade_lower (x : Q) : 0 < x -> F64.pow2 (F64.binade x) <= x.
Proof.
  intros Hx. unfold F64.binade.
  destruct (Qle_bool _ x) eqn:E; [now apply Qle_bool_iff |].
  clear E. destruct x as [a b].
  assert (Ha : (0 < a)%Z).
  { unfold Qlt in Hx. simpl in Hx. lia. }
  cbn [Qnum Qden].
  set (la := Z.log2 a). set (lb := Z.log2 (Z.pos b)).
  assert (Hla : (0 <= la)%Z) by apply Z.log2_nonneg.
  assert (Hlb : (0 <= lb)%Z) by apply Z.log2_nonneg.
  destruct (Z.log2_spec a Ha) as [A1 _].
  destruct (Z.log2_spec (Z.pos b) (Pos2Z.is_pos b)) as [_ B2].
  fold la in A1. fold lb in B2.
  replace (la - lb - 1)%Z with (la - (lb + 1))%Z by lia.
  unfold F64.pow2. rewrite Qpower_minus by discriminate.
  rewrite (Qmake_Qdiv a b).
  assert (P : inject_Z (2 ^ la) <= inject_Z a) by now rewrite <- Zle_Qle.
  assert (R : inject_Z (Z.pos b) <= inject_Z (2 ^ Z.succ lb))
    by (rewrite <- Zle_Qle; lia).
  rewrite pow2_inject in P by assumption.
  rewrite pow2_inject in R by lia.
  unfold F64.pow2 in P, R. replace (Z.succ lb) with (lb + 1)%Z in R by lia.
  pose proof (pow2_pos la) as Pp. pose proof (pow2_pos (lb + 1)) as Rp.
  unfold F64.pow2 in Pp, Rp.
  assert (Bp : 0 < inject_Z (Z.pos b)) by reflexivity.
  set (P' := 2 ^ la) in *. set (R' := 2 ^ (lb + 1)) in *.
  set (A := inject_Z a) in *. set (B := inject_Z (Z.pos b)) in *.
  apply Qle_shift_div_l; [exact Bp |].
  unfold Qdiv. rewrite <- Qmult_assoc, (Qmult_comm (/ R') B), Qmult_assoc.
  apply Qle_shift_div_r; [exact Rp |].
  nra.
Qed.

(** A positive number is rounded by at most half a unit in its last
    place. *)
Lemma roundPos_error (x : Q) :
  0 < x ->
  Qabs (F64.roundPos x - x) <= ulp53 * x + F64.pow2 (-1075).
Proof.
  intros Hx. unfold F64.roundPos.
  set (q := Z.max (F64.binade x - 52) (-1074)).
  pose proof (pow2_pos q) as Hp.
  set (p := F64.pow2 q) in *.
  pose proof (nearestEven_error (x / p)) as Hm.
  set (m := inject_Z (F64.nearestEven (x / p))) in *.
  assert (E : m * p - x == (m - x / p) * p) by (field; lra).
  rewrite E, Qabs_Qmult, (Qabs_pos p) by lra.
  assert (Hq : p <= (1 # 4503599627370496) * x + F64.pow2 (-1074)).
  { subst p q.
    destruct (Z.max_spec (F64.binade x - 52) (-1074)) as [[_ ->] | [_ ->]].
    - pose proof (pow2_pos (-1074)). pose proof (pow2_pos (-1075)). lra.
    - pose proof (binade_lower x Hx) as Hb.
      replace (F64.binade x - 52)%Z with (F64.binade x + -52)%Z by lia.
      unfold F64.pow2 at 1. rewrite Qpower_plus by discriminate.
      fold (F64.pow2 (F64.binade x)).
      change (2 ^ (-52)) with (1 # 4503599627370496).
      pose proof (pow2_pos (-1074)). lra. }
  assert (Hh : F64.pow2 (-1074) == 2 * F64.pow2 (-1075)).
  { unfold F64.pow2. replace (-1074)%Z with (1 + -1075)%Z by lia.
    rewrite Qpower_plus by discriminate. reflexivity. }
  assert (Hm' : Qabs (m - x / p) * p <= (1 # 2) * p).
  { apply Qmult_le_compat_r; lra. }
  unfold ulp53. lra.
Qed.

Lemma tiny_bound : F64.pow2 (-1075) <= tiny.
Proof. vm_compute. discriminate. Qed.

(** The standard model of a rounded operation: a relative error of at
    most [2^-53], up to underflow. *)
Lemma round_error (x : Q) :
  Qabs (F64.round x - x) <= ulp53 * Qabs x + tiny.
Proof.
  unfold F64.round. cbv zeta.
  pose proof (Qred_correct x) as Er.
  pose proof tiny_bound as Ht.
  destruct (Num.eqb (Qred x) 0) eqn:E0.
  - apply Qeq_bool_eq in E0. rewrite Er in E0. rewrite E0.
    vm_compute. discriminate.
  - apply Qeq_bool_neq in E0.
    destruct (ltb (Qred x) 0) eqn:E1.
    + apply ltb_lt in E1.
      pose proof (roundPos_error (- Qred x)) as H.
      set (v := F64.roundPos (- Qred x)) in *.
      rewrite Er in *.
      assert (Hn : 0 < - x) by lra. specialize (H Hn).
      rewrite (Qabs_neg x) by lra.
      apply Qabs_Qle_condition in H. apply Qabs_Qle_condition.
      split; lra.
    + apply ltb_ge in E1.
      pose proof (roundPos_error (Qred x)) as H.
      set (v := F64.roundPos (Qred x)) in *.
      rewrite Er in *.
      assert (Hn : 0 < x) by lra. specialize (H Hn).
      rewrite (Qabs_pos x) by lra.
      apply Qabs_Qle_condition in H. apply Qabs_Qle_condition.
      split; lra.
Qed.

(** Rounding depends on the value only. *)
Lemma round_comp (x y : Q) : x == y -> F64.round x = F64.round y.
Proof. intros E. unfold F64.round. now rewrite (Qred_complete x y E). Qed.

Lemma round_nonneg_bounds (x : Q) :
  0 <= x ->
  x - ulp53 * x - tiny <= F64.round x /\ F64.round x <= x + ulp53 * x + tiny.
Proof.
  intros Hx. pose proof (round_error x) as H.
  rewrite (Qabs_pos x) in H by exact Hx.
  apply Qabs_Qle_condition in H. split; lra.
Qed.

Lemma round_nonpos_bounds (x : Q) :
  x <= 0 ->
  x + ulp53 * x - tiny <= F64.round x /\ F64.round x <= x - ulp53 * x + tiny.
Proof.
  intros Hx. pose proof (round_error x) as H.
  rewrite (Qabs_neg x) in H by exact Hx.
  apply Qabs_Qle_condition in H. split; lra.
Qed.

(** ** Double precision: a band test away from the band edges *)

Lemma bandTest_inside (r t tol : Q) :
  0 <= r -> 0 <= t -> t <= 1 -> 0 <= tol -> tol <= 1 ->
  Qabs (r - t) <= tol - margin ->
  bandTest r t tol = true.
Proof.
  intros Hr Ht0 Ht1 Hl0 Hl1 Hin. unfold bandTest. apply ltb_lt.
  apply Qabs_Qle_condition in Hin. destruct Hin as [I1 I2].
  destruct (round_nonneg_bounds r Hr) as [R1 R2].
  destruct (round_nonneg_bounds t Ht0) as [T1 T2].
  destruct (round_nonneg_bounds tol Hl0) as [L1 L2].
  set (R := F64.round r) in *. set (T := F64.round t) in *.
  set (TOL := F64.round tol) in *.
  unfold ulp53, tiny, margin in *.
  destruct (Qlt_le_dec (R - T) 0) as [Hy | Hy].
  - destruct (round_nonpos_bounds (R - T)) as [D1 D2]; [lra |].
    unfold ulp53, tiny in *.
    apply Qabs_Qlt_condition. split; lra.
  - destruct (round_nonneg_bounds (R - T) Hy) as [D1 D2].
    unfold ulp53, tiny in *.
    apply Qabs_Qlt_condition. split; lra.
Qed.

Lemma bandTest_outside (r t tol : Q) :
  0 <= r -> 0 <= t -> t <= 1 -> 0 <= tol -> tol <= 1 ->
  tol + margin <= Qabs (r - t) ->
  bandTest r t tol = false.
Proof.
  intros Hr Ht0 Ht1 Hl0 Hl1 Hout. unfold bandTest. apply ltb_ge.
  destruct (round_nonneg_bounds r Hr) as [R1 R2].
  destruct (round_nonneg_bounds t Ht0) as [T1 T2].
  destruct (round_nonneg_bounds tol Hl0) as [L1 L2].
  set (R := F64.round r) in *. set (T := F64.round t) in *.
  set (TOL := F64.round tol) in *.
  unfold ulp53, tiny, margin in *.
  destruct (Qlt_le_dec (r - t) 0) as [Hs | Hs].
  - rewrite (Qabs_neg (r - t)) in Hout by lra.
    destruct (round_nonpos_bounds (R - T)) as [D1 D2]; [lra |].
    unfold ulp53, tiny in *.
    rewrite Qabs_neg by lra. lra.
  - rewrite (Qabs_pos (r - t)) in Hout by lra.
    destruct (round_nonneg_bounds (R - T)) as [D1 D2]; [lra |].
    unfold ulp53, tiny in *.
    rewrite Qabs_pos by lra. lra.
Qed.

(** ** Double precision: quotients of image dimensions *)

Lemma NtoQ_nonneg (n : N) : 0 <= NtoQ n.
Proof.
  unfold NtoQ. change 0 with (inject_Z 0). rewrite <- Zle_Qle. lia.
Qed.

Lemma ratioOf_nonneg (w h : N) : (0 < h)%N -> 0 <= ratioOf w h.
Proof.
  intros Hh. unfold ratioOf. apply Qle_shift_div_l; [now apply NtoQ_pos |].
  rewrite Qmult_0_l. apply NtoQ_nonneg.
Qed.

Lemma ratioOf_bound (w h : N) :
  pixelDims w h -> ratioOf w h <= 4294967296.
Proof.
  intros (Hh & Hw & _). unfold ratioOf.
  apply Qle_shift_div_r; [now apply NtoQ_pos |].
  assert (A : NtoQ w <= 4294967296).
  { unfold NtoQ. change 4294967296 with (inject_Z 4294967296).
    rewrite <- Zle_Qle. lia. }
  assert (B : 1 <= NtoQ h).
  { unfold NtoQ. change 1 with (inject_Z 1). rewrite <- Zle_Qle. lia. }
  nra.
Qed.

(** Comparing a ratio of dimensions with a fraction is comparing two
    integers. *)
Lemma ratioOf_lt (w h : N) (p : Z) (q : positive) :
  (0 < h)%N ->
  ratioOf w h < p # q <-> (Z.of_N w * Z.pos q < p * Z.of_N h)%Z.
Proof.
  intros Hh. destruct h as [| hp]; [lia |].
  unfold ratioOf, NtoQ, Qlt, Qdiv, Qmult, Qinv. simpl. lia.
Qed.

Lemma ratioOf_gt (w h : N) (p : Z) (q : positive) :
  (0 < h)%N ->
  p # q < ratioOf w h <-> (p * Z.of_N h < Z.of_N w * Z.pos q)%Z.
Proof.
  intros Hh. destruct h as [| hp]; [lia |].
  unfold ratioOf, NtoQ, Qlt, Qdiv, Qmult, Qinv. simpl. lia.
Qed.

Lemma ratioOf_le (w h : N) (p : Z) (q : positive) (k : Q) :
  (0 < h)%N ->
  inject_Z (Z.of_N w) * inject_Z (Z.pos q)
  <= inject_Z p * inject_Z (Z.of_N h)
     - k * (inject_Z (Z.of_N h) * inject_Z (Z.pos q)) ->
  ratioOf w h <= (p # q) - k.
Proof.
  intros Hh H. unfold ratioOf, NtoQ.
  set (W := inject_Z (Z.of_N w)) in *. set (Hq := inject_Z (Z.of_N h)) in *.
  set (Qq := inject_Z (Z.pos q)) in *. set (P := inject_Z p) in *.
  assert (H0 : 0 < Hq).
  { subst Hq. change 0 with (inject_Z 0). rewrite <- Zlt_Qlt. lia. }
  assert (Q0 : 0 < Qq) by reflexivity.
  rewrite (Qmake_Qdiv p q). fold P Qq.
  apply Qle_shift_div_r; [exact H0 |].
  assert (E : (P / Qq - k) * Hq == (P * Hq - k * (Hq * Qq)) / Qq)
    by (field; lra).
  rewrite E. apply Qle_shift_div_l; [exact Q0 | exact H].
Qed.

(** A ratio of pixel dimensions below a fraction with a small
    denominator is below it by a margin that dwarfs the rounding
    error. *)
Lemma grid_below (w h : N) (p : Z) (q : positive) :
  pixelDims w h -> (Z.pos q <= 1024)%Z ->
  ratioOf w h < p # q -> ratioOf w h <= (p # q) - gridGap.
Proof.
  intros (Hh & _ & Hh32) Hq Hlt.
  apply ratioOf_lt in Hlt; [| exact Hh].
  apply ratioOf_le; [exact Hh |].
  assert (Hz : (Z.of_N w * Z.pos q + 1 <= p * Z.of_N h)%Z) by lia.
  rewrite Zle_Qle in Hz.
  rewrite inject_Z_plus, !inject_Z_mult in Hz.
  change (inject_Z 1) with 1 in Hz.
  assert (B1 : inject_Z (Z.of_N h) <= 4294967296).
  { change 4294967296 with (inject_Z 4294967296). rewrite <- Zle_Qle. lia. }
  assert (B2 : inject_Z (Z.pos q) <= 1024).
  { change 1024 with (inject_Z 1024). now rewrite <- Zle_Qle. }
  assert (B3 : 0 < inject_Z (Z.of_N h)).
  { change 0 with (inject_Z 0). rewrite <- Zlt_Qlt. lia. }
  assert (B4 : 0 < inject_Z (Z.pos q)) by reflexivity.
  set (W := inject_Z (Z.of_N w)) in *. set (Hq' := inject_Z (Z.of_N h)) in *.
  set (Qq := inject_Z (Z.pos q)) in *. set (P := inject_Z p) in *.
  assert (B5 : Hq' * Qq <= 4398046511104) by nra.
  unfold gridGap. lra.
Qed.

Lemma ratioOf_ge (w h : N) (p : Z) (q : positive) (k : Q) :
  (0 < h)%N ->
  inject_Z p * inject_Z (Z.of_N h)
  + k * (inject_Z (Z.of_N h) * inject_Z (Z.pos q))
  <= inject_Z (Z.of_N w) * inject_Z (Z.pos q) ->
  (p # q) + k <= ratioOf w h.
Proof.
  intros Hh H. unfold ratioOf, NtoQ.
  set (W := inject_Z (Z.of_N w)) in *. set (Hq := inject_Z (Z.of_N h)) in *.
  set (Qq := inject_Z (Z.pos q)) in *. set (P := inject_Z p) in *.
  assert (H0 : 0 < Hq).
  { subst Hq. change 0 with (inject_Z 0). rewrite <- Zlt_Qlt. lia. }
  assert (Q0 : 0 < Qq) by reflexivity.
  rewrite (Qmake_Qdiv p q). fold P Qq.
  apply Qle_shift_div_l; [exact H0 |].
  assert (E : (P / Qq + k) * Hq == (P * Hq + k * (Hq * Qq)) / Qq)
    by (field; lra).
  rewrite E. apply Qle_shift_div_r; [exact Q0 | exact H].
Qed.

Lemma grid_above (w h : N) (p : Z) (q : positive) :
  pixelDims w h -> (Z.pos q <= 1024)%Z ->
  p # q < ratioOf w h -> (p # q) + gridGap <= ratioOf w h.
Proof.
  intros (Hh & _ & Hh32) Hq Hlt.
  apply ratioOf_gt in Hlt; [| exact Hh].
  apply ratioOf_ge; [exact Hh |].
  assert (Hz : (p * Z.of_N h + 1 <= Z.of_N w * Z.pos q)%Z) by lia.
  rewrite Zle_Qle in Hz.
  rewrite inject_Z_plus, !inject_Z_mult in Hz.
  change (inject_Z 1) with 1 in Hz.
  assert (B1 : inject_Z (Z.of_N h) <= 4294967296).
  { change 4294967296 with (inject_Z 4294967296). rewrite <- Zle_Qle. lia. }
  assert (B2 : inject_Z (Z.pos q) <= 1024).
  { change 1024 with (inject_Z 1024). now rewrite <- Zle_Qle. }
  assert (B3 : 0 < inject_Z (Z.of_N h)).
  { change 0 with (inject_Z 0). rewrite <- Zlt_Qlt. lia. }
  assert (B4 : 0 < inject_Z (Z.pos q)) by reflexivity.
  set (W := inject_Z (Z.of_N w)) in *. set (Hq' := inject_Z (Z.of_N h)) in *.
  set (Qq := inject_Z (Z.pos q)) in *. set (P := inject_Z p) in *.
  assert (B5 : Hq' * Qq <= 4398046511104) by nra.
  unfold gridGap. lra.
Qed.

(** ** Double precision: the band tests on image dimensions *)

Lemma fin_finite (v : Q) :
  Qabs v <= 1267650600228229401496703205376 -> F64.fin v = Finite v.
Proof.
  intros H. unfold F64.fin.
  replace (geb (Qabs v) (F64.pow2 1024)) with false; [reflexivity |].
  symmetry. unfold geb. apply not_true_iff_false. rewrite Qle_bool_iff.
  apply Qlt_not_le. eapply Qle_lt_trans; [exact H |]. vm_compute. reflexivity.
Qed.

(** On pixel dimensions the test the code writes is [bandTest] of their
    ratio: no quotient or difference overflows. *)
Lemma f64_test (w h : N) (t tol : Q) :
  pixelDims w h -> 0 <= t -> t <= 1 ->
  Num.lt (Num.abs (F64.sub (F64.div (NtoQ w) (NtoQ h)) (F64.round t)))
    (F64.round tol)
  = bandTest (ratioOf w h) t tol.
Proof.
  intros Hd Ht0 Ht1.
  pose proof (ratioOf_bound w h Hd) as Hb.
  destruct Hd as (Hh & _ & _).
  pose proof (ratioOf_nonneg w h Hh) as Hr.
  unfold F64.div, Num.div, bandTest.
  replace (Num.eqb (NtoQ h) 0) with false.
  2:{ symmetry. apply not_true_iff_false. intros E. apply Qeq_bool_eq in E.
      pose proof (NtoQ_pos h Hh). lra. }
  fold (ratioOf w h).
  destruct (round_nonneg_bounds (ratioOf w h) Hr) as [R1 R2].
  destruct (round_nonneg_bounds t Ht0) as [T1 T2].
  set (R := F64.round (ratioOf w h)) in *. set (T := F64.round t) in *.
  unfold ulp53, tiny in *.
  rewrite fin_finite by (apply Qabs_Qle_condition; split; lra).
  cbn [F64.sub].
  pose proof (round_error (R - T)) as D.
  assert (Hy : Qabs (R - T) <= 4294967300)
    by (apply Qabs_Qle_condition; split; lra).
  unfold ulp53, tiny in D.
  rewrite fin_finite.
  - reflexivity.
  - pose proof Hy as Hy'. apply Qabs_Qle_condition in Hy'.
    apply Qabs_Qle_condition in D. apply Qabs_Qle_condition.
    split; lra.
Qed.

Lemma bandTest_comp (r r' t tol : Q) :
  r == r' -> bandTest r t tol = bandTest r' t tol.
Proof. intros E. unfold bandTest. now rewrite (round_comp r r' E). Qed.

(** A band [(lo, hi)] around [t]: strictly inside the test succeeds,
    strictly outside it fails, and on an edge rounding decides. *)
Lemma band_cases (w h : N) (t tol : Q) (plo phi : Z) (qlo qhi : positive) :
  pixelDims w h -> 0 <= t -> t <= 1 -> 0 <= tol -> tol <= 1 ->
  plo # qlo == t - tol -> phi # qhi == t + tol ->
  (Z.pos qlo <= 1024)%Z -> (Z.pos qhi <= 1024)%Z ->
  let r := ratioOf w h in
  (plo # qlo < r -> r < phi # qhi -> bandTest r t tol = true) /\
  (r < plo # qlo -> bandTest r t tol = false) /\
  (phi # qhi < r -> bandTest r t tol = false).
Proof.
  intros Hd Ht0 Ht1 Hl0 Hl1 Elo Ehi Hqlo Hqhi r.
  pose proof (ratioOf_nonneg w h (proj1 Hd)) as Hr. fold r in Hr.
  repeat apply conj.
  - intros H1 H2.
    apply (grid_above w h plo qlo Hd Hqlo) in H1.
    apply (grid_below w h phi qhi Hd Hqhi) in H2.
    fold r in H1, H2.
    apply bandTest_inside; try assumption.
    unfold gridGap, margin in *. apply Qabs_Qle_condition. split; lra.
  - intros H1.
    apply (grid_below w h plo qlo Hd Hqlo) in H1. fold r in H1.
    apply bandTest_outside; try assumption.
    unfold gridGap, margin in *. rewrite Qabs_neg by lra. lra.
  - intros H2.
    apply (grid_above w h phi qhi Hd Hqhi) in H2. fold r in H2.
    apply bandTest_outside; try assumption.
    unfold gridGap, margin in *. rewrite Qabs_pos by lra. lra.
Qed.

(** ** Table lookups *)

Lemma minPadBottomTable_lookup (r : RatioType) (s : SpaceType) :
  lookup2 minPadBottomTable (ratio_str r) (space_str s)
  = Some (Spec.minPadBottomFraction r s).
Proof. destruct r, s; reflexivity. Qed.

(** ** C2: the padding algorithm *)

(** The code computes the paddings of the specified algorithm. *)
Lemma getFramePadding_computePadding (width height : Q)
  (r : RatioType) (s : SpaceType) :
  Padding_eq (getFramePadding width height (ratio_str r) (space_str s))
             (Spec.computePadding width height r s).
Proof.
  unfold Padding_eq, getFramePadding, Spec.computePadding, Spec.extraBottom.
  rewrite minPadBottomTable_lookup.
  destruct r, s; cbn; repeat split; reflexivity.
Qed.

(** C2. For every canvas size and every (FrameRatio, SpacingTier),
    [getFramePadding] is the specified algorithm: base fraction 0.04 /
    0.08 / 0.15; minimum bottom fraction 0.10 for (5:7, S) and 0.17
    otherwise; [extraBottom = max(0, minPadBottom - basePadding)];
    [padLeft = padRight = round(shortSide * basePadding)],
    [padBottom = round(shortSide * (basePadding + extraBottom))] with
    [shortSide = min(width, height)]; and [padTop] is that rounded base
    value, times 2.5 for 9:16, times a further 1.8 for (9:16, S), which
    is 4.5 times the pre-multiplier value. *)
Theorem getFramePadding_algorithm (width height : Q)
  (r : RatioType) (s : SpaceType) :
  Padding_eq (getFramePadding width height (ratio_str r) (space_str s))
             (Spec.computePadding width height r s)
  /\ padTop (getFramePadding width height "9:16" "S")
     == 4.5 * Math_round (Math_min width height * 0.04).
Proof.
  split.
  - apply getFramePadding_computePadding.
  - unfold getFramePadding. cbn. ring.
Qed.

(** ** C6: the padding postcondition *)

Lemma is_integer_inject_Z (z : Z) : is_integer (inject_Z z).
Proof. unfold is_integer. now rewrite Qfloor_Z. Qed.

Lemma is_integer_Qeq (x y : Q) : x == y -> is_integer x -> is_integer y.
Proof.
  unfold is_integer. intros E H.
  rewrite <- (Qfloor_comp _ _ E). now rewrite H.
Qed.

Lemma Math_max_0_nonneg (x : Q) : 0 <= Math_max 0 x.
Proof.
  unfold Math_max. destruct (Qle_bool 0 x) eqn:E; [| lra].
  now apply Qle_bool_iff.
Qed.

Lemma basePadding_pos (s : SpaceType) : 0 < Spec.basePadding s.
Proof. destruct s; reflexivity. Qed.

(** On the desktop preview canvas of 9:16 (378 x 672) with spacing L the
    top padding is 142.5, not a whole number. *)
Lemma getFramePadding_postcondition_fails :
  previewCanvas 1920 None Ratio_9_16 = (378, 672) /\
  padTop (getFramePadding 378 672 "9:16" "L") == 142.5 /\
  ~ padding_postcondition (getFramePadding 378 672 "9:16" "L").
Proof.
  split; [reflexivity |]. split; [reflexivity |].
  intros (_ & (_ & H) & _). vm_compute in H. discriminate H.
Qed.

(** The four paddings of a non-negative canvas are non-negative. *)
Lemma getFramePadding_nonneg (width height : Q)
  (r : RatioType) (s : SpaceType) :
  0 <= width -> 0 <= height ->
  let p := getFramePadding width height (ratio_str r) (space_str s) in
  0 <= padTop p /\ 0 <= padLeft p /\ 0 <= padRight p /\ 0 <= padBottom p.
Proof.
  intros Hw Hh p.
  destruct (getFramePadding_computePadding width height r s)
    as (Et & El & Er & Eb).
  fold p in Et, El, Er, Eb.
  cbn [Spec.computePadding padTop padLeft padRight padBottom] in *.
  pose proof (Math_min_nonneg _ _ Hw Hh) as Hs.
  pose proof (basePadding_pos s) as Hb.
  pose proof (Math_max_0_nonneg
                (Spec.minPadBottomFraction r s - Spec.basePadding s)) as He.
  fold (Spec.extraBottom r s) in He.
  set (short := Math_min width height) in *.
  assert (Hpre : 0 <= Math_round (short * Spec.basePadding s)).
  { apply Math_round_nonneg. apply Qmult_le_0_compat; lra. }
  assert (Hbot : 0 <= Math_round
                   (short * (Spec.basePadding s + Spec.extraBottom r s))).
  { apply Math_round_nonneg. apply Qmult_le_0_compat; lra. }
  repeat apply conj; try lra.
  destruct r, s;
    cbn [Spec.basePadding Spec.padTopMultipliers fold_left] in *; lra.
Qed.

(** C6 (amended). For every non-negative canvas size and every
    (FrameRatio, SpacingTier), [padLeft = padRight], all four values are
    non-negative, [padLeft], [padRight] and [padBottom] are integers, and
    [padTop] is an integer for 1:1 and 5:7 while for 9:16 it is a whole
    number of half pixels (the multipliers are applied after rounding). *)
Theorem getFramePadding_postcondition (width height : Q)
  (r : RatioType) (s : SpaceType) :
  0 <= width -> 0 <= height ->
  let p := getFramePadding width height (ratio_str r) (space_str s) in
  padLeft p == padRight p /\
  0 <= padTop p /\ 0 <= padLeft p /\ 0 <= padRight p /\ 0 <= padBottom p /\
  is_integer (padLeft p) /\ is_integer (padRight p) /\
  is_integer (padBottom p) /\
  match r with
  | Ratio_9_16 => is_integer (2 * padTop p)
  | _ => is_integer (padTop p)
  end.
Proof.
  intros Hw Hh p.
  destruct (getFramePadding_nonneg width height r s Hw Hh)
    as (Nt & Nl & Nr & Nb).
  destruct (getFramePadding_computePadding width height r s)
    as (Et & El & Er & Eb).
  fold p in Et, El, Er, Eb, Nt, Nl, Nr, Nb.
  cbn [Spec.computePadding padTop padLeft padRight padBottom] in *.
  set (short := Math_min width height) in *.
  repeat apply conj; try assumption.
  - lra.
  - apply (is_integer_Qeq _ _ (Qeq_sym _ _ El)), Math_round_integer.
  - apply (is_integer_Qeq _ _ (Qeq_sym _ _ Er)), Math_round_integer.
  - apply (is_integer_Qeq _ _ (Qeq_sym _ _ Eb)), Math_round_integer.
  - unfold Math_round in Et.
    set (z := Qfloor (short * Spec.basePadding s + (1 # 2))) in Et.
    destruct r, s;
      cbn [Spec.basePadding Spec.padTopMultipliers fold_left] in Et.
    1-6: apply (is_integer_Qeq _ _ (Qeq_sym _ _ Et)), is_integer_inject_Z.
    + apply (is_integer_Qeq (inject_Z (9 * z))); [| apply is_integer_inject_Z].
      rewrite Et, inject_Z_mult. change (inject_Z 9) with 9. ring.
    + apply (is_integer_Qeq (inject_Z (5 * z))); [| apply is_integer_inject_Z].
      rewrite Et, inject_Z_mult. change (inject_Z 5) with 5. ring.
    + apply (is_integer_Qeq (inject_Z (5 * z))); [| apply is_integer_inject_Z].
      rewrite Et, inject_Z_mult. change (inject_Z 5) with 5. ring.
Qed.

Lemma getFramePadding_postcondition_witness :
  let p := getFramePadding 378 672 "9:16" "L" in
  padLeft p == padRight p /\
  0 <= padTop p /\ 0 <= padLeft p /\ 0 <= padRight p /\ 0 <= padBottom p /\
  is_integer (padLeft p) /\ is_integer (padRight p) /\
  is_integer (padBottom p) /\ is_integer (2 * padTop p).
Proof.
  apply (getFramePadding_postcondition 378 672 Ratio_9_16 Space_L);
    vm_compute; discriminate.
Defined.

(** ** C3: the fixed-distance caption regime *)




(** ** C7 and C10: the aspect-ratio classifier *)

(** One tolerance test of the classifier, in terms of the quotient. *)
Lemma band_test (w h t tol : Q) :
  Num.lt (Num.abs (Num.sub (Num.div w h) t)) tol = true
  <-> ~ h == 0 /\ Qabs (w / h - t) < tol.
Proof.
  unfold Num.div.
  destruct (Num.eqb h 0) eqn:Eh.
  - apply eqb_eq in Eh.
    destruct (Num.eqb w 0); [| destruct (ltb 0 w)]; cbn;
      (split; [discriminate | intros [Hn _]; contradiction]).
  - cbn. rewrite ltb_lt. split.
    + intros H. split; [| exact H].
      intros E. apply eqb_eq in E. congruence.
    + intros [_ H]. exact H.
Qed.

Lemma band_test_false (w h t tol : Q) :
  Num.lt (Num.abs (Num.sub (Num.div w h) t)) tol = false
  <-> ~ (~ h == 0 /\ Qabs (w / h - t) < tol).
Proof. rewrite <- band_test. symmetry. apply not_true_iff_false. Qed.

Lemma isSupportedAspectRatio_band (w h : Q) :
  isSupportedAspectRatio w h = true <-> Spec.withinBand 0.1 w h.
Proof.
  unfold isSupportedAspectRatio, Spec.withinBand, Spec.targetRatios.
  cbv zeta. rewrite !orb_true_iff, !band_test. split.
  - intros [[[Hn H] | [Hn H]] | [Hn H]]; (split; [exact Hn |]).
    + exists (3 / 4). cbn; auto.
    + exists (2 / 3). cbn; auto.
    + exists (4 / 5). cbn; auto.
  - intros [Hn (t & Hin & H)]. cbn in Hin.
    destruct Hin as [<- | [<- | [<- | []]]]; auto.
Qed.


(** The styling classes are tried in the order 3:4, 2:3, 4:5. *)
Lemma getImageAspectRatioType_first_match (w h : Q) :
  ~ h == 0 ->
  match getImageAspectRatioType w h with
  | Aspect_3_4 => Qabs (w / h - 3 / 4) < 0.05
  | Aspect_2_3 => ~ Qabs (w / h - 3 / 4) < 0.05 /\ Qabs (w / h - 2 / 3) < 0.05
  | Aspect_4_5 => ~ Qabs (w / h - 3 / 4) < 0.05 /\
                  ~ Qabs (w / h - 2 / 3) < 0.05 /\ Qabs (w / h - 4 / 5) < 0.05
  | Aspect_other => ~ Qabs (w / h - 3 / 4) < 0.05 /\
                    ~ Qabs (w / h - 2 / 3) < 0.05 /\
                    ~ Qabs (w / h - 4 / 5) < 0.05
  end.
Proof.
  intros Hn. unfold getImageAspectRatioType. cbv zeta.
  destruct (Num.lt (Num.abs (Num.sub (Num.div w h) (3 / 4))) 0.05) eqn:E1;
    [| destruct (Num.lt (Num.abs (Num.sub (Num.div w h) (2 / 3))) 0.05) eqn:E2;
       [| destruct (Num.lt (Num.abs (Num.sub (Num.div w h) (4 / 5))) 0.05)
            eqn:E3 ]];
    repeat match goal with
           | H : _ = true |- _ => apply band_test in H
           | H : _ = false |- _ => apply band_test_false in H
           end; tauto.
Qed.

(** The three acceptance bands overlap: together they are the open
    interval from 17/30 to 9/10. *)
Lemma withinBand_interval (w h : Q) :
  Spec.withinBand 0.1 w h <-> ~ h == 0 /\ 17 # 30 < w / h /\ w / h < 9 # 10.
Proof.
  unfold Spec.withinBand, Spec.targetRatios. split.
  - intros [Hn (t & Hin & Hlt)]. split; [exact Hn |].
    apply Qabs_Qlt_condition in Hlt.
    set (r := w / h) in *. clearbody r.
    destruct Hin as [<- | [<- | [<- | []]]]; fractions; lra.
  - intros (Hn & Hlo & Hhi). split; [exact Hn |].
    set (r := w / h) in *. clearbody r.
    destruct (Qlt_le_dec r (3 # 4)) as [Hs | Hb].
    + exists (2 / 3). split; [cbn; auto |].
      apply Qabs_Qlt_condition. fractions. lra.
    + exists (4 / 5). split; [cbn; auto |].
      apply Qabs_Qlt_condition. fractions. lra.
Qed.

(** ** Band tests on pixel dimensions *)

(** A band test on pixel dimensions, with the outcome on each edge read
    off the rounded constants. *)
Lemma band_iff (w h : N) (t tol : Q) (plo phi : Z) (qlo qhi : positive)
  (elo ehi : bool) :
  pixelDims w h -> 0 <= t -> t <= 1 -> 0 < tol -> tol <= 1 ->
  plo # qlo == t - tol -> phi # qhi == t + tol ->
  (Z.pos qlo <= 1024)%Z -> (Z.pos qhi <= 1024)%Z ->
  bandTest (plo # qlo) t tol = elo -> bandTest (phi # qhi) t tol = ehi ->
  bandTest (ratioOf w h) t tol = true
  <-> (if elo then plo # qlo <= ratioOf w h else plo # qlo < ratioOf w h) /\
      (if ehi then ratioOf w h <= phi # qhi else ratioOf w h < phi # qhi).
Proof.
  intros Hd Ht0 Ht1 Hl0 Hl1 Elo Ehi Hqlo Hqhi Tlo Thi.
  destruct (band_cases w h t tol plo phi qlo qhi Hd Ht0 Ht1
              (Qlt_le_weak _ _ Hl0) Hl1 Elo Ehi Hqlo Hqhi) as (Cin & Clo & Chi).
  cbv zeta in *.
  set (r := ratioOf w h) in *.
  assert (Hlh : plo # qlo < phi # qhi) by (rewrite Elo, Ehi; lra).
  clear Elo Ehi Hqlo Hqhi.
  revert Cin Clo Chi Hlh Tlo Thi.
  generalize (plo # qlo) (phi # qhi). intros lo hi Cin Clo Chi Hlh Tlo Thi.
  clearbody r.
  destruct (Q_dec r lo) as [[Hlt | Hgt] | Heq].
  - rewrite (Clo Hlt). split; [discriminate |].
    intros [H1 _]. exfalso. destruct elo; cbv iota in H1; lra.
  - destruct (Q_dec r hi) as [[Hlt2 | Hgt2] | Heq2].
    + rewrite (Cin Hgt Hlt2). split; [| reflexivity].
      intros _. split; [destruct elo | destruct ehi]; cbv iota; lra.
    + rewrite (Chi Hgt2). split; [discriminate |].
      intros [_ H2]. exfalso. destruct ehi; cbv iota in H2; lra.
    + rewrite (bandTest_comp r hi t tol Heq2), Thi.
      destruct ehi.
      * split; [| reflexivity]. intros _.
        split; [destruct elo |]; cbv iota; lra.
      * split; [discriminate |]. intros [_ H2]. exfalso. cbv iota in H2. lra.
  - rewrite (bandTest_comp r lo t tol Heq), Tlo.
    destruct elo.
    + split; [| reflexivity]. intros _.
      split; [| destruct ehi]; cbv iota; lra.
    + split; [discriminate |]. intros [H1 _]. exfalso. cbv iota in H1. lra.
Qed.

Ltac band_side := first [reflexivity | discriminate | lia
                         | (vm_compute; reflexivity)
                         | (vm_compute; discriminate)].

(** The three acceptance bands (tolerance 0.1). *)
Lemma accept34 (w h : N) :
  pixelDims w h ->
  bandTest (ratioOf w h) (3 / 4) 0.1 = true
  <-> 13 # 20 <= ratioOf w h /\ ratioOf w h <= 17 # 20.
Proof.
  intros Hd.
  apply (band_iff w h (3 / 4) 0.1 13 17 20 20 true true Hd); band_side.
Qed.

Lemma accept23 (w h : N) :
  pixelDims w h ->
  bandTest (ratioOf w h) (2 / 3) 0.1 = true
  <-> 17 # 30 <= ratioOf w h /\ ratioOf w h < 23 # 30.
Proof.
  intros Hd.
  apply (band_iff w h (2 / 3) 0.1 17 23 30 30 true false Hd); band_side.
Qed.

Lemma accept45 (w h : N) :
  pixelDims w h ->
  bandTest (ratioOf w h) (4 / 5) 0.1 = true
  <-> 7 # 10 < ratioOf w h /\ ratioOf w h <= 9 # 10.
Proof.
  intros Hd.
  apply (band_iff w h (4 / 5) 0.1 7 9 10 10 false true Hd); band_side.
Qed.

(** The styling bands (tolerance 0.05) and the 5:7 band (0.01). *)
Lemma style34 (w h : N) :
  pixelDims w h ->
  bandTest (ratioOf w h) (3 / 4) 0.05 = true
  <-> 7 # 10 < ratioOf w h /\ ratioOf w h < 4 # 5.
Proof.
  intros Hd.
  apply (band_iff w h (3 / 4) 0.05 7 4 10 5 false false Hd); band_side.
Qed.

Lemma style23 (w h : N) :
  pixelDims w h ->
  bandTest (ratioOf w h) (2 / 3) 0.05 = true
  <-> 37 # 60 <= ratioOf w h /\ ratioOf w h < 43 # 60.
Proof.
  intros Hd.
  apply (band_iff w h (2 / 3) 0.05 37 43 60 60 true false Hd); band_side.
Qed.

Lemma style45 (w h : N) :
  pixelDims w h ->
  bandTest (ratioOf w h) (4 / 5) 0.05 = true
  <-> 3 # 4 < ratioOf w h /\ ratioOf w h <= 17 # 20.
Proof.
  intros Hd.
  apply (band_iff w h (4 / 5) 0.05 3 17 4 20 false true Hd); band_side.
Qed.

Lemma style57 (w h : N) :
  pixelDims w h ->
  bandTest (ratioOf w h) (5 / 7) 0.01 = true
  <-> 493 # 700 < ratioOf w h /\ ratioOf w h < 507 # 700.
Proof.
  intros Hd.
  apply (band_iff w h (5 / 7) 0.01 493 507 700 700 false false Hd); band_side.
Qed.

(** ** The classifier on pixel dimensions *)

Lemma f64_supported_tests (w h : N) :
  pixelDims w h ->
  F64.isSupportedAspectRatio (NtoQ w) (NtoQ h)
  = bandTest (ratioOf w h) (3 / 4) 0.1
    || bandTest (ratioOf w h) (2 / 3) 0.1
    || bandTest (ratioOf w h) (4 / 5) 0.1.
Proof.
  intros Hd. unfold F64.isSupportedAspectRatio. cbv zeta.
  now rewrite !(f64_test w h _ _ Hd) by discriminate.
Qed.

Lemma f64_type_tests (w h : N) :
  pixelDims w h ->
  F64.getImageAspectRatioType (NtoQ w) (NtoQ h)
  = if bandTest (ratioOf w h) (3 / 4) 0.05 then Aspect_3_4
    else if bandTest (ratioOf w h) (2 / 3) 0.05 then Aspect_2_3
    else if bandTest (ratioOf w h) (4 / 5) 0.05 then Aspect_4_5
    else Aspect_other.
Proof.
  intros Hd. unfold F64.getImageAspectRatioType. cbv zeta.
  now rewrite !(f64_test w h _ _ Hd) by discriminate.
Qed.

(** With a zero height the quotient is an infinity or NaN and every test
    of the classifier fails. *)
Lemma f64_zero_height (w : Q) (t tol : Q) :
  Num.lt (Num.abs (F64.sub (F64.div w 0) t)) tol = false.
Proof.
  unfold F64.div, Num.div. change (Num.eqb 0 0) with true. cbv iota.
  destruct (Num.eqb w 0); [reflexivity |].
  destruct (ltb 0 w); reflexivity.
Qed.

Lemma ratioOf_zero_height (w : N) : ratioOf w 0 == 0.
Proof.
  unfold ratioOf. change (NtoQ 0) with 0. unfold Qdiv.
  change (/ 0) with 0. ring.
Qed.

(** In doubles the upload check accepts the closed interval from 17/30
    to 9/10. *)
Lemma f64_accept_interval (w h : N) :
  (w <= 4294967296)%N -> (h <= 4294967296)%N ->
  F64.isSupportedAspectRatio (NtoQ w) (NtoQ h) = true
  <-> (0 < h)%N /\ 17 # 30 <= ratioOf w h /\ ratioOf w h <= 9 # 10.
Proof.
  intros Hw Hh.
  destruct (N.eq_dec h 0%N) as [-> | Hn].
  - unfold F64.isSupportedAspectRatio. cbv zeta.
    change (NtoQ 0) with 0. rewrite !f64_zero_height.
    split; [discriminate | intros [H _]; lia].
  - assert (Hd : pixelDims w h) by (unfold pixelDims; lia).
    rewrite (f64_supported_tests w h Hd), !orb_true_iff.
    rewrite (accept34 w h Hd), (accept23 w h Hd), (accept45 w h Hd).
    set (r := ratioOf w h). clearbody r.
    split.
    + intros H. split; [lia |]. lra.
    + intros (_ & H1 & H2).
      destruct (Qlt_le_dec r (23 # 30)) as [Ha | Ha]; [left; right; lra |].
      destruct (Qlt_le_dec (17 # 20) r) as [Hb | Hb]; [right; lra |].
      left; left; lra.
Qed.

(** In doubles the styling classes are three adjacent intervals. *)
Lemma f64_type_intervals (w h : N) :
  pixelDims w h ->
  let r := ratioOf w h in
  match F64.getImageAspectRatioType (NtoQ w) (NtoQ h) with
  | Aspect_3_4 => 7 # 10 < r /\ r < 4 # 5
  | Aspect_2_3 => 37 # 60 <= r /\ r <= 7 # 10
  | Aspect_4_5 => 4 # 5 <= r /\ r <= 17 # 20
  | Aspect_other => r < 37 # 60 \/ 17 # 20 < r
  end.
Proof.
  intros Hd r. rewrite (f64_type_tests w h Hd). fold r.
  pose proof (style34 w h Hd) as S34. pose proof (style23 w h Hd) as S23.
  pose proof (style45 w h Hd) as S45. fold r in S34, S23, S45.
  clearbody r.
  destruct (bandTest r (3 / 4) 0.05) eqn:E1.
  { now apply S34. }
  assert (N34 : ~ (7 # 10 < r /\ r < 4 # 5)).
  { intros H. apply S34 in H. congruence. }
  destruct (bandTest r (2 / 3) 0.05) eqn:E2.
  { apply proj1 in S23. specialize (S23 eq_refl).
    split; [lra |].
    destruct (Qlt_le_dec (7 # 10) r) as [H | H]; [| exact H].
    exfalso. apply N34. lra. }
  assert (N23 : ~ (37 # 60 <= r /\ r < 43 # 60)).
  { intros H. apply S23 in H. congruence. }
  destruct (bandTest r (4 / 5) 0.05) eqn:E3.
  { apply proj1 in S45. specialize (S45 eq_refl).
    split; [| lra].
    destruct (Qlt_le_dec r (4 # 5)) as [H | H]; [| exact H].
    exfalso. apply N34. lra. }
  assert (N45 : ~ (3 # 4 < r /\ r <= 17 # 20)).
  { intros H. apply S45 in H. congruence. }
  destruct (Qlt_le_dec r (37 # 60)) as [H | H]; [now left |].
  destruct (Qlt_le_dec (17 # 20) r) as [H' | H']; [now right |].
  exfalso.
  destruct (Qlt_le_dec r (43 # 60)) as [Ha | Ha]; [apply N23; lra |].
  apply N45. lra.
Qed.

(** The union of the three exact styling bands. *)
Lemma withinBand_styling_interval (w h : Q) :
  Spec.withinBand 0.05 w h <-> ~ h == 0 /\ 37 # 60 < w / h /\ w / h < 17 # 20.
Proof.
  unfold Spec.withinBand, Spec.targetRatios. split.
  - intros [Hn (t & Hin & Hlt)]. split; [exact Hn |].
    apply Qabs_Qlt_condition in Hlt.
    set (r := w / h) in *. clearbody r.
    destruct Hin as [<- | [<- | [<- | []]]]; fractions; lra.
  - intros (Hn & Hlo & Hhi). split; [exact Hn |].
    set (r := w / h) in *. clearbody r.
    destruct (Qlt_le_dec r (7 # 10)) as [Hs | Hb].
    + exists (2 / 3). split; [cbn; auto |].
      apply Qabs_Qlt_condition. fractions. lra.
    + destruct (Qlt_le_dec r (4 # 5)) as [Hs' | Hb'].
      * destruct (Qlt_le_dec (7 # 10) r) as [Hc | Hc].
        -- exists (3 / 4). split; [cbn; auto |].
           apply Qabs_Qlt_condition. fractions. lra.
        -- exists (2 / 3). split; [cbn; auto |].
           apply Qabs_Qlt_condition. fractions. lra.
      * exists (4 / 5). split; [cbn; auto |].
        apply Qabs_Qlt_condition. fractions. lra.
Qed.

Lemma NtoQ_nonzero (h : N) : ~ NtoQ h == 0 <-> (0 < h)%N.
Proof. rewrite NtoQ_zero. lia. Qed.

(** The guard of the offset resolver on pixel dimensions. *)
Lemma f64_imageRatioNear (w h : N) (t tol : Q) :
  pixelDims w h -> 0 <= t -> t <= 1 ->
  F64.imageRatioNear (Some (NtoQ w)) (Some (NtoQ h)) (F64.round t)
    (F64.round tol)
  = negb (w =? 0)%N && bandTest (ratioOf w h) t tol.
Proof.
  intros Hd Ht0 Ht1. unfold F64.imageRatioNear.
  rewrite (f64_test w h t tol Hd Ht0 Ht1).
  assert (Eh : truthy (Some (NtoQ h)) = true).
  { apply truthy_pos, NtoQ_pos, Hd. }
  rewrite Eh, andb_true_r. f_equal.
  unfold truthy. f_equal.
  destruct (N.eqb_spec w 0%N) as [-> | Hn]; [reflexivity |].
  apply not_true_iff_false. intros E. apply eqb_eq, NtoQ_zero in E. lia.
Qed.

Lemma exact_band (r t tol lo hi : Q) :
  lo == t - tol -> hi == t + tol ->
  Qabs (r - t) < tol <-> lo < r /\ r < hi.
Proof.
  intros El Eh. split.
  - intros H. apply Qabs_Qlt_condition in H. lra.
  - intros H. apply Qabs_Qlt_condition. lra.
Qed.

(** On a band edge the code decides by rounding: 900 x 1000 (ratio 9/10)
    and 1700 x 3000 (ratio 17/30) are accepted although no target is
    within 0.1 of the ratio, and 850 x 1000 (ratio 17/20) is classed 4:5
    although no target is within 0.05. *)
Lemma band_edge_accepted :
  F64.isSupportedAspectRatio 900 1000 = true /\
  ~ Spec.withinBand 0.1 900 1000 /\
  F64.isSupportedAspectRatio 1700 3000 = true /\
  ~ Spec.withinBand 0.1 1700 3000 /\
  F64.getImageAspectRatioType 850 1000 = Aspect_4_5 /\
  ~ Spec.withinBand 0.05 850 1000.
Proof.
  split; [vm_compute; reflexivity |].
  split.
  { intros H. apply withinBand_interval in H as (_ & _ & H).
    vm_compute in H. discriminate H. }
  split; [vm_compute; reflexivity |].
  split.
  { intros H. apply withinBand_interval in H as (_ & H & _).
    vm_compute in H. discriminate H. }
  split; [vm_compute; reflexivity |].
  intros H. apply withinBand_styling_interval in H as (_ & _ & H).
  vm_compute in H. discriminate H.
Qed.

Lemma ratioOf_zero_width (h : N) : ratioOf 0 h == 0.
Proof. unfold ratioOf. change (NtoQ 0) with 0. unfold Qdiv. ring. Qed.

Lemma classifier_examples :
  (F64.isSupportedAspectRatio 3000 4000 = true /\
   F64.getImageAspectRatioType 3000 4000 = Aspect_3_4) /\
  F64.isSupportedAspectRatio 1000 1000 = false /\
  (F64.isSupportedAspectRatio 600 1000 = true /\
   F64.getImageAspectRatioType 600 1000 = Aspect_other).
Proof. vm_compute. repeat split. Qed.

(** Away from the two edge ratios the exact reading of the upload check
    is the check in doubles. *)
Lemma isSupportedAspectRatio_exact_agrees (w h : N) :
  (w <= 4294967296)%N -> (h <= 4294967296)%N ->
  ~ ratioOf w h == 17 # 30 -> ~ ratioOf w h == 9 # 10 ->
  F64.isSupportedAspectRatio (NtoQ w) (NtoQ h)
  = isSupportedAspectRatio (NtoQ w) (NtoQ h).
Proof.
  intros Hw Hh N1 N2.
  assert (Hiff : F64.isSupportedAspectRatio (NtoQ w) (NtoQ h) = true
                 <-> isSupportedAspectRatio (NtoQ w) (NtoQ h) = true).
  { rewrite (f64_accept_interval w h Hw Hh), isSupportedAspectRatio_band,
      withinBand_interval, NtoQ_nonzero.
    fold (ratioOf w h). set (r := ratioOf w h) in *. clearbody r.
    split.
    - intros (Hp & H1 & H2). split; [exact Hp |].
      destruct (Q_dec r (17 # 30)) as [[H | H] | H];
        [lra | | contradiction].
      destruct (Q_dec r (9 # 10)) as [[H' | H'] | H'];
        [split; assumption | lra | contradiction].
    - intros (Hp & H1 & H2). split; [exact Hp |]. split; lra. }
  destruct (F64.isSupportedAspectRatio (NtoQ w) (NtoQ h)),
    (isSupportedAspectRatio (NtoQ w) (NtoQ h)); intuition congruence.
Qed.

(** In doubles too, a zero width or a zero height never passes the
    upload check. *)
Lemma f64_zero_dimension_unsupported (w h : N) :
  (w <= 4294967296)%N -> (h <= 4294967296)%N ->
  w = 0%N \/ h = 0%N ->
  F64.isSupportedAspectRatio (NtoQ w) (NtoQ h) = false.
Proof.
  intros Hw Hh Hz. apply not_true_iff_false. intros H.
  apply (f64_accept_interval w h Hw Hh) in H as (Hp & H1 & _).
  destruct Hz as [-> | ->]; [| lia].
  rewrite ratioOf_zero_width in H1. lra.
Qed.

(** C7 (amended). For image dimensions (whole numbers up to [2^32]) the
    upload check, evaluated in double precision as the code evaluates
    it, succeeds iff [|width/height - t| < 0.1] for some target [t] in
    {3/4, 2/3, 4/5} or the ratio is exactly 17/30 or 9/10, the two outer
    edges of the bands; the styling classification gives a class iff
    [|width/height - t| < 0.05] for some target or the ratio is exactly
    37/60 or 17/20, and the class 3:4 iff [|width/height - 3/4| < 0.05];
    the tests written inline in the offset resolver (2:3 and 4:5) and in
    the compositor (3:4 and 4:5) are these tests; 3000 x 4000 is
    accepted and classed 3:4, a square image is not accepted, and
    600 x 1000 is accepted without a class. *)
Theorem classifier_bands (w h : N) :
  (w <= 4294967296)%N -> (h <= 4294967296)%N ->
  let r := ratioOf w h in
  (F64.isSupportedAspectRatio (NtoQ w) (NtoQ h) = true
   <-> Spec.withinBand 0.1 (NtoQ w) (NtoQ h)
       \/ ((0 < h)%N /\ (r == 17 # 30 \/ r == 9 # 10))) /\
  (F64.getImageAspectRatioType (NtoQ w) (NtoQ h) <> Aspect_other
   <-> Spec.withinBand 0.05 (NtoQ w) (NtoQ h)
       \/ ((0 < h)%N /\ (r == 37 # 60 \/ r == 17 # 20))) /\
  (F64.getImageAspectRatioType (NtoQ w) (NtoQ h) = Aspect_3_4
   <-> (0 < h)%N /\ Qabs (r - 3 / 4) < 0.05) /\
  (F64.imageRatioNear (Some (NtoQ w)) (Some (NtoQ h)) (F64.round (2 / 3))
     (F64.round 0.05) = true
   <-> (0 < h)%N /\ (Qabs (r - 2 / 3) < 0.05 \/ r == 37 # 60)) /\
  (F64.imageRatioNear (Some (NtoQ w)) (Some (NtoQ h)) (F64.round (4 / 5))
     (F64.round 0.05) = true
   <-> (0 < h)%N /\ (Qabs (r - 4 / 5) < 0.05 \/ r == 17 # 20)) /\
  (is34Image (mkImage w h 0) = true
   <-> (0 < h)%N /\ Qabs (r - 3 / 4) < 0.05) /\
  (is45Image (mkImage w h 0) = true
   <-> (0 < h)%N /\ (Qabs (r - 4 / 5) < 0.05 \/ r == 17 # 20)) /\
  (F64.isSupportedAspectRatio 3000 4000 = true /\
   F64.getImageAspectRatioType 3000 4000 = Aspect_3_4) /\
  F64.isSupportedAspectRatio 1000 1000 = false /\
  (F64.isSupportedAspectRatio 600 1000 = true /\
   F64.getImageAspectRatioType 600 1000 = Aspect_other).
Proof.
  intros Hw Hh r.
  assert (Ex34 : Qabs (r - 3 / 4) < 0.05 <-> 7 # 10 < r /\ r < 4 # 5)
    by (apply exact_band; vm_compute; reflexivity).
  assert (Ex23 : Qabs (r - 2 / 3) < 0.05 <-> 37 # 60 < r /\ r < 43 # 60)
    by (apply exact_band; vm_compute; reflexivity).
  assert (Ex45 : Qabs (r - 4 / 5) < 0.05 <-> 3 # 4 < r /\ r < 17 # 20)
    by (apply exact_band; vm_compute; reflexivity).
  split; [| split; [| split; [| split; [| split; [| split; [| split;
    [| exact classifier_examples]]]]]]].
  all: destruct (N.eq_dec h 0%N) as [E0 | Hn].
  all: try (subst h;
            assert (R0 : r == 0) by apply ratioOf_zero_height;
            assert (W1 : forall tol, ~ Spec.withinBand tol (NtoQ w) (NtoQ 0))
              by (intros tol [Hne _]; apply Hne; reflexivity);
            unfold F64.isSupportedAspectRatio, F64.getImageAspectRatioType,
              F64.imageRatioNear, is34Image, is45Image;
            cbn [img_width img_height]; cbv zeta;
            change (NtoQ 0) with 0; rewrite ?f64_zero_height;
            change (truthy (Some 0)) with false; rewrite ?andb_false_r;
            cbn [orb andb];
            split;
            [ first [discriminate | congruence]
            | intros H; exfalso;
              first [ destruct H as [H | [H _]]; [now apply W1 in H | lia]
                    | destruct H as [H _]; lia ] ]).
  all: assert (Hd : pixelDims w h) by (unfold pixelDims; lia).
  all: assert (Hpos : (0 < h)%N) by lia.
  all: assert (Hnz : ~ NtoQ h == 0) by now apply NtoQ_nonzero.
  all: pose proof (f64_type_intervals w h Hd) as Typ; cbv zeta in Typ.
  all: pose proof (style34 w h Hd) as S34; pose proof (style23 w h Hd) as S23;
    pose proof (style45 w h Hd) as S45.
  all: fold r in Typ, S34, S23, S45.
  - (* acceptance *)
    pose proof (f64_accept_interval w h Hw Hh) as Acc.
    pose proof (withinBand_interval (NtoQ w) (NtoQ h)) as W10.
    fold (ratioOf w h) in W10. fold r in Acc, W10.
    rewrite Acc, W10. split.
    + intros (_ & H1 & H2).
      destruct (Q_dec r (17 # 30)) as [[H | H] | H]; [lra | |].
      2:{ right. split; [exact Hpos |]. left. exact H. }
      destruct (Q_dec r (9 # 10)) as [[H' | H'] | H']; [| lra |].
      2:{ right. split; [exact Hpos |]. right. exact H'. }
      left. split; [exact Hnz |]. split; assumption.
    + intros [(_ & H1 & H2) | (_ & [H | H])];
        (split; [exact Hpos |]); rewrite ?H; lra.
  - (* a class at all *)
    pose proof (withinBand_styling_interval (NtoQ w) (NtoQ h)) as W05.
    fold (ratioOf w h) in W05. fold r in W05. rewrite W05.
    destruct (F64.getImageAspectRatioType (NtoQ w) (NtoQ h)).
    + split; [| discriminate]. intros _. left. split; [exact Hnz | lra].
    + split; [| discriminate]. intros _.
      destruct Typ as [T1 T2].
      destruct (Q_dec r (37 # 60)) as [[H | H] | H]; [lra | |].
      2:{ right. split; [exact Hpos |]. left. exact H. }
      left. split; [exact Hnz | lra].
    + split; [| discriminate]. intros _.
      destruct Typ as [T1 T2].
      destruct (Q_dec r (17 # 20)) as [[H | H] | H]; [| lra |].
      2:{ right. split; [exact Hpos |]. right. exact H. }
      left. split; [exact Hnz | lra].
    + split; [congruence |]. intros H. exfalso.
      destruct H as [(_ & H1 & H2) | (_ & [H | H])];
        destruct Typ as [T | T]; rewrite ?H in T; lra.
  - (* the class 3:4 *)
    rewrite Ex34.
    destruct (F64.getImageAspectRatioType (NtoQ w) (NtoQ h)).
    + split; [intros _; split; [exact Hpos | exact Typ] | reflexivity].
    + split; [discriminate |]. intros (_ & H). lra.
    + split; [discriminate |]. intros (_ & H). lra.
    + split; [discriminate |]. intros (_ & H). destruct Typ; lra.
  - (* the 2:3 guard of the offset resolver *)
    rewrite (f64_imageRatioNear w h (2 / 3) 0.05 Hd) by discriminate.
    fold r. rewrite andb_true_iff, negb_true_iff, N.eqb_neq, S23, Ex23.
    split.
    + intros (Hw0 & H1 & H2). split; [exact Hpos |].
      destruct (Q_dec r (37 # 60)) as [[H | H] | H]; [lra | |].
      2:{ right. exact H. }
      left. lra.
    + intros (_ & H). split; [| destruct H as [H | H]; [| rewrite H]; lra].
      intros ->. pose proof (ratioOf_zero_width h) as R0. fold r in R0.
      destruct H as [H | H]; rewrite R0 in H; [lra | discriminate H].
  - (* the 4:5 guard of the offset resolver *)
    rewrite (f64_imageRatioNear w h (4 / 5) 0.05 Hd) by discriminate.
    fold r. rewrite andb_true_iff, negb_true_iff, N.eqb_neq, S45, Ex45.
    split.
    + intros (Hw0 & H1 & H2). split; [exact Hpos |].
      destruct (Q_dec r (17 # 20)) as [[H | H] | H]; [| lra |].
      2:{ right. exact H. }
      left. lra.
    + intros (_ & H). split; [| destruct H as [H | H]; [| rewrite H]; lra].
      intros ->. pose proof (ratioOf_zero_width h) as R0. fold r in R0.
      destruct H as [H | H]; rewrite R0 in H; [lra | discriminate H].
  - (* is34Image *)
    unfold is34Image. cbn [img_width img_height].
    rewrite (f64_test w h (3 / 4) 0.05 Hd) by discriminate.
    fold r. rewrite S34, Ex34.
    split; [intros H; split; [exact Hpos | exact H] | intros [_ H]; exact H].
  - (* is45Image *)
    unfold is45Image. cbn [img_width img_height].
    rewrite (f64_test w h (4 / 5) 0.05 Hd) by discriminate.
    fold r. rewrite S45, Ex45. split.
    + intros (H1 & H2). split; [exact Hpos |].
      destruct (Q_dec r (17 # 20)) as [[H | H] | H]; [| lra |].
      2:{ right. exact H. }
      left. lra.
    + intros (_ & [H | H]); [lra | rewrite H; lra].
Qed.

Lemma classifier_bands_witness :
  F64.isSupportedAspectRatio (NtoQ 900) (NtoQ 1000) = true /\
  F64.getImageAspectRatioType (NtoQ 3000) (NtoQ 4000) = Aspect_3_4.
Proof.
  split.
  - apply (proj1 (classifier_bands 900 1000 ltac:(lia) ltac:(lia))).
    right. split; [reflexivity |]. right. reflexivity.
  - apply (proj1 (proj2 (proj2 (classifier_bands 3000 4000 ltac:(lia)
                                   ltac:(lia))))).
    split; reflexivity.
Defined.

(** A zero width or a zero height never passes the upload check. *)
Lemma zero_dimension_unsupported (w h : Q) :
  w == 0 \/ h == 0 -> isSupportedAspectRatio w h = false.
Proof.
  intros Hz. apply not_true_iff_false. intros Hs.
  apply isSupportedAspectRatio_band in Hs as [Hn (t & Hin & Hlt)].
  destruct Hz as [Hw | Hh]; [| contradiction].
  assert (E : w / h == 0) by (unfold Qdiv; rewrite Hw; ring).
  apply Qabs_Qlt_condition in Hlt. rewrite E in Hlt.
  clear E Hn Hw.
  destruct Hin as [<- | [<- | [<- | []]]]; fractions; lra.
Qed.

(** An image that passes the upload check has positive dimensions. *)
Lemma supported_image_positive (img : Image) :
  isSupportedAspectRatio (NtoQ (img_width img)) (NtoQ (img_height img)) = true ->
  (0 < img_width img)%N /\ (0 < img_height img)%N.
Proof.
  intros Hs.
  destruct (N.eq_dec (img_width img) 0%N) as [Ew | Nw].
  - rewrite zero_dimension_unsupported in Hs; [discriminate |].
    left. now apply NtoQ_zero.
  - destruct (N.eq_dec (img_height img) 0%N) as [Eh | Nh].
    + rewrite zero_dimension_unsupported in Hs; [discriminate |].
      right. now apply NtoQ_zero.
    + lia.
Qed.

(** Every upload keeps that invariant: rendering only ever sees an image
    that passed the upload check. *)
Lemma handleFilesUpload_stored_image_positive (B : Browser) (st : State)
  (files : list Image) :
  stored_image_positive st ->
  stored_image_positive (handleFilesUpload B st files).
Proof.
  intros Inv. destruct files as [| file rest]; [exact Inv |].
  unfold handleFilesUpload, img_onload.
  destruct (isSupportedAspectRatio _ _) eqn:Hs; cbn.
  - unfold stored_image_positive; cbn. now apply supported_image_positive.
  - exact Inv.
Qed.

(** A rejected upload changes the error flag and nothing else. *)
Lemma img_onload_rejected (B : Browser) (st : State) (img : Image) :
  isSupportedAspectRatio (NtoQ (img_width img)) (NtoQ (img_height img)) = false ->
  img_onload B st img
  = {| image := image st; space := space st; ratio := ratio st;
       color := color st; autoColor := autoColor st;
       snapPattern := snapPattern st;
       retrobluePattern := retrobluePattern st;
       autoPattern := autoPattern st; exifData := exifData st;
       captionLines := captionLines st;
       showErrorPopup := true;
       isFilmScannerImage := isFilmScannerImage st;
       manualCamera := manualCamera st; manualPlace := manualPlace st;
       forceMobile := forceMobile st |}.
Proof. intros Hs. unfold img_onload. now rewrite Hs. Qed.


(** C10. For every image with a zero width or a zero height the computed
    ratio is 0, Infinity or NaN, [isSupportedAspectRatio] returns false,
    and the upload handler leaves the stored image as it was, so that the
    renders (padding, placement, caption) are those of the previous
    state and never see the degenerate image. *)
Theorem degenerate_image_rejected (B : Browser) (st : State) (img : Image)
  (files : list Image) :
  img_width img = 0%N \/ img_height img = 0%N ->
  let aspectRatio := Num.div (NtoQ (img_width img)) (NtoQ (img_height img)) in
  (aspectRatio = NaN \/ aspectRatio = PosInfinity \/
   exists q, aspectRatio = Finite q /\ q == 0) /\
  isSupportedAspectRatio (NtoQ (img_width img)) (NtoQ (img_height img)) = false /\
  image (handleFilesUpload B st (img :: files)) = image st /\
  drawCanvas B (handleFilesUpload B st (img :: files)) = drawCanvas B st /\
  printCanvas B (handleFilesUpload B st (img :: files)) = printCanvas B st.
Proof.
  intros Hz aspectRatio.
  assert (Hs : isSupportedAspectRatio (NtoQ (img_width img))
                 (NtoQ (img_height img)) = false).
  { apply zero_dimension_unsupported.
    destruct Hz as [E | E]; [left | right]; now apply NtoQ_zero. }
  split; [| split; [exact Hs |]].
  - subst aspectRatio. unfold Num.div.
    destruct (Num.eqb (NtoQ (img_height img)) 0) eqn:Eh.
    + destruct (Num.eqb (NtoQ (img_width img)) 0) eqn:Ew; [now left |].
      right; left.
      assert (Hp : 0 < NtoQ (img_width img)).
      { apply NtoQ_pos.
        destruct (N.eq_dec (img_width img) 0%N) as [E0 | N0]; [| lia].
        apply NtoQ_zero in E0. apply eqb_eq in E0. congruence. }
      apply ltb_lt in Hp. now rewrite Hp.
    + right; right. eexists. split; [reflexivity |].
      destruct Hz as [E | E].
      * rewrite E. unfold Qdiv. change (NtoQ 0) with 0. ring.
      * apply NtoQ_zero in E. apply eqb_eq in E. congruence.
  - cbn [handleFilesUpload].
    rewrite (img_onload_rejected B st img Hs). cbn [image].
    split; [reflexivity |]. split; reflexivity.
Qed.

Lemma degenerate_image_rejected_witness :
  let img := mkImage 0 4000 7 in
  let st := handleFilesUpload desktopBrowser initialState [mkImage 3000 4000 1] in
  isSupportedAspectRatio (NtoQ (img_width img)) (NtoQ (img_height img)) = false /\
  image (handleFilesUpload desktopBrowser st [img]) = Some (mkImage 3000 4000 1).
Proof.
  pose proof (degenerate_image_rejected desktopBrowser
                (handleFilesUpload desktopBrowser initialState
                   [mkImage 3000 4000 1])
                (mkImage 0 4000 7) [] (or_introl eq_refl)) as H.
  cbv zeta in H. destruct H as (_ & Hs & Hi & _).
  split; [exact Hs | exact Hi].
Defined.

(** ** C8: a rejected upload *)



(** ** C9: caption colour under the second Snap colour *)



Lemma drawTextWithLetterSpacing_y (measure : Font -> string -> Q)
  (font : Font) (fillStyle : string) (alpha : Q) (text : string)
  (x y spacing : Q) :
  Forall (fun op => textY op = Some y)
    (drawTextWithLetterSpacing measure font fillStyle alpha text x y spacing).
Proof.
  revert x. induction text as [| c rest IH]; intros x; cbn.
  - constructor.
  - constructor; [reflexivity | apply IH].
Qed.

(** The first line is drawn at the anchor [captionYStart], the second
    one font height and one line gap below it. *)
Lemma drawCaption_anchor (measure : Font -> string -> Q)
  (width height padBottom top imgH : Q) (lines : string * string)
  (frameColor space ratio : string) (imageWidth imageHeight : option Q) :
  let yStart := captionYStart width height padBottom top imgH space ratio
                  imageWidth imageHeight in
  Forall (fun op =>
            textY op = Some yStart \/
            textY op = Some (yStart + baseFontPx1 width height ratio
                             + lineGap width height ratio))
    (drawCaption measure width height padBottom top imgH lines frameColor
       space ratio imageWidth imageHeight).
Proof.
  intros yStart. unfold drawCaption. fold yStart.
  destruct (captionColors frameColor) as [c1 c2].
  apply Forall_app. split.
  - destruct (lines.1 =? "")%string; [constructor |].
    apply Forall_app. split;
      (eapply Forall_impl; [apply drawTextWithLetterSpacing_y |]);
      intros op Hop; now left.
  - destruct (lines.2 =? "")%string; [constructor |].
    eapply Forall_impl; [apply drawTextWithLetterSpacing_y |].
    intros op Hop; now right.
Qed.

Lemma drawnText_app (l1 l2 : list DrawOp) :
  drawnText (l1 ++ l2) = (drawnText l1 ++ drawnText l2)%string.
Proof.
  induction l1 as [| op l1 IH]; [reflexivity |].
  change (drawnText ((op :: l1) ++ l2))
    with (match op with
          | FillText _ _ _ char _ _ => String char (drawnText (l1 ++ l2))
          | _ => drawnText (l1 ++ l2)
          end).
  rewrite IH. destruct op; reflexivity.
Qed.

Lemma drawnText_letters (measure : Font -> string -> Q) (font : Font)
  (fillStyle : string) (alpha : Q) (text : string) (x y spacing : Q) :
  drawnText
    (drawTextWithLetterSpacing measure font fillStyle alpha text x y spacing)
  = text.
Proof.
  revert x. induction text as [| c text IH]; intros x; [reflexivity |].
  simpl. now rewrite IH.
Qed.

Lemma drawTextWithLetterSpacing_calls (measure : Font -> string -> Q)
  (font : Font) (fillStyle : string) (alpha : Q) (text : string)
  (x y spacing : Q) :
  Forall (fun op => exists char x', op = FillText font fillStyle alpha char x' y)
    (drawTextWithLetterSpacing measure font fillStyle alpha text x y spacing).
Proof.
  revert x. induction text as [| c rest IH]; intros x; cbn.
  - constructor.
  - constructor; [eauto | apply IH].
Qed.

Lemma drawTextWithLetterSpacing_length (measure : Font -> string -> Q)
  (font : Font) (fillStyle : string) (alpha : Q) (text : string)
  (x y spacing : Q) :
  List.length
    (drawTextWithLetterSpacing measure font fillStyle alpha text x y spacing)
  = String.length text.
Proof.
  revert x. induction text as [| c rest IH]; intros x; [reflexivity |].
  simpl. now rewrite IH.
Qed.

(** C9. Whenever the frame colour is the second Snap colour,
    [drawCaption] writes both caption lines, character by character (the
    first line as "Shot on " followed by the rest of the line), and
    every one of these text calls uses the fixed red [#E2211C] at full
    opacity, whatever the caption, canvas, ratio and spacing; the
    luminance rule, which would give [#222] for that frame colour, is
    the one applied to every frame colour that is not a Snap colour; and
    the selection [snap] with pattern 2 yields that frame colour. *)
Theorem snap_pattern2_caption_red (measure : Font -> string -> Q)
  (width height padBottom top imgH : Q) (lines : string * string)
  (space ratio : string) (imageWidth imageHeight : option Q)
  (autoColor : string) (retrobluePattern : Pattern) :
  let ops :=
    drawCaption measure width height padBottom top imgH lines
      SNAP_COLORS_pattern2 space ratio imageWidth imageHeight in
  drawnText ops = (firstLineText lines.1 ++ lines.2)%string /\
  List.length ops
  = (String.length (firstLineText lines.1) + String.length lines.2)%nat /\
  Forall (fun op => exists font char x y,
              op = FillText font "#E2211C" 1 char x y) ops /\
  captionColors SNAP_COLORS_pattern2 = ("#E2211C", "#E2211C")%string /\
  getContrastColor SNAP_COLORS_pattern2 = "#222"%string /\
  (forall frameColor : string,
     frameColor <> SNAP_COLORS_pattern1 ->
     frameColor <> SNAP_COLORS_pattern2 ->
     captionColors frameColor
     = (getContrastColor frameColor, getContrastColor frameColor)) /\
  getFrameColor "snap" autoColor Pattern2 retrobluePattern
  = SNAP_COLORS_pattern2.
Proof.
  cbv zeta.
  split; [| split; [| split;
    [| split; [reflexivity | split; [reflexivity | split; [| reflexivity]]]]]].
  - unfold drawCaption, firstLineText.
    change (captionColors SNAP_COLORS_pattern2)
      with ("#E2211C"%string, "#E2211C"%string).
    cbv iota beta. rewrite drawnText_app. f_equal.
    + destruct (lines.1 =? "")%string; [reflexivity |].
      now rewrite drawnText_app, !drawnText_letters.
    + destruct (lines.2 =? "")%string eqn:E.
      * apply String.eqb_eq in E. now rewrite E.
      * apply drawnText_letters.
  - unfold drawCaption, firstLineText.
    change (captionColors SNAP_COLORS_pattern2)
      with ("#E2211C"%string, "#E2211C"%string).
    cbv iota beta. rewrite length_app. f_equal.
    + destruct (lines.1 =? "")%string; [reflexivity |].
      rewrite length_app, !drawTextWithLetterSpacing_length.
      reflexivity.
    + destruct (lines.2 =? "")%string eqn:E.
      * apply String.eqb_eq in E. now rewrite E.
      * apply drawTextWithLetterSpacing_length.
  - unfold drawCaption.
    change (captionColors SNAP_COLORS_pattern2)
      with ("#E2211C"%string, "#E2211C"%string).
    change ((SNAP_COLORS_pattern2 =? SNAP_COLORS_pattern1)%string
            || (SNAP_COLORS_pattern2 =? SNAP_COLORS_pattern2)%string)
      with true.
    cbv iota beta.
    apply Forall_app. split.
    + destruct (lines.1 =? "")%string; [constructor |].
      apply Forall_app. split;
        (eapply Forall_impl; [apply drawTextWithLetterSpacing_calls |]);
        intros op (c & x' & ->); eauto.
    + destruct (lines.2 =? "")%string; [constructor |].
      eapply Forall_impl; [apply drawTextWithLetterSpacing_calls |].
      intros op (c & x' & ->); eauto.
  - intros frameColor H1 H2. unfold captionColors.
    apply String.eqb_neq in H1, H2. now rewrite H1, H2.
Qed.

Lemma snap_pattern2_caption_red_witness :
  let ops :=
    drawCaption (measureText desktopBrowser) 378 672 114 27 449
      ("Shot on FUJIFILM X100V"%string, "ISO 200 / f2.8 / 1/125s"%string)
      SNAP_COLORS_pattern2 "S" "9:16" (Some 3000) (Some 4000) in
  drawnText ops = "Shot on FUJIFILM X100VISO 200 / f2.8 / 1/125s"%string /\
  List.length ops = 45%nat /\
  Forall (fun op => exists font char x y,
              op = FillText font "#E2211C" 1 char x y) ops.
Proof.
  pose proof (snap_pattern2_caption_red (measureText desktopBrowser)
                378 672 114 27 449
                ("Shot on FUJIFILM X100V"%string,
                 "ISO 200 / f2.8 / 1/125s"%string)
                "S" "9:16" (Some 3000) (Some 4000) ""%string Pattern1)
    as (H1 & H2 & H3 & _).
  cbv zeta. split; [exact H1 | split; [exact H2 | exact H3]].
Defined.

(** ** C4: the padding-centred caption regime *)

Lemma offsetBase_lookup (r : RatioType) (s : SpaceType) :
  default 0 (lookup2 CAPTION_Y_OFFSET_RATIO (ratio_str r) (space_str s))
  = Spec.offsetBase r s.
Proof. destruct r, s; reflexivity. Qed.

Lemma offset57_lookup (r : RatioType) (s : SpaceType) :
  default 0 (lookup2 CAPTION_Y_OFFSET_RATIO_57IMG (ratio_str r) (space_str s))
  = Spec.offset57 r s.
Proof. destruct r, s; reflexivity. Qed.

Lemma offset23_lookup (r : RatioType) (s : SpaceType) :
  default 0 (lookup2 CAPTION_Y_OFFSET_RATIO_23IMG (ratio_str r) (space_str s))
  = Spec.offset23 r s.
Proof. destruct r, s; reflexivity. Qed.

Lemma offset45_lookup (r : RatioType) (s : SpaceType) :
  default 0 (lookup2 CAPTION_Y_OFFSET_RATIO_45IMG (ratio_str r) (space_str s))
  = Spec.offset45 r s.
Proof. destruct r, s; reflexivity. Qed.

Lemma imageRatioNear_pos (w h target tol : Q) :
  0 < w -> 0 < h ->
  imageRatioNear (Some w) (Some h) target tol = Spec.near w h target tol.
Proof.
  intros Hw Hh. unfold imageRatioNear.
  now rewrite (truthy_pos w Hw), (truthy_pos h Hh).
Qed.

Lemma canvasBelow_pos (c bound : Q) :
  0 < c -> canvasBelow (Some c) bound = ltb c bound.
Proof. intros Hc. unfold canvasBelow. now rewrite (truthy_pos c Hc). Qed.

(** The offset resolver outside spacing L, on a loaded image. *)
Lemma getCaptionYOffset_resolved (r : RatioType) (s : SpaceType)
  (w h canvasH : Q) :
  s <> Space_L -> 0 < w -> 0 < h -> 0 < canvasH ->
  getCaptionYOffset (ratio_str r) (space_str s) (Some w) (Some h)
    (Some canvasH)
  == Spec.captionOffsetBaseOnly r s w h canvasH.
Proof.
  intros Hs Hw Hh Hc.
  unfold getCaptionYOffset, Spec.captionOffsetBaseOnly, Spec.offsetLookup,
    Spec.usesBaseTable.
  rewrite !imageRatioNear_pos, !canvasBelow_pos by assumption.
  rewrite offsetBase_lookup, offset57_lookup, offset23_lookup, offset45_lookup.
  assert (EL : (space_str s =? "L")%string = false) by (destruct s; easy).
  rewrite EL.
  destruct (Spec.near w h (5 / 7) 0.01); [cbn; ring |].
  destruct (Spec.near w h (2 / 3) 0.05); [cbn; ring |].
  destruct (Spec.near w h (4 / 5) 0.05); [cbn; ring |].
  cbn [negb andb].
  destruct r, s; try congruence; cbn;
    try destruct (ltb canvasH 480); try destruct (ltb canvasH 672);
    cbn; ring.
Qed.

(** On the mobile preview canvas of 5:7 (300 x 420) with spacing S and a
    4:5 photo of 800 x 1000, the code takes -0.045 from the 4:5 table and
    applies no small-screen correction: the anchor is 378.6, while the
    offset with the correction applied to any table gives 373.56. *)
Lemma caption_correction_any_table_fails :
  previewCanvas 375 (Some true) Ratio_5_7 = (300, 420) /\
  padBottom (getFramePadding 300 420 "5:7" "S") == 30 /\
  imageDrawTop (drawCanvas_placement 300 420 "5:7" "S" (mkImage 800 1000 0))
  == 12 /\
  imageDrawHeight (drawCanvas_placement 300 420 "5:7" "S" (mkImage 800 1000 0))
  == 345 /\
  totalHeight 300 420 "5:7" == 15 /\
  F64.getCaptionYOffset "5:7" "S" (Some 800) (Some 1000) (Some 420)
  == -0.045 /\
  Spec.captionOffsetAnyTable Ratio_5_7 Space_S 800 1000 420 == -0.057 /\
  F64.getCaptionYPosition "5:7" "S" 420 30 12 345 15 (Some 800) (Some 1000)
  == 378.6 /\
  ~ (F64.getCaptionYPosition "5:7" "S" 420 30 12 345 15 (Some 800)
       (Some 1000)
     == Spec.paddingCenteredY 420 30 15
          (Spec.captionOffsetAnyTable Ratio_5_7 Space_S 800 1000 420)).
Proof.
  do 8 (split; [vm_compute; reflexivity |]).
  intros H. vm_compute in H. discriminate H.
Qed.

Lemma bool_eq_iff (a b : bool) : (a = true <-> b = true) -> a = b.
Proof. destruct a, b; intuition congruence. Qed.

(** The three guards of the offset resolver on a photo of whole
    dimensions. *)
Lemma f64_near57 (w h : N) :
  pixelDims w h -> (0 < w)%N ->
  F64.imageRatioNear (Some (NtoQ w)) (Some (NtoQ h)) (F64.round (5 / 7))
    (F64.round 0.01)
  = Spec.near (NtoQ w) (NtoQ h) (5 / 7) 0.01.
Proof.
  intros Hd Hw.
  rewrite (f64_imageRatioNear w h (5 / 7) 0.01 Hd) by discriminate.
  replace (w =? 0)%N with false by (symmetry; apply N.eqb_neq; lia).
  cbn [negb andb]. apply bool_eq_iff.
  rewrite (style57 w h Hd). unfold Spec.near. rewrite ltb_lt.
  fold (ratioOf w h). symmetry. apply exact_band; vm_compute; reflexivity.
Qed.

Lemma f64_near23 (w h : N) :
  pixelDims w h -> (0 < w)%N ->
  F64.imageRatioNear (Some (NtoQ w)) (Some (NtoQ h)) (F64.round (2 / 3))
    (F64.round 0.05)
  = Spec.nearOrOn (NtoQ w) (NtoQ h) (2 / 3) 0.05 (37 # 60).
Proof.
  intros Hd Hw.
  rewrite (f64_imageRatioNear w h (2 / 3) 0.05 Hd) by discriminate.
  replace (w =? 0)%N with false by (symmetry; apply N.eqb_neq; lia).
  cbn [negb andb]. apply bool_eq_iff.
  rewrite (style23 w h Hd). unfold Spec.nearOrOn, Spec.near.
  rewrite orb_true_iff, ltb_lt, eqb_eq.
  fold (ratioOf w h).
  rewrite (exact_band (ratioOf w h) (2 / 3) 0.05 (37 # 60) (43 # 60))
    by (vm_compute; reflexivity).
  set (r := ratioOf w h). clearbody r. split.
  - intros [H1 H2].
    destruct (Q_dec r (37 # 60)) as [[H | H] | H]; [lra | | now right].
    left. split; assumption.
  - intros [[H1 H2] | H]; [split; lra |]. rewrite H. split; lra.
Qed.

Lemma f64_near45 (w h : N) :
  pixelDims w h -> (0 < w)%N ->
  F64.imageRatioNear (Some (NtoQ w)) (Some (NtoQ h)) (F64.round (4 / 5))
    (F64.round 0.05)
  = Spec.nearOrOn (NtoQ w) (NtoQ h) (4 / 5) 0.05 (17 # 20).
Proof.
  intros Hd Hw.
  rewrite (f64_imageRatioNear w h (4 / 5) 0.05 Hd) by discriminate.
  replace (w =? 0)%N with false by (symmetry; apply N.eqb_neq; lia).
  cbn [negb andb]. apply bool_eq_iff.
  rewrite (style45 w h Hd). unfold Spec.nearOrOn, Spec.near.
  rewrite orb_true_iff, ltb_lt, eqb_eq.
  fold (ratioOf w h).
  rewrite (exact_band (ratioOf w h) (4 / 5) 0.05 (3 # 4) (17 # 20))
    by (vm_compute; reflexivity).
  set (r := ratioOf w h). clearbody r. split.
  - intros [H1 H2].
    destruct (Q_dec r (17 # 20)) as [[H | H] | H]; [| lra | now right].
    left. split; assumption.
  - intros [[H1 H2] | H]; [split; lra |]. rewrite H. split; lra.
Qed.

(** The offset resolver in doubles outside spacing L, on a loaded
    photo. *)
Lemma f64_getCaptionYOffset_resolved (r : RatioType) (s : SpaceType)
  (w h : N) (canvasH : Q) :
  s <> Space_L -> pixelDims w h -> (0 < w)%N -> 0 < canvasH ->
  F64.getCaptionYOffset (ratio_str r) (space_str s) (Some (NtoQ w))
    (Some (NtoQ h)) (Some canvasH)
  == Spec.captionOffsetClosed r s (NtoQ w) (NtoQ h) canvasH.
Proof.
  intros Hs Hd Hw Hc.
  unfold F64.getCaptionYOffset, Spec.captionOffsetClosed,
    Spec.offsetLookupClosed, Spec.usesBaseTableClosed.
  rewrite (f64_near57 w h Hd Hw), (f64_near23 w h Hd Hw),
    (f64_near45 w h Hd Hw).
  rewrite !canvasBelow_pos by assumption.
  rewrite offsetBase_lookup, offset57_lookup, offset23_lookup, offset45_lookup.
  assert (EL : (space_str s =? "L")%string = false) by (destruct s; easy).
  rewrite EL.
  destruct (Spec.near (NtoQ w) (NtoQ h) (5 / 7) 0.01); [cbn; ring |].
  destruct (Spec.nearOrOn (NtoQ w) (NtoQ h) (2 / 3) 0.05 (37 # 60));
    [cbn; ring |].
  destruct (Spec.nearOrOn (NtoQ w) (NtoQ h) (4 / 5) 0.05 (17 # 20));
    [cbn; ring |].
  cbn [negb andb].
  destruct r, s; try congruence; cbn;
    try destruct (ltb canvasH 480); try destruct (ltb canvasH 672);
    cbn; ring.
Qed.

(** Away from the two edge ratios the exact reading of the resolver and
    the resolver in doubles return the same offset. *)
Lemma getCaptionYOffset_exact_agrees (r : RatioType) (s : SpaceType)
  (w h : N) (canvasH : Q) :
  pixelDims w h -> (0 < w)%N -> 0 < canvasH ->
  ~ ratioOf w h == 37 # 60 -> ~ ratioOf w h == 17 # 20 ->
  F64.getCaptionYOffset (ratio_str r) (space_str s) (Some (NtoQ w))
    (Some (NtoQ h)) (Some canvasH)
  = getCaptionYOffset (ratio_str r) (space_str s) (Some (NtoQ w))
      (Some (NtoQ h)) (Some canvasH).
Proof.
  intros Hd Hw Hc N1 N2.
  unfold F64.getCaptionYOffset, getCaptionYOffset.
  rewrite (f64_near57 w h Hd Hw), (f64_near23 w h Hd Hw),
    (f64_near45 w h Hd Hw).
  rewrite !imageRatioNear_pos by (apply NtoQ_pos; first [exact Hw | apply Hd]).
  unfold Spec.nearOrOn. fold (ratioOf w h).
  replace (Num.eqb (ratioOf w h) (37 # 60)) with false
    by (symmetry; apply not_true_iff_false; now rewrite eqb_eq).
  replace (Num.eqb (ratioOf w h) (17 # 20)) with false
    by (symmetry; apply not_true_iff_false; now rewrite eqb_eq).
  now rewrite !orb_false_r.
Qed.

(** C4 (amended). For SpacingTier S or M and FrameRatio 1:1 or 5:7, on a
    loaded photo (whole dimensions up to [2^32], none zero) and a
    positive canvas height, the anchor computed with the source tests in
    double precision is
    [canvasHeight - padBottom/2 - captionHeight/2 + offset * canvasHeight],
    where the offset fraction comes from the 5:7 table when the image
    ratio is within 0.01 of 5/7, else from the 2:3 table when it is
    within 0.05 of 2/3 or exactly 37/60, else from the 4:5 table when it
    is within 0.05 of 4/5 or exactly 17/20, else from the base table;
    and only in that last case the small-screen constant is subtracted
    (0.021 for (1:1, S) below 480, 0.012 for (5:7, S) below 672). *)
Theorem getCaptionYPosition_padding_centered (r : RatioType) (s : SpaceType)
  (canvasHeight padBottom imageDrawTop imageDrawHeight captionHeight : Q)
  (imageWidth imageHeight : N) :
  r <> Ratio_9_16 -> s <> Space_L ->
  (0 < imageWidth)%N -> (0 < imageHeight)%N ->
  (imageWidth <= 4294967296)%N -> (imageHeight <= 4294967296)%N ->
  0 < canvasHeight ->
  F64.getCaptionYPosition (ratio_str r) (space_str s) canvasHeight padBottom
    imageDrawTop imageDrawHeight captionHeight
    (Some (NtoQ imageWidth)) (Some (NtoQ imageHeight))
  == Spec.paddingCenteredY canvasHeight padBottom captionHeight
       (Spec.captionOffsetClosed r s (NtoQ imageWidth) (NtoQ imageHeight)
          canvasHeight).
Proof.
  intros Hr Hs Hw Hh Hw32 Hh32 Hc.
  assert (Hd : pixelDims imageWidth imageHeight) by (unfold pixelDims; lia).
  unfold F64.getCaptionYPosition, Spec.paddingCenteredY.
  assert (ER : (ratio_str r =? "9:16")%string = false) by (destruct r; easy).
  assert (EL : (space_str s =? "L")%string = false) by (destruct s; easy).
  rewrite ER, EL. cbv zeta.
  rewrite (f64_getCaptionYOffset_resolved r s _ _ _ Hs Hd Hw Hc).
  reflexivity.
Qed.

Lemma getCaptionYPosition_padding_centered_witness :
  F64.getCaptionYPosition "5:7" "S" 420 30 12 345 15
    (Some (NtoQ 850)) (Some (NtoQ 1000))
  == Spec.paddingCenteredY 420 30 15
       (Spec.captionOffsetClosed Ratio_5_7 Space_S (NtoQ 850) (NtoQ 1000)
          420) /\
  Spec.captionOffsetClosed Ratio_5_7 Space_S (NtoQ 850) (NtoQ 1000) 420
  == -0.045.
Proof.
  split; [| reflexivity].
  apply (getCaptionYPosition_padding_centered Ratio_5_7 Space_S
           420 30 12 345 15 850 1000);
    first [discriminate | reflexivity | lia].
Defined.

(** ** C5: image placement *)

Lemma gtb_lt (x y : Q) : gtb x y = true <-> y < x.
Proof. apply ltb_lt. Qed.

Lemma gtb_le (x y : Q) : gtb x y = false <-> x <= y.
Proof. apply ltb_ge. Qed.

(** Both placements are contain-fits into a box. *)
Lemma print_placement_box (W H : Q) (ratio space : string) (img : Image) :
  let p := getFramePadding W H ratio space in
  print_placement W H ratio space img
  = placeInBox (padLeft p) (W - padLeft p - padRight p) (padTop p)
      (H - padTop p - padBottom p) (imageAspect img)
      (centersVertically img ratio space).
Proof. reflexivity. Qed.

Lemma drawCanvas_placement_box (W H : Q) (ratio space : string)
  (img : Image) :
  let p := getFramePadding W H ratio space in
  let special := (ratio =? "9:16")%string && (space =? "L")%string in
  drawCanvas_placement W H ratio space img
  = placeInBox (padLeft p) (W - padLeft p - padRight p)
      (if special then 0 else padTop p)
      (if special then H else H - padTop p - padBottom p)
      (imageAspect img) (centersVertically img ratio space).
Proof. reflexivity. Qed.

(** Outside (9:16, L) the export placement is the preview placement at
    the export resolution. *)
Lemma placements_agree (W H : Q) (r : RatioType) (s : SpaceType)
  (img : Image) :
  (r, s) <> (Ratio_9_16, Space_L) ->
  print_placement W H (ratio_str r) (space_str s) img
  = drawCanvas_placement W H (ratio_str r) (space_str s) img.
Proof.
  intros Hne. rewrite print_placement_box, drawCanvas_placement_box.
  destruct r, s; try reflexivity. congruence.
Qed.

Lemma div_mul_cancel (x y : Q) : ~ y == 0 -> x / y * y == x.
Proof. intros Hy. field. exact Hy. Qed.

(** A rectangle [tw] by [th] no larger than the box, placed as the code
    places it. *)
Lemma placed_fits (padL dw boxTop boxH a tw th : Q) (center : bool) :
  tw <= dw -> th <= boxH -> tw == th * a ->
  let g := {| imageDrawLeft := padL + (dw - tw) / 2;
              imageDrawTop := if center then boxTop + (boxH - th) / 2
                              else boxTop;
              imageDrawWidth := tw; imageDrawHeight := th |} in
  padL <= imageDrawLeft g /\
  imageDrawLeft g + imageDrawWidth g <= padL + dw /\
  boxTop <= imageDrawTop g /\
  imageDrawTop g + imageDrawHeight g <= boxTop + boxH /\
  imageDrawWidth g == imageDrawHeight g * a /\
  imageDrawLeft g - padL == padL + dw - (imageDrawLeft g + imageDrawWidth g) /\
  (if center
   then imageDrawTop g - boxTop
        == boxTop + boxH - (imageDrawTop g + imageDrawHeight g)
   else imageDrawTop g == boxTop).
Proof.
  intros Hw Hh Ea. cbn.
  repeat apply conj; destruct center; qlra.
Qed.

(** The fitted rectangle stays in the box, keeps the aspect and is
    centred across; down, it is centred or at the top edge. *)
Lemma placeInBox_fits (padL dw boxTop boxH a : Q) (center : bool) :
  0 < a -> 0 < dw -> 0 < boxH ->
  let g := placeInBox padL dw boxTop boxH a center in
  padL <= imageDrawLeft g /\
  imageDrawLeft g + imageDrawWidth g <= padL + dw /\
  boxTop <= imageDrawTop g /\
  imageDrawTop g + imageDrawHeight g <= boxTop + boxH /\
  imageDrawWidth g == imageDrawHeight g * a /\
  imageDrawLeft g - padL == padL + dw - (imageDrawLeft g + imageDrawWidth g) /\
  (if center
   then imageDrawTop g - boxTop
        == boxTop + boxH - (imageDrawTop g + imageDrawHeight g)
   else imageDrawTop g == boxTop).
Proof.
  intros Ha Hdw Hbh. unfold placeInBox.
  assert (Hne : ~ boxH == 0) by lra.
  assert (Hna : ~ a == 0) by lra.
  destruct (gtb a (dw / boxH)) eqn:E.
  - apply gtb_lt in E.
    assert (Hlt : dw < a * boxH).
    { rewrite <- (div_mul_cancel dw boxH Hne) at 1.
      apply Qmult_lt_compat_r; assumption. }
    apply placed_fits.
    + apply Qle_refl.
    + apply Qle_shift_div_r; [assumption |]. lra.
    + now rewrite div_mul_cancel.
  - apply gtb_le in E.
    apply placed_fits.
    + rewrite <- (div_mul_cancel dw boxH Hne).
      rewrite (Qmult_comm boxH a).
      apply Qmult_le_compat_r; lra.
    + apply Qle_refl.
    + reflexivity.
Qed.

Lemma imageAspect_pos (img : Image) :
  (0 < img_width img)%N -> (0 < img_height img)%N -> 0 < imageAspect img.
Proof.
  intros Hw Hh. unfold imageAspect.
  apply Qlt_shift_div_l; [now apply NtoQ_pos |].
  rewrite Qmult_0_l. now apply NtoQ_pos.
Qed.

Lemma aspect_preserved (img : Image) (tw th : Q) :
  (0 < img_height img)%N ->
  tw == th * imageAspect img ->
  tw * NtoQ (img_height img) == th * NtoQ (img_width img).
Proof.
  intros Hh E. rewrite E. unfold imageAspect.
  pose proof (NtoQ_pos _ Hh). field. lra.
Qed.

(** The renderers hand [drawImage] the rectangles computed by the two
    placement functions. *)
Lemma drawCanvas_uses_placement (B : Browser) (st : State) (img : Image) :
  image st = Some img ->
  let g := drawCanvas_placement (canvasSize B st).1 (canvasSize B st).2
             (ratio_str (ratio st)) (space_str (space st)) img in
  In (DrawImage img (imageDrawLeft g) (imageDrawTop g)
        (imageDrawWidth g) (imageDrawHeight g))
     (drawCanvas B st).
Proof.
  intros Hi. unfold drawCanvas. rewrite Hi.
  destruct (canvasSize B st) as [cw ch]. cbn. right. left. reflexivity.
Qed.

Lemma printCanvas_uses_placement (B : Browser) (st : State) (img : Image) :
  image st = Some img ->
  let g :=
    match forceMobile st with
    | Some true =>
        print_placement (outputCanvas (ratio st)).1
          (outputCanvas (ratio st)).2
          (ratio_str (ratio st)) (space_str (space st)) img
    | _ =>
        print_placement_panel (outputCanvas (ratio st)).1
          (outputCanvas (ratio st)).2
          (ratio_str (ratio st)) (space_str (space st)) img
    end in
  In (DrawImage img (imageDrawLeft g) (imageDrawTop g)
        (imageDrawWidth g) (imageDrawHeight g))
     (printCanvas B st).
Proof.
  intros Hi. unfold printCanvas. rewrite Hi.
  destruct (canvasSize B st) as [cw ch].
  destruct (outputCanvas (ratio st)) as [ow oh]. cbn. right. left. reflexivity.
Qed.

(** An accepted 2:3 photo (2000 x 3000) on the desktop preview canvas of
    9:16 (378 x 672) with spacing L is drawn from y = 138, above the top
    padding of 142.5: the preview centres it in the full canvas height. *)
Lemma preview_placement_outside_padding :
  isSupportedAspectRatio 2000 3000 = true /\
  previewCanvas 1920 None Ratio_9_16 = (378, 672) /\
  padTop (getFramePadding 378 672 "9:16" "L") == 142.5 /\
  imageDrawTop (drawCanvas_placement 378 672 "9:16" "L" (mkImage 2000 3000 0))
  == 138 /\
  ~ Spec.placementInvariant 378 672 Ratio_9_16 Space_L (mkImage 2000 3000 0)
      (drawCanvas_placement 378 672 "9:16" "L" (mkImage 2000 3000 0)).
Proof.
  do 4 (split; [reflexivity |]).
  intros ((_ & _ & Htop & _) & _). vm_compute in Htop. now apply Htop.
Qed.

(** C5 (the code at the failing input). FrameRatio 5:7, SpacingTier L
    and an accepted 3:4 photo of 3000 x 4000 make one of the documented
    centring exceptions.  The preview (480 x 672) centres the photo in
    the padded interior, and so does the Print handler of the mobile
    layout on the export canvas (1714 x 2400, padTop 257, top edge at
    383).  The Print handler of the desktop panel, the one that runs
    unless [forceMobile] is set, top-aligns the photo at 257: what the
    desktop export draws is not centred and violates the placement
    invariant. *)
Theorem desktop_export_top_aligned :
  let img := mkImage 3000 4000 1 in
  let p := getFramePadding 1714 2400 "5:7" "L" in
  let gp := drawCanvas_placement 480 672 "5:7" "L" img in
  let gm := print_placement 1714 2400 "5:7" "L" img in
  let gd := print_placement_panel 1714 2400 "5:7" "L" img in
  let st :=
    img_onload desktopBrowser
      (mkState None Space_L Ratio_5_7 "" "#e53e3e" Pattern1 Pattern1 Auto1
         None (""%string, ""%string) false false "" "" (Some false))
      img in
  isSupportedAspectRatio 3000 4000 = true /\
  Spec.centeringException Ratio_5_7 Space_L (Spec.sourceAspectClass img)
  = true /\
  previewCanvas 1920 (Some false) Ratio_5_7 = (480, 672) /\
  outputCanvas Ratio_5_7 = (1714, 2400) /\
  (padTop p == 257 /\ padBottom p == 291) /\
  Spec.placementInvariant 480 672 Ratio_5_7 Space_L img gp /\
  Spec.placementInvariant 1714 2400 Ratio_5_7 Space_L img gm /\
  imageDrawTop gm == 383 /\
  (imageDrawTop gd == 257 /\ imageDrawHeight gd == 1600) /\
  ~ Spec.centeredVertically 2400 p gd /\
  ~ Spec.placementInvariant 1714 2400 Ratio_5_7 Space_L img gd /\
  image st = Some img /\
  In (DrawImage img (imageDrawLeft gd) (imageDrawTop gd)
        (imageDrawWidth gd) (imageDrawHeight gd))
     (printCanvas desktopBrowser st).
Proof.
  cbv zeta.
  do 5 (split; [first [reflexivity | split; reflexivity] |]).
  split.
  { vm_compute. repeat split; discriminate. }
  split.
  { vm_compute. repeat split; discriminate. }
  split; [reflexivity |].
  split; [split; reflexivity |].
  split.
  { intros H. vm_compute in H. discriminate H. }
  split.
  { intros (_ & _ & _ & H). vm_compute in H. discriminate H. }
  split; [reflexivity |].
  vm_compute. right. left. reflexivity.
Qed.

(** ** C1: preview and export *)

(** For 9:16 the two Print handlers place the photo alike. *)
Lemma print_placement_panel_9_16 (W H : Q) (space : string) (img : Image) :
  print_placement_panel W H "9:16" space img
  = print_placement W H "9:16" space img.
Proof. reflexivity. Qed.

(** Both renderers obtain the paddings from [getFramePadding] and the
    caption from [drawCaption]; rounding moves a padding by at most half
    a pixel from the exact fraction of the short side. *)
Lemma padding_up_to_rounding (W H : Q) (r : RatioType) (s : SpaceType) :
  let p := getFramePadding W H (ratio_str r) (space_str s) in
  Qabs (padLeft p - Math_min W H * Spec.basePadding s) <= 1 # 2 /\
  Qabs (padBottom p
        - Math_min W H * (Spec.basePadding s + Spec.extraBottom r s))
  <= 1 # 2.
Proof.
  intros p.
  destruct (getFramePadding_computePadding W H r s) as (_ & El & _ & Eb).
  fold p in El, Eb. cbn [Spec.computePadding padLeft padBottom] in El, Eb.
  pose proof (Math_round_near (Math_min W H * Spec.basePadding s)) as [L1 L2].
  pose proof (Math_round_near
                (Math_min W H * (Spec.basePadding s + Spec.extraBottom r s)))
    as [B1 B2].
  split; apply Qabs_Qle_condition; split; lra.
Qed.

(** C1 (the code at the failing input). Desktop, FrameRatio 9:16,
    SpacingTier L, an accepted 3:4 photo of 3000 x 4000: the preview
    (378 x 672) centres the photo in the full canvas height, the export
    (1350 x 2400) centres it in the padded interior.  The top edge is at
    5/21 of the canvas height in the preview and at 8513/28800 in the
    export, the caption anchor at 821/1050 and at 24193/28800: both
    differ by more than 5 % of the canvas height, where rounding accounts
    for a fraction of a percent. *)
Theorem preview_export_diverge_9_16_L :
  let img := mkImage 3000 4000 1 in
  let gp := drawCanvas_placement 378 672 "9:16" "L" img in
  let ge := print_placement 1350 2400 "9:16" "L" img in
  let yp := captionYStart 378 672 (padBottom (getFramePadding 378 672 "9:16" "L"))
              (imageDrawTop gp) (imageDrawHeight gp) "L" "9:16"
              (Some 3000) (Some 4000) in
  let ye := captionYStart 1350 2400
              (padBottom (getFramePadding 1350 2400 "9:16" "L"))
              (imageDrawTop ge) (imageDrawHeight ge) "L" "9:16"
              (Some 3000) (Some 4000) in
  isSupportedAspectRatio 3000 4000 = true /\
  previewCanvas 1920 None Ratio_9_16 = (378, 672) /\
  outputCanvas Ratio_9_16 = (1350, 2400) /\
  imageDrawTop gp / 672 == 5 # 21 /\
  imageDrawTop ge / 2400 == 8513 # 28800 /\
  0.05 < imageDrawTop ge / 2400 - imageDrawTop gp / 672 /\
  yp / 672 == 821 # 1050 /\
  ye / 2400 == 24193 # 28800 /\
  0.05 < ye / 2400 - yp / 672.
Proof. cbv zeta. repeat split; reflexivity. Qed.

(** On a mobile device the export hands [drawCaption] the height of the
    preview canvas: for 5:7 with spacing M and the same photo the caption
    anchor is at 3183/3500 of the preview height but at 0.1079 of the
    export height, and the first line is set in 10 px instead of 39 px. *)
Lemma mobile_export_caption_anchor :
  let img := mkImage 3000 4000 1 in
  let gp := drawCanvas_placement 300 420 "5:7" "M" img in
  let ge := print_placement 1714 2400 "5:7" "M" img in
  previewCanvas 375 (Some true) Ratio_5_7 = (300, 420) /\
  outputCanvas Ratio_5_7 = (1714, 2400) /\
  captionYStart 300 420 (padBottom (getFramePadding 300 420 "5:7" "M"))
    (imageDrawTop gp) (imageDrawHeight gp) "M" "5:7" (Some 3000) (Some 4000)
  / 420 == 3183 # 3500 /\
  captionYStart 1714 420 (padBottom (getFramePadding 1714 2400 "5:7" "M"))
    (imageDrawTop ge) (imageDrawHeight ge) "M" "5:7" (Some 3000) (Some 4000)
  / 2400 == 0.1079 /\
  baseFontPx1 1714 420 "5:7" == 10 /\
  baseFontPx1 1714 2400 "5:7" == 39.
Proof. cbv zeta. repeat split; reflexivity. Qed.

(* ================================================================== *)
(** * Further properties of the code *)

(** ** The classifier as a single interval *)

(** X1. A photo of whole dimensions up to [2^32] is accepted exactly
    when its height is not zero and its width-to-height ratio lies in
    the closed interval from 17/30 to 9/10: the comparison in doubles
    lets both end points in. *)
Theorem isSupportedAspectRatio_interval (width height : N) :
  (width <= 4294967296)%N -> (height <= 4294967296)%N ->
  F64.isSupportedAspectRatio (NtoQ width) (NtoQ height) = true
  <-> (0 < height)%N /\
      17 # 30 <= NtoQ width / NtoQ height /\
      NtoQ width / NtoQ height <= 9 # 10.
Proof. apply f64_accept_interval. Qed.

Lemma isSupportedAspectRatio_interval_witness :
  F64.isSupportedAspectRatio (NtoQ 900) (NtoQ 1000) = true /\
  F64.isSupportedAspectRatio (NtoQ 1700) (NtoQ 3000) = true /\
  (0 < 4000)%N /\
  17 # 30 <= NtoQ 3000 / NtoQ 4000 /\ NtoQ 3000 / NtoQ 4000 <= 9 # 10.
Proof.
  split; [| split].
  - apply (isSupportedAspectRatio_interval 900 1000); [lia | lia |].
    split; [reflexivity |]. split; discriminate.
  - apply (isSupportedAspectRatio_interval 1700 3000); [lia | lia |].
    split; [reflexivity |]. split; discriminate.
  - apply (isSupportedAspectRatio_interval 3000 4000); [lia | lia |].
    reflexivity.
Defined.

(** X2. Square and landscape photos are always rejected. *)
Theorem landscape_rejected (width height : Q) :
  0 < height -> height <= width ->
  isSupportedAspectRatio width height = false.
Proof.
  intros Hh Hw. apply not_true_iff_false. intros Hs.
  apply isSupportedAspectRatio_band, withinBand_interval in Hs
    as (_ & _ & Hhi).
  assert (H1 : 1 <= width / height).
  { apply Qle_shift_div_l; [exact Hh |]. lra. }
  lra.
Qed.

Lemma landscape_rejected_witness :
  isSupportedAspectRatio 4000 3000 = false.
Proof. apply (landscape_rejected 4000 3000); [reflexivity | discriminate]. Defined.








(** X5. A photo whose ratio is within 0.01 of 5/7 is accepted, the
    styling classifier files it under 3:4, and outside spacing L the
    offset resolver nevertheless takes its offset from the 5:7 table. *)
Theorem five_seven_source (r : RatioType) (s : SpaceType)
  (width height canvasH : Q) :
  0 < width -> 0 < height -> s <> Space_L ->
  Qabs (width / height - 5 / 7) < 0.01 ->
  isSupportedAspectRatio width height = true /\
  getImageAspectRatioType width height = Aspect_3_4 /\
  getCaptionYOffset (ratio_str r) (space_str s) (Some width) (Some height)
    (Some canvasH)
  = Spec.offset57 r s.
Proof.
  intros Hw Hh Hs Hnear.
  assert (Hn : ~ height == 0) by lra.
  pose proof Hnear as Hq. apply Qabs_Qlt_condition in Hq.
  split; [| split].
  - apply isSupportedAspectRatio_band, withinBand_interval.
    split; [exact Hn |]. set (q := width / height) in *. clearbody q.
    fractions. lra.
  - unfold getImageAspectRatioType. cbv zeta.
    assert (E : Num.lt (Num.abs (Num.sub (Num.div width height) (3 / 4))) 0.05
                = true).
    { apply band_test. split; [exact Hn |]. apply Qabs_Qlt_condition.
      set (q := width / height) in *. clearbody q. fractions. lra. }
    now rewrite E.
  - unfold getCaptionYOffset.
    assert (EL : (space_str s =? "L")%string = false) by (destruct s; easy).
    rewrite EL, imageRatioNear_pos by assumption.
    unfold Spec.near. apply ltb_lt in Hnear. rewrite Hnear.
    apply offset57_lookup.
Qed.

Lemma five_seven_source_witness :
  isSupportedAspectRatio 1000 1400 = true /\
  getImageAspectRatioType 1000 1400 = Aspect_3_4 /\
  getCaptionYOffset "5:7" "M" (Some 1000) (Some 1400) (Some 672)
  = Spec.offset57 Ratio_5_7 Space_M.
Proof.
  apply (five_seven_source Ratio_5_7 Space_M 1000 1400 672);
    first [reflexivity | discriminate].
Defined.

(** ** Keys outside the tables *)

(** Lookup in a table with rows "1:1" and "5:7" and columns "S" and "M",
    for arbitrary keys. *)
Lemma lookup2_two_rows (a b c d : Q) (ratio space : string) :
  lookup2 {[ "1:1"%string := ({[ "S"%string := a; "M"%string := b ]} : gmap string Q);
             "5:7"%string := {[ "S"%string := c; "M"%string := d ]} ]}
    ratio space
  = if decide (ratio = "1:1"%string) then
      if decide (space = "S"%string) then Some a
      else if decide (space = "M"%string) then Some b else None
    else if decide (ratio = "5:7"%string) then
      if decide (space = "S"%string) then Some c
      else if decide (space = "M"%string) then Some d else None
    else None.
Proof.
  unfold lookup2.
  repeat case_decide; simplify_map_eq; reflexivity.
Qed.

Lemma minPadBottomTable_any (ratio space : string) :
  default 0.17 (lookup2 minPadBottomTable ratio space)
  = if decide (ratio = "5:7"%string /\ space = "S"%string) then 0.1 else 0.17.
Proof.
  unfold lookup2, minPadBottomTable.
  destruct (decide (ratio = "1:1"%string)) as [-> | N1];
    [| destruct (decide (ratio = "5:7"%string)) as [-> | N2];
       [| destruct (decide (ratio = "9:16"%string)) as [-> | N3]]];
    (destruct (decide (space = "S"%string)) as [-> | S1];
     [| destruct (decide (space = "M"%string)) as [-> | S2];
        [| destruct (decide (space = "L"%string)) as [-> | S3]]]);
    simplify_map_eq;
    try match goal with
        | |- context [decide ?P] => destruct (decide P) as [[? ?] | Hn]
        end;
    first [reflexivity | congruence | exfalso; apply Hn; now split].
Qed.

(** X6. A spacing key that the padding calculator does not know is not an
    error: for keys that are no inherited property names, any spacing
    other than "S" and "M" is padded like "L". *)
Theorem getFramePadding_unknown_space (width height : Q)
  (ratio space : string) :
  ownKey ratio = true -> ownKey space = true ->
  space <> "S"%string -> space <> "M"%string ->
  getFramePadding width height ratio space
  = getFramePadding width height ratio "L".
Proof.
  intros _ _ HS HM. unfold getFramePadding.
  rewrite !minPadBottomTable_any.
  apply String.eqb_neq in HS, HM. rewrite HS, HM.
  destruct (decide (ratio = "5:7"%string /\ space = "S"%string))
    as [[_ ES] | _]; [now apply String.eqb_neq in HS |].
  destruct (decide (ratio = "5:7"%string /\ "L"%string = "S"%string))
    as [[_ ES] | _]; [discriminate ES | reflexivity].
Qed.

Lemma getFramePadding_unknown_space_witness :
  getFramePadding 480 672 "5:7" "XL" = getFramePadding 480 672 "5:7" "L".
Proof.
  apply (getFramePadding_unknown_space 480 672 "5:7" "XL");
    first [reflexivity | discriminate].
Defined.

(** X7. Likewise, for keys that are no inherited property names, any
    ratio key other than "5:7" and "9:16" is padded like "1:1": bottom
    fraction 0.17 and no multiplier on the top padding. *)
Theorem getFramePadding_unknown_ratio (width height : Q)
  (ratio space : string) :
  ownKey ratio = true -> ownKey space = true ->
  ratio <> "5:7"%string -> ratio <> "9:16"%string ->
  getFramePadding width height ratio space
  = getFramePadding width height "1:1" space.
Proof.
  intros _ _ H57 H916. unfold getFramePadding.
  rewrite !minPadBottomTable_any.
  apply String.eqb_neq in H916. rewrite H916.
  destruct (decide (ratio = "5:7"%string /\ space = "S"%string))
    as [[E57 _] | _]; [contradiction |].
  destruct (decide ("1:1"%string = "5:7"%string /\ space = "S"%string))
    as [[E57 _] | _]; [discriminate E57 | reflexivity].
Qed.

Lemma getFramePadding_unknown_ratio_witness :
  getFramePadding 480 672 "4:3" "S" = getFramePadding 480 672 "1:1" "S".
Proof.
  apply (getFramePadding_unknown_ratio 480 672 "4:3" "S");
    first [reflexivity | discriminate].
Defined.

Lemma CAPTION_DISTANCE_any (ratio : string) :
  CAPTION_DISTANCE_FROM_IMAGE_BOTTOM_L !! ratio = Some 0.02 \/
  CAPTION_DISTANCE_FROM_IMAGE_BOTTOM_L !! ratio = None.
Proof.
  unfold CAPTION_DISTANCE_FROM_IMAGE_BOTTOM_L.
  destruct (decide (ratio = "1:1"%string)) as [-> | N1];
    [| destruct (decide (ratio = "5:7"%string)) as [-> | N2];
       [| destruct (decide (ratio = "9:16"%string)) as [-> | N3]]];
    simplify_map_eq; auto.
Qed.

(** X8. In the fixed-distance regime, that is for ratio "9:16" or for
    spacing "L" with a ratio key that is no inherited property name,
    the anchor is [imageDrawTop + imageDrawHeight + 0.02 * canvasHeight]
    whether the table lists the ratio or not, and it depends neither on
    the bottom padding, nor on the caption height, nor on the source
    image. *)
Theorem getCaptionYPosition_fixed_any_ratio (ratio space : string)
  (canvasHeight padBottom imageDrawTop imageDrawHeight captionHeight : Q)
  (imageWidth imageHeight : option Q) :
  ratio = "9:16"%string \/ (space = "L"%string /\ ownKey ratio = true) ->
  F64.getCaptionYPosition ratio space canvasHeight padBottom imageDrawTop
    imageDrawHeight captionHeight imageWidth imageHeight
  == imageDrawTop + imageDrawHeight + 0.02 * canvasHeight.
Proof.
  intros Hreg. unfold F64.getCaptionYPosition.
  destruct (ratio =? "9:16")%string eqn:E916.
  - cbn. reflexivity.
  - destruct Hreg as [-> | [-> _]]; [discriminate E916 |].
    cbn [String.eqb Ascii.eqb Bool.eqb].
    destruct (CAPTION_DISTANCE_any ratio) as [-> | ->]; cbn; reflexivity.
Qed.

Lemma getCaptionYPosition_fixed_any_ratio_witness :
  F64.getCaptionYPosition "4:3" "L" 600 80 40 300 20 None None
  == 40 + 300 + 0.02 * 600.
Proof.
  apply (getCaptionYPosition_fixed_any_ratio "4:3" "L" 600 80 40 300 20
           None None).
  right. split; reflexivity.
Defined.

(** The value of [getCaptionYOffset], for arbitrary own keys and inputs:
    the fixed distance or 0 under spacing "L", and otherwise one of the
    table entries, possibly lowered by one small-screen constant. *)
Lemma getCaptionYOffset_values (ratio space : string)
  (imageWidth imageHeight canvasH : option Q) :
  In (F64.getCaptionYOffset ratio space imageWidth imageHeight canvasH)
     (if (space =? "L")%string then [0.02; 0]
      else [0; -0.003; -0.0015; -0.045; -0.037; -0.012;
            0 - 0.021; -0.012 - 0.012]).
Proof.
  unfold F64.getCaptionYOffset.
  destruct (space =? "L")%string eqn:EL.
  { destruct (CAPTION_DISTANCE_any ratio) as [-> | ->]; cbn; auto. }
  unfold CAPTION_Y_OFFSET_RATIO, CAPTION_Y_OFFSET_RATIO_57IMG,
    CAPTION_Y_OFFSET_RATIO_23IMG, CAPTION_Y_OFFSET_RATIO_45IMG.
  rewrite !lookup2_two_rows.
  destruct (F64.imageRatioNear imageWidth imageHeight _ _);
    [repeat case_decide; cbn; tauto |].
  destruct (F64.imageRatioNear imageWidth imageHeight _ _);
    [repeat case_decide; cbn; tauto |].
  destruct (F64.imageRatioNear imageWidth imageHeight _ _);
    [repeat case_decide; cbn; tauto |].
  destruct (decide (ratio = "1:1"%string)) as [-> | N1];
    [| destruct (decide (ratio = "5:7"%string)) as [-> | N2]].
  - cbn [String.eqb Ascii.eqb Bool.eqb andb].
    destruct (decide (space = "S"%string)) as [-> | S1];
      [| destruct (decide (space = "M"%string)) as [-> | S2]].
    + cbn [String.eqb Ascii.eqb Bool.eqb andb default].
      destruct (canvasBelow canvasH 480); cbn; tauto.
    + cbn; tauto.
    + apply String.eqb_neq in S1. rewrite S1. cbn; tauto.
  - cbn [String.eqb Ascii.eqb Bool.eqb andb].
    destruct (decide (space = "S"%string)) as [-> | S1];
      [| destruct (decide (space = "M"%string)) as [-> | S2]].
    + cbn [String.eqb Ascii.eqb Bool.eqb andb default].
      destruct (canvasBelow canvasH 672); cbn; tauto.
    + cbn; tauto.
    + apply String.eqb_neq in S1. rewrite S1. cbn; tauto.
  - apply String.eqb_neq in N1, N2. rewrite N1, N2. cbn; tauto.
Qed.

(** X9. For ratio and spacing keys that are no inherited property
    names, whatever the image and the canvas, the offset fraction lies
    between -0.045 and 0.02, and outside spacing "L" it is never
    positive: the padding-centred caption is never moved down. *)
Theorem getCaptionYOffset_bounds (ratio space : string)
  (imageWidth imageHeight canvasH : option Q) :
  ownKey ratio = true -> ownKey space = true ->
  let offset :=
    F64.getCaptionYOffset ratio space imageWidth imageHeight canvasH in
  -0.045 <= offset /\ offset <= 0.02 /\
  (if (space =? "L")%string then 0 <= offset else offset <= 0).
Proof.
  intros _ _ offset.
  pose proof (getCaptionYOffset_values ratio space imageWidth imageHeight
                canvasH) as Hin.
  fold offset in Hin. clearbody offset.
  destruct (space =? "L")%string; cbn in Hin;
    decompose [or] Hin; try contradiction; subst offset;
    repeat split; discriminate.
Qed.

Lemma getCaptionYOffset_bounds_witness :
  F64.getCaptionYOffset "5:7" "S" (Some 850) (Some 1000) (Some 420)
  == -0.045 /\
  -0.045 <= F64.getCaptionYOffset "4:3" "XL" (Some 850) (Some 1000) None /\
  F64.getCaptionYOffset "4:3" "XL" (Some 850) (Some 1000) None <= 0.
Proof.
  split; [vm_compute; reflexivity |].
  pose proof (getCaptionYOffset_bounds "4:3" "XL" (Some 850) (Some 1000)
                None eq_refl eq_refl) as (H1 & _ & H3).
  split; [exact H1 | exact H3].
Defined.

(** ** Caption metrics *)

Lemma outputShortSide_cases (ratio : string) :
  In (outputShortSide ratio)
     [outputShortSide "1:1"; outputShortSide "5:7"; outputShortSide "9:16"].
Proof.
  unfold outputShortSide at 1.
  destruct (ratio =? "1:1")%string; [left; reflexivity |].
  destruct (ratio =? "5:7")%string; [right; left | right; right; left];
    reflexivity.
Qed.

(** One length of the caption before [Math.round]: three roundings away
    from the exact [c * s]. *)
Lemma caption_length_error (S c s : Q) :
  In S [outputShortSide "1:1"; outputShortSide "5:7";
        outputShortSide "9:16"] ->
  In c [CAPTION_STYLE_font1; CAPTION_STYLE_font2; CAPTION_STYLE_lineGap] ->
  1 <= s ->
  Qabs (F64.mul (F64.mul S (F64.round c)) (F64.quot s S) - c * s)
  <= s * (1 # 18014398509481984).
Proof.
  intros HS Hc Hs.
  unfold F64.quot. unfold F64.mul at 1.
  cbn [In] in HS, Hc.
  destruct HS as [<- | [<- | [<- | []]]];
    destruct Hc as [<- | [<- | [<- | []]]];
    match goal with
    | |- Qabs (F64.round (?a * F64.round (s / ?S)) - ?c * s) <= _ =>
        let A := eval vm_compute in a in
        let K := eval vm_compute in (/ S) in
        let C := eval vm_compute in c in
        replace a with A by (vm_compute; reflexivity);
        rewrite (round_comp (s / S) (s * K))
          by (unfold Qdiv; apply Qmult_comp; [reflexivity |];
              vm_compute; reflexivity);
        change c with C;
        pose proof (round_nonneg_bounds (s * K)) as Hq;
        set (q := F64.round (s * K)) in *;
        assert (Hq' : 0 <= s * K) by lra;
        specialize (Hq Hq');
        pose proof (round_nonneg_bounds (A * q)) as Hp;
        set (p := F64.round (A * q)) in *;
        unfold ulp53, tiny in *;
        assert (Hp' : 0 <= A * q) by lra;
        specialize (Hp Hp');
        apply Qabs_Qle_condition; split; lra
    end.
Qed.

(** X10. The two font sizes and the line gap are [Math.round] of a
    double that lies within [s / 2^54] of 2.3 %, 1.9 % and 0.7 % of the
    short side [s] of the canvas being drawn, whatever the ratio key:
    the reference short side of the output cancels out up to the
    rounding of two products and a quotient.  That rounding decides
    when the exact value ends in one half: the second line on a canvas
    of 1350 x 500 at 9:16 is set in 9 px, not in
    [round(0.019 * 500) = 10], and the first line on 1500 x 2100 at 5:7
    in 34 px, not in 35. *)
Theorem caption_metrics_from_short_side (width height : Q) (ratio : string) :
  let s := Math_min width height in
  1 <= s ->
  (exists v1 v2 v3,
     baseFontPx1 width height ratio = Math_round v1 /\
     Qabs (v1 - 0.023 * s) <= s * (1 # 18014398509481984) /\
     baseFontPx2 width height ratio = Math_round v2 /\
     Qabs (v2 - 0.019 * s) <= s * (1 # 18014398509481984) /\
     lineGap width height ratio = Math_round v3 /\
     Qabs (v3 - 0.007 * s) <= s * (1 # 18014398509481984)) /\
  (baseFontPx2 1350 500 "9:16" == 9 /\ Math_round (0.019 * 500) == 10) /\
  (baseFontPx1 1500 2100 "5:7" == 34 /\ Math_round (0.023 * 1500) == 35).
Proof.
  intros s Hs.
  split; [| split; split; vm_compute; reflexivity].
  pose proof (outputShortSide_cases ratio) as HS.
  unfold baseFontPx1, baseFontPx2, lineGap, captionScale. fold s.
  eexists _, _, _.
  split; [reflexivity |].
  split; [apply (caption_length_error _ CAPTION_STYLE_font1 s HS);
          [cbn; auto | exact Hs] |].
  split; [reflexivity |].
  split; [apply (caption_length_error _ CAPTION_STYLE_font2 s HS);
          [cbn; auto | exact Hs] |].
  split; [reflexivity |].
  apply (caption_length_error _ CAPTION_STYLE_lineGap s HS);
    [cbn; auto | exact Hs].
Qed.

Lemma caption_metrics_from_short_side_witness :
  exists v1 v2 v3,
    baseFontPx1 1350 500 "9:16" = Math_round v1 /\
    Qabs (v1 - 0.023 * Math_min 1350 500)
    <= Math_min 1350 500 * (1 # 18014398509481984) /\
    baseFontPx2 1350 500 "9:16" = Math_round v2 /\
    Qabs (v2 - 0.019 * Math_min 1350 500)
    <= Math_min 1350 500 * (1 # 18014398509481984) /\
    lineGap 1350 500 "9:16" = Math_round v3 /\
    Qabs (v3 - 0.007 * Math_min 1350 500)
    <= Math_min 1350 500 * (1 # 18014398509481984).
Proof.
  apply (caption_metrics_from_short_side 1350 500 "9:16"). discriminate.
Defined.

(** ** Mobile preview canvas *)

(** X11. On the mobile layout the preview is
    [floor(min(0.8 * innerWidth, 300))] wide and [round(width * rh / rw)]
    high for every window width and ratio; it is at most 300 by 534, so
    the branch that clamps the height to 600 is never taken. *)
Theorem mobile_preview_canvas (innerWidth : Q) (r : RatioType) :
  let w := Math_floor (Math_min (innerWidth * 0.80) 300) in
  let h := Math_round (w * (ratioPair r).2 / (ratioPair r).1) in
  previewCanvas innerWidth (Some true) r = (w, h) /\
  w <= 300 /\ h <= 534.
Proof.
  intros w h.
  assert (Hw : w <= 300).
  { subst w. unfold Math_floor.
    eapply Qle_trans; [apply Qfloor_le |].
    destruct (Math_min_spec (innerWidth * 0.80) 300) as [[H ->] | [H ->]]; lra. }
  assert (Hh : h <= 534).
  { subst h. destruct (Math_round_near (w * (ratioPair r).2 / (ratioPair r).1))
      as [_ Hr].
    eapply Qle_trans; [exact Hr |].
    destruct r; cbn [ratioPair fst snd];
      unfold Qdiv; change (/ 1) with 1; change (/ 5) with (1 # 5);
      change (/ 9) with (1 # 9); lra. }
  split; [| split; assumption].
  unfold previewCanvas. fold w.
  destruct r; cbn [ratioPair fst snd] in *; fold h;
    (assert (E : gtb h 600 = false) by (apply gtb_le; lra));
    rewrite E; reflexivity.
Qed.

(** ** Contrast colours *)

Lemma yiqColor_two_valued (r g b : option Z) :
  yiqColor r g b = "#222"%string \/ yiqColor r g b = "#fff"%string.
Proof.
  unfold yiqColor. destruct r, g, b; auto.
  destruct (Num.geb _ _); auto.
Qed.

Lemma getContrastColor_two_valued (color : string) :
  getContrastColor color = "#222"%string \/
  getContrastColor color = "#fff"%string.
Proof.
  unfold getContrastColor.
  repeat match goal with
         | |- context [if ?b then _ else _] => destruct b
         end; auto using yiqColor_two_valued.
  destruct (digitRuns "" color) as [| r [| g [| b rest]]];
    auto using yiqColor_two_valued.
Qed.

(** X12. Whatever string it is given, [getContrastColor] answers with one
    of its two text colours, [#222] or [#fff]. *)
Theorem getContrastColor_black_or_white (color : string) :
  getContrastColor color = "#222"%string \/
  getContrastColor color = "#fff"%string.
Proof. apply getContrastColor_two_valued. Qed.

(** X13. The caption is never drawn in the colour of the frame: for every
    frame colour other than [#222], which no colour selection produces,
    both line colours differ from the frame colour. *)
Theorem caption_color_differs_from_frame (frameColor : string) :
  frameColor <> "#222"%string ->
  (captionColors frameColor).1 <> frameColor /\
  (captionColors frameColor).2 <> frameColor.
Proof.
  intros H222. unfold captionColors.
  destruct (frameColor =? SNAP_COLORS_pattern2)%string eqn:E2.
  { apply String.eqb_eq in E2. subst. cbn. split; discriminate. }
  destruct (frameColor =? SNAP_COLORS_pattern1)%string eqn:E1.
  { apply String.eqb_eq in E1. subst. cbn. split; discriminate. }
  cbn [orb fst snd].
  assert (Hd : getContrastColor frameColor <> frameColor).
  { destruct (getContrastColor_two_valued frameColor) as [E | E].
    - rewrite E. congruence.
    - intros Hf. rewrite E in Hf. subst frameColor. discriminate E. }
  split; exact Hd.
Qed.

Lemma caption_color_differs_from_frame_witness :
  (captionColors "#0037A6").1 <> "#0037A6"%string /\
  (captionColors "#0037A6").2 <> "#0037A6"%string.
Proof. apply (caption_color_differs_from_frame "#0037A6"). discriminate. Defined.

(** ** Hue, saturation and lightness *)

Import Sampling.

Lemma Math_max_spec (x y : Q) :
  (x <= y /\ Math_max x y = y) \/ (y < x /\ Math_max x y = x).
Proof.
  unfold Math_max. destruct (Qle_bool x y) eqn:E.
  - left. split; [now apply Qle_bool_iff | reflexivity].
  - right. split; [| reflexivity].
    apply Qnot_le_lt. intros H. apply Qle_bool_iff in H. congruence.
Qed.

Lemma Math_max3_spec (a b c : Q) :
  let m := Math_max3 a b c in
  a <= m /\ b <= m /\ c <= m /\ (m = a \/ m = b \/ m = c).
Proof.
  unfold Math_max3.
  destruct (Math_max_spec a b) as [[H1 ->] | [H1 ->]];
    [destruct (Math_max_spec b c) as [[H2 ->] | [H2 ->]]
    | destruct (Math_max_spec a c) as [[H2 ->] | [H2 ->]]];
    cbv zeta; repeat split; auto; lra.
Qed.

Lemma Math_min3_spec (a b c : Q) :
  let m := Math_min3 a b c in
  m <= a /\ m <= b /\ m <= c /\ (m = a \/ m = b \/ m = c).
Proof.
  unfold Math_min3.
  destruct (Math_min_spec a b) as [[H1 ->] | [H1 ->]];
    [destruct (Math_min_spec a c) as [[H2 ->] | [H2 ->]]
    | destruct (Math_min_spec b c) as [[H2 ->] | [H2 ->]]];
    cbv zeta; repeat split; auto; lra.
Qed.

(** A quotient by a positive number, between two bounds. *)
Lemma quotient_between (x d lo hi : Q) :
  0 < d -> lo * d <= x -> x <= hi * d -> lo <= x / d /\ x / d <= hi.
Proof.
  intros Hd Hlo Hhi. split.
  - apply Qle_shift_div_l; assumption.
  - apply Qle_shift_div_r; assumption.
Qed.

Lemma quotient_negative (x d : Q) : 0 < d -> x < 0 -> x / d < 0.
Proof.
  intros Hd Hx. apply Qlt_shift_div_r; [assumption |]. lra.
Qed.

Lemma unit_channel (c : Q) : 0 <= c -> c <= 255 -> 0 <= c / 255 /\ c / 255 <= 1.
Proof.
  intros H0 H1. apply quotient_between; lra.
Qed.

(** X14. For channels between 0 and 255, [rgbToHsl] returns a hue in
    [0, 1) and a saturation and a lightness in [0, 1]; a grey (equal
    channels) has hue 0 and saturation 0. *)
Theorem rgbToHsl_range (r g b : Q) :
  0 <= r <= 255 -> 0 <= g <= 255 -> 0 <= b <= 255 ->
  let '(h, s, l) := rgbToHsl r g b in
  (0 <= h /\ h < 1) /\ (0 <= s /\ s <= 1) /\ (0 <= l /\ l <= 1) /\
  (r == g -> g == b -> h == 0 /\ s == 0).
Proof.
  intros [Hr0 Hr1] [Hg0 Hg1] [Hb0 Hb1]. unfold rgbToHsl.
  destruct (unit_channel r Hr0 Hr1) as [R0 R1].
  destruct (unit_channel g Hg0 Hg1) as [G0 G1].
  destruct (unit_channel b Hb0 Hb1) as [B0 B1].
  assert (Egrey : r == g -> g == b ->
                  Math_max3 (r / 255) (g / 255) (b / 255)
                  == Math_min3 (r / 255) (g / 255) (b / 255)).
  { intros E1 E2.
    assert (E1' : r / 255 == g / 255) by now rewrite E1.
    assert (E2' : g / 255 == b / 255) by now rewrite E2.
    pose proof (Math_max3_spec (r / 255) (g / 255) (b / 255)) as M.
    pose proof (Math_min3_spec (r / 255) (g / 255) (b / 255)) as N.
    cbv zeta in M, N. destruct M as (M1 & M2 & M3 & M4).
    destruct N as (N1 & N2 & N3 & N4).
    set (mx := Math_max3 _ _ _) in *. set (mn := Math_min3 _ _ _) in *.
    set (R := r / 255) in *. set (G := g / 255) in *. set (B := b / 255) in *.
    clearbody mx mn R G B.
    destruct M4 as [-> | [-> | ->]]; destruct N4 as [-> | [-> | ->]]; lra. }
  pose proof (Math_max3_spec (r / 255) (g / 255) (b / 255)) as M.
  pose proof (Math_min3_spec (r / 255) (g / 255) (b / 255)) as N.
  cbv zeta in M, N. destruct M as (M1 & M2 & M3 & M4).
  destruct N as (N1 & N2 & N3 & N4).
  set (mx := Math_max3 _ _ _) in *. set (mn := Math_min3 _ _ _) in *.
  set (R := r / 255) in *. set (G := g / 255) in *. set (B := b / 255) in *.
  assert (Hmx : 0 <= mx /\ mx <= 1).
  { destruct M4 as [-> | [-> | ->]]; split; assumption. }
  assert (Hmn : 0 <= mn /\ mn <= 1).
  { destruct N4 as [-> | [-> | ->]]; split; assumption. }
  clearbody mx mn R G B. clear M4 N4.
  assert (Hl : 0 <= (mx + mn) / 2 /\ (mx + mn) / 2 <= 1).
  { apply quotient_between; lra. }
  destruct (Num.eqb mx mn) eqn:Eeq.
  { repeat split; try lra; try reflexivity; discriminate. }
  assert (Hd : 0 < mx - mn).
  { assert (~ mx == mn) by (intros E; apply eqb_eq in E; congruence). lra. }
  assert (Hs : 0 <= (if gtb ((mx + mn) / 2) 0.5
                     then (mx - mn) / (2 - mx - mn)
                     else (mx - mn) / (mx + mn))
               /\ (if gtb ((mx + mn) / 2) 0.5
                   then (mx - mn) / (2 - mx - mn)
                   else (mx - mn) / (mx + mn)) <= 1).
  { destruct (gtb ((mx + mn) / 2) 0.5); apply quotient_between; lra. }
  set (d := mx - mn) in *.
  assert (Hh : 0 <= (if Num.eqb mx R
                     then (G - B) / d + (if ltb G B then 6 else 0)
                     else if Num.eqb mx G then (B - R) / d + 2
                          else if Num.eqb mx B then (R - G) / d + 4 else 0)
               /\ (if Num.eqb mx R
                   then (G - B) / d + (if ltb G B then 6 else 0)
                   else if Num.eqb mx G then (B - R) / d + 2
                        else if Num.eqb mx B then (R - G) / d + 4 else 0) < 6).
  { destruct (Num.eqb mx R) eqn:ER; [| destruct (Num.eqb mx G) eqn:EG;
                                       [| destruct (Num.eqb mx B) eqn:EB]].
    - apply eqb_eq in ER.
      destruct (ltb G B) eqn:EGB.
      + apply ltb_lt in EGB.
        destruct (quotient_between (G - B) d (-1) 0 Hd) as [Q1 Q2];
          [subst d; lra | lra |].
        pose proof (quotient_negative (G - B) d Hd). lra.
      + apply ltb_ge in EGB.
        destruct (quotient_between (G - B) d 0 1 Hd) as [Q1 Q2];
          [lra | subst d; lra | lra].
    - apply eqb_eq in EG.
      destruct (quotient_between (B - R) d (-1) 1 Hd) as [Q1 Q2];
        [subst d; lra | subst d; lra | lra].
    - apply eqb_eq in EB.
      destruct (quotient_between (R - G) d (-1) 1 Hd) as [Q1 Q2];
        [subst d; lra | subst d; lra | lra].
    - lra. }
  set (h6 := if Num.eqb mx R then _ else _) in *. clearbody h6.
  set (s := if gtb ((mx + mn) / 2) 0.5 then _ else _) in *. clearbody s.
  assert (Hh6 : 0 <= h6 / 6 /\ h6 / 6 < 1).
  { split; [apply Qle_shift_div_l; lra | apply Qlt_shift_div_r; lra]. }
  repeat split; try lra.
  - exfalso. apply not_true_iff_false in Eeq. apply Eeq, eqb_eq.
    now apply Egrey.
  - exfalso. apply not_true_iff_false in Eeq. apply Eeq, eqb_eq.
    now apply Egrey.
Qed.

Lemma rgbToHsl_range_witness :
  let '(h, s, l) := rgbToHsl 10 200 30 in
  (0 <= h /\ h < 1) /\ (0 <= s /\ s <= 1) /\ (0 <= l /\ l <= 1) /\
  (10 == 200 -> 200 == 30 -> h == 0 /\ s == 0).
Proof.
  apply (rgbToHsl_range 10 200 30); split; discriminate.
Defined.

(** ** Printing and reading back a colour *)

Lemma of_uint_acc_value (d : Decimal.uint) (acc : positive) :
  Z.pos (Pos.of_uint_acc d acc) = uintValue (Z.pos acc) d.
Proof.
  revert acc. induction d; intros acc; cbn [Pos.of_uint_acc uintValue];
    [reflexivity | rewrite IHd; f_equal; lia ..].
Qed.

Lemma of_uint_value (d : Decimal.uint) :
  Z.of_N (Pos.of_uint d) = uintValue 0 d.
Proof.
  induction d; cbn [Pos.of_uint uintValue];
    [reflexivity | exact IHd | cbn [Z.of_N]; apply of_uint_acc_value ..].
Qed.

Lemma parsePrefix_uint (acc : Z) (d : Decimal.uint) :
  parsePrefix decDigit 10 (Some acc) (NilEmpty.string_of_uint d)
  = Some (uintValue acc d).
Proof.
  revert acc. induction d; intros acc;
    cbn [NilEmpty.string_of_uint parsePrefix uintValue];
    [reflexivity | apply IHd ..].
Qed.

Lemma parseInt10_uint (d : Decimal.uint) :
  d <> Decimal.Nil ->
  parseInt10 (NilEmpty.string_of_uint d) = Some (uintValue 0 d).
Proof.
  intros Hd. unfold parseInt10.
  destruct d; [contradiction | ..];
    cbn [NilEmpty.string_of_uint parsePrefix uintValue];
    apply parsePrefix_uint.
Qed.

(** The numeral of [n] is a non-empty digit list whose value is [n]. *)
Lemma decimal_uint (n : N) :
  exists d, d <> Decimal.Nil /\
            decimal n = NilEmpty.string_of_uint d /\
            uintValue 0 d = Z.of_N n.
Proof.
  unfold decimal.
  pose proof (DecimalN.Unsigned.of_to n) as Hn. unfold N.of_uint in Hn.
  destruct (N.to_uint n) eqn:E.
  1: { exists (Decimal.D0 Decimal.Nil). split; [discriminate |].
       split; [reflexivity |]. cbn in Hn. subst n. reflexivity. }
  all: eexists; split; [| split; [reflexivity |]]; [discriminate |];
    rewrite <- of_uint_value; now rewrite Hn.
Qed.

(** Reading back a printed number: [parseInt(String(n), 10)] is [n]. *)
Lemma parseInt10_decimal (n : N) :
  parseInt10 (decimal n) = Some (Z.of_N n).
Proof.
  destruct (decimal_uint n) as (d & Hd & -> & Hv).
  rewrite parseInt10_uint by exact Hd. now rewrite Hv.
Qed.

Lemma string_app_assoc (a b c : string) :
  ((a ++ b) ++ c = a ++ (b ++ c))%string.
Proof.
  induction a as [| x a IH]; [reflexivity |].
  change (String x ((a ++ b) ++ c) = String x (a ++ (b ++ c)))%string.
  now f_equal.
Qed.

Lemma string_app_nil_r (a : string) : (a ++ "" = a)%string.
Proof.
  induction a as [| x a IH]; [reflexivity |].
  change (String x (a ++ "") = String x a)%string. now f_equal.
Qed.

Lemma string_app_cons (c : ascii) (s r : string) :
  (String c s ++ r = String c (s ++ r))%string.
Proof. reflexivity. Qed.

Lemma digitRuns_digit (cur : string) (c : ascii) (v : Z) (rest : string) :
  decDigit c = Some v ->
  digitRuns cur (String c rest)
  = digitRuns (cur ++ String c EmptyString)%string rest.
Proof. intros H. simpl digitRuns. now rewrite H. Qed.

Lemma digitRuns_nondigit (cur : string) (c : ascii) (rest : string) :
  decDigit c = None -> (cur =? "")%string = false ->
  digitRuns cur (String c rest) = cur :: digitRuns "" rest.
Proof. intros H E. simpl digitRuns. now rewrite H, E. Qed.

(** A numeral in front of the text is collected into the current run. *)
Lemma digitRuns_uint (cur : string) (d : Decimal.uint) (rest : string) :
  digitRuns cur (NilEmpty.string_of_uint d ++ rest)%string
  = digitRuns (cur ++ NilEmpty.string_of_uint d)%string rest.
Proof.
  revert cur. induction d; intros cur; simpl NilEmpty.string_of_uint;
    [now rewrite string_app_nil_r | ..];
    rewrite string_app_cons;
    erewrite digitRuns_digit by reflexivity;
    rewrite IHd, string_app_assoc; reflexivity.
Qed.

Lemma string_of_uint_nonempty (d : Decimal.uint) :
  d <> Decimal.Nil -> (NilEmpty.string_of_uint d =? "")%string = false.
Proof. intros Hd. destruct d; [contradiction | reflexivity ..]. Qed.

(** A numeral followed by a character that is not a digit is one run. *)
Lemma digitRuns_numeral (n : N) (c : ascii) (rest : string) :
  decDigit c = None ->
  digitRuns "" (decimal n ++ String c rest)%string
  = decimal n :: digitRuns "" rest.
Proof.
  intros Hc. destruct (decimal_uint n) as (d & Hd & E & _). rewrite E.
  rewrite digitRuns_uint.
  change ("" ++ NilEmpty.string_of_uint d)%string
    with (NilEmpty.string_of_uint d).
  apply digitRuns_nondigit; [exact Hc | now apply string_of_uint_nonempty].
Qed.

Lemma digitRuns_skip (c : ascii) (rest : string) :
  decDigit c = None -> digitRuns "" (String c rest) = digitRuns "" rest.
Proof. intros H. simpl digitRuns. now rewrite H. Qed.

Lemma digitRuns_rgbString (r g b : N) :
  digitRuns "" (rgbString r g b) = [decimal r; decimal g; decimal b].
Proof.
  unfold rgbString.
  change ("rgb(" ++ decimal r ++ "," ++ decimal g ++ "," ++ decimal b ++ ")")%string
    with (String "r"%char (String "g"%char (String "b"%char (String "("%char
           (decimal r ++ String ","%char
              (decimal g ++ String ","%char
                 (decimal b ++ String ")"%char EmptyString)))))))%string.
  rewrite 4 digitRuns_skip by reflexivity.
  rewrite (digitRuns_numeral r ","%char) by reflexivity.
  rewrite (digitRuns_numeral g ","%char) by reflexivity.
  rewrite (digitRuns_numeral b ")"%char) by reflexivity.
  reflexivity.
Qed.

Lemma yiq_threshold (z : Z) :
  Num.geb (inject_Z z / 1000) 128 = (128000 <=? z)%Z.
Proof.
  apply eq_true_iff_eq. unfold Num.geb.
  rewrite Qle_bool_iff, Z.leb_le. split.
  - intros H.
    assert (H2 : 128 * 1000 <= inject_Z z).
    { apply (Qmult_le_compat_r _ _ 1000) in H; [| discriminate].
      now rewrite div_mul_cancel in H by discriminate. }
    change (128 * 1000) with (inject_Z 128000) in H2.
    now rewrite Zle_Qle.
  - intros H. apply Qle_shift_div_l; [reflexivity |].
    change (128 * 1000) with (inject_Z 128000). now rewrite <- Zle_Qle.
Qed.

(** X15. A colour printed as [rgb(r,g,b)] is read back exactly: its
    caption colour is [#222] when [299 r + 587 g + 114 b >= 128000] and
    [#fff] otherwise, for all non-negative integers [r], [g], [b]. *)
Theorem getContrastColor_rgbString (r g b : N) :
  getContrastColor (rgbString r g b)
  = if (128000 <=? 299 * r + 587 * g + 114 * b)%N
    then "#222"%string else "#fff"%string.
Proof.
  unfold getContrastColor.
  change (String.prefix "rgb" (rgbString r g b)) with true.
  change (rgbString r g b =? "#fff")%string with false.
  change (rgbString r g b =? "#ffffff")%string with false.
  change (rgbString r g b =? "#111")%string with false.
  change (rgbString r g b =? "#000")%string with false.
  change (rgbString r g b =? "#000000")%string with false.
  change (toLowerCase (rgbString r g b) =? "#008080")%string with false.
  change (String.prefix "#" (rgbString r g b)) with false.
  cbn [orb andb]. rewrite digitRuns_rgbString, !parseInt10_decimal.
  unfold yiqColor. rewrite yiq_threshold.
  assert (E : (128000 <=? Z.of_N r * 299 + Z.of_N g * 587 + Z.of_N b * 114)%Z
              = (128000 <=? 299 * r + 587 * g + 114 * b)%N).
  { apply eq_true_iff_eq. rewrite Z.leb_le, N.leb_le. lia. }
  now rewrite E.
Qed.

(** ** Sampled colours *)

Lemma Math_max_same (a : Q) : Math_max a a = a.
Proof. unfold Math_max. now destruct (Qle_bool a a). Qed.

Lemma Math_min_same (a : Q) : Math_min a a = a.
Proof. unfold Math_min. now destruct (Qle_bool a a). Qed.

Lemma grey_not_highlight (p : Pixel) :
  px_r p = px_g p -> px_g p = px_b p -> isHighlight p = false.
Proof.
  intros E1 E2. unfold isHighlight, rgbToHsl, Math_max3, Math_min3.
  rewrite E1, E2, !Math_max_same, !Math_min_same.
  assert (E : Num.eqb (NtoQ (px_b p) / 255) (NtoQ (px_b p) / 255) = true).
  { apply eqb_eq. reflexivity. }
  rewrite E. apply andb_false_r.
Qed.

(** X16. A photo without colour has no highlight colour: when every
    sampled pixel is grey (equal red, green and blue),
    [getHighlightColor] falls back to [#e53e3e]. *)
Theorem getHighlightColor_grey (data : list Pixel) :
  Forall (fun p => px_r p = px_g p /\ px_g p = px_b p) data ->
  getHighlightColor_data data = "#e53e3e"%string.
Proof.
  intros Hgrey. unfold getHighlightColor_data.
  assert (E : List.filter isHighlight data = []).
  { induction Hgrey as [| p rest [E1 E2] _ IH]; [reflexivity |].
    cbn [List.filter]. now rewrite (grey_not_highlight p E1 E2). }
  now rewrite E.
Qed.

Lemma getHighlightColor_grey_witness :
  getHighlightColor_data [mkPixel 10 10 10 255; mkPixel 200 200 200 255]
  = "#e53e3e"%string.
Proof.
  apply getHighlightColor_grey.
  repeat constructor.
Defined.

Lemma sumBy_acc (f : Pixel -> N) (data : list Pixel) (acc : N) :
  fold_left (fun a p => (a + f p)%N) data acc = (acc + sumBy f data)%N.
Proof.
  unfold sumBy. revert acc.
  induction data as [| p rest IH]; intros acc; cbn [fold_left].
  - lia.
  - rewrite IH, (IH (0 + f p)%N). lia.
Qed.

Lemma sumBy_cons (f : Pixel -> N) (p : Pixel) (rest : list Pixel) :
  sumBy f (p :: rest) = (f p + sumBy f rest)%N.
Proof. unfold sumBy at 1. cbn [fold_left]. rewrite sumBy_acc. lia. Qed.

Lemma sumBy_bound (f : Pixel -> N) (data : list Pixel) (m : N) :
  Forall (fun p => (f p <= m)%N) data ->
  (sumBy f data <= m * N.of_nat (List.length data))%N.
Proof.
  induction 1 as [| p rest Hp _ IH].
  - cbn. lia.
  - rewrite sumBy_cons. cbn [List.length]. lia.
Qed.

(** The rounded mean of values that are at most 255 is at most 255. *)
Lemma roundN_mean_bound (s n : N) :
  (0 < n)%N -> (s <= 255 * n)%N -> (roundN (NtoQ s / NtoQ n) <= 255)%N.
Proof.
  intros Hn Hs. unfold roundN.
  assert (Hq : NtoQ s / NtoQ n <= 255).
  { apply Qle_shift_div_r; [now apply NtoQ_pos |].
    unfold NtoQ. change 255 with (inject_Z 255).
    rewrite <- inject_Z_mult, <- Zle_Qle. lia. }
  assert (Hf : (Qfloor (NtoQ s / NtoQ n + (1 # 2)) <= 255)%Z).
  { change 255%Z with (Qfloor (255 + (1 # 2))).
    apply Qfloor_resp_le. lra. }
  lia.
Qed.

(** X17. The automatic colour is a legal colour: for the hundred pixels
    of the 10 x 10 copy, each channel at most 255, [getDominantColor]
    returns [rgb(r,g,b)] with [r], [g] and [b] at most 255. *)
Theorem getDominantColor_channels (data : list Pixel) :
  List.length data = 100%nat -> Forall byteChannels data ->
  exists r g b : N,
    getDominantColor_data data = rgbString r g b /\
    (r <= 255 /\ g <= 255 /\ b <= 255)%N.
Proof.
  intros Hlen Hbytes. unfold getDominantColor_data.
  do 3 eexists. split; [reflexivity |].
  assert (Hb : forall f, (forall p, byteChannels p -> (f p <= 255)%N) ->
                         (roundN (NtoQ (sumBy f data) / 100) <= 255)%N).
  { intros f Hf. change 100 with (NtoQ 100).
    apply roundN_mean_bound; [lia |].
    pose proof (sumBy_bound f data 255) as Hs. rewrite Hlen in Hs.
    apply Hs. eapply Forall_impl; [exact Hbytes | exact Hf]. }
  repeat split; apply Hb; intros p (H1 & H2 & H3); assumption.
Qed.

Lemma getDominantColor_channels_witness :
  exists r g b : N,
    getDominantColor_data (List.repeat (mkPixel 12 34 56 255) 100)
    = rgbString r g b /\
    (r <= 255 /\ g <= 255 /\ b <= 255)%N.
Proof.
  apply (getDominantColor_channels (List.repeat (mkPixel 12 34 56 255) 100)).
  - reflexivity.
  - apply List.Forall_forall. intros p Hp. apply repeat_spec in Hp. subst p.
    repeat split; discriminate.
Defined.

(** ** Uploads *)



(** An invariant of the steps holds after every sequence of events. *)
Lemma run_invariant (B : Browser) (center highlight : Image -> string)
  (P : UI -> Prop) :
  P initialUI ->
  (forall ui e, P ui -> P (step B center highlight ui e)) ->
  forall events, P (run B center highlight events).
Proof.
  intros H0 Hstep events. unfold run.
  generalize dependent initialUI.
  induction events as [| e rest IH]; intros ui Hui; [exact Hui |].
  cbn [fold_left]. apply IH, Hstep, Hui.
Qed.

(** A change of colour leaves the photo alone. *)
Lemma colorChange_image (B : Browser) (center highlight : Image -> string)
  (key : string) (st : State) :
  image (colorChange B center highlight key st) = image st.
Proof.
  unfold colorChange.
  repeat match goal with
         | |- context [if ?b then _ else _] => destruct b
         end;
    destruct (image st) eqn:Ei; cbn; rewrite ?Ei; reflexivity.
Qed.



(** ** The controls *)

(** X19. The automatic colour is always the sample of the current photo
    under the current pattern: after any sequence of events, if a photo
    is stored, [autoColor] is what the sampler selected by [autoPattern]
    returns for it. *)
Theorem autoColor_matches_pattern (B : Browser)
  (center highlight : Image -> string) (events : list Event) :
  let st := ui_state (run B center highlight events) in
  match image st with
  | Some img => autoColor st = sampleAuto B center highlight (autoPattern st) img
  | None => True
  end.
Proof.
  cbv zeta.
  apply (run_invariant B center highlight
           (fun ui => match image (ui_state ui) with
                      | Some img =>
                          autoColor (ui_state ui)
                          = sampleAuto B center highlight
                              (autoPattern (ui_state ui)) img
                      | None => True
                      end)).
  - exact I.
  - intros ui e Hi.
    destruct e as [files | key | r | s | | | | v | v]; cbn [step ui_state].
    + destruct files as [| file more]; [exact Hi |].
      cbn [handleFilesUpload]. unfold img_onload.
      destruct (isSupportedAspectRatio _ _); cbn; [reflexivity | exact Hi].
    + unfold handleColorChange, unlockAnd, colorChange. cbn [ui_state].
      destruct (image (ui_state ui)) as [img |] eqn:Ei;
        repeat match goal with
               | |- context [if ?b then _ else _] => destruct b
               end;
        cbn; rewrite ?Ei; cbn; first [exact Hi | reflexivity | exact I].
    + exact Hi.
    + exact Hi.
    + exact I.
    + exact Hi.
    + exact Hi.
    + exact Hi.
    + exact Hi.
Qed.

(** X20. The print lock is consistent after any sequence of events: the
    Print button is disabled exactly when the status is "done", and
    whenever it is disabled the Cancel button reads "Reset"; any change
    of colour, ratio or spacing enables it again. *)
Theorem print_lock_consistent (B : Browser)
  (center highlight : Image -> string) (events : list Event) :
  let ui := run B center highlight events in
  isPrintDisabled ui = printDone ui /\
  (isPrintDisabled ui = true -> showResetButton ui = true) /\
  (forall key r s,
     isPrintDisabled (step B center highlight ui (ColorChange key)) = false /\
     isPrintDisabled (step B center highlight ui (RatioChange r)) = false /\
     isPrintDisabled (step B center highlight ui (SpaceChange s)) = false).
Proof.
  intros ui. split; [| split].
  - subst ui.
    apply (run_invariant B center highlight
             (fun ui => isPrintDisabled ui = printDone ui)).
    + reflexivity.
    + intros ui e Hi. destruct e; cbn; try exact Hi; try reflexivity;
        unfold handleColorChange, unlockAnd; cbn;
        destruct (isPrintDisabled ui); first [reflexivity | exact Hi].
  - subst ui.
    apply (run_invariant B center highlight
             (fun ui => isPrintDisabled ui = true -> showResetButton ui = true)).
    + discriminate.
    + intros ui e Hi. destruct e; cbn; try exact Hi; try discriminate;
        reflexivity.
  - intros key r s. repeat split.
Qed.

(** X21. Clicking one of the two-pattern swatches ("snap" or
    "retroblue"): the selection becomes that colour; if it already was,
    one click changes the frame colour and a second click brings the
    previous one back; if it was not, the frame always gets the first
    pattern, whichever pattern was shown last time. *)
Theorem two_pattern_click (B : Browser) (center highlight : Image -> string)
  (key : string) (st : State) :
  key = "snap"%string \/ key = "retroblue"%string ->
  let st1 := colorChange B center highlight key st in
  let st2 := colorChange B center highlight key st1 in
  color st1 = key /\
  (if (color st =? key)%string
   then frameColorOf st1 <> frameColorOf st /\
        frameColorOf st2 = frameColorOf st
   else frameColorOf st1 = getFrameColor key "" Pattern1 Pattern1).
Proof.
  intros [-> | ->]; cbv zeta; unfold colorChange, frameColorOf;
    cbn [String.eqb Ascii.eqb Bool.eqb].
  - destruct (color st =? "snap")%string eqn:E.
    + apply String.eqb_eq in E. destruct st; cbn in E; subst; cbn.
      split; [reflexivity |].
      match goal with |- context [togglePattern ?p] => destruct p end;
        cbn; split; first [discriminate | reflexivity].
    + cbn. split; reflexivity.
  - destruct (color st =? "retroblue")%string eqn:E.
    + apply String.eqb_eq in E. destruct st; cbn in E; subst; cbn.
      split; [reflexivity |].
      match goal with |- context [togglePattern ?p] => destruct p end;
        cbn; split; first [discriminate | reflexivity].
    + cbn. split; reflexivity.
Qed.

Lemma two_pattern_click_witness :
  let st := colorChange desktopBrowser (fun _ => "rgb(1,2,3)"%string)
              (fun _ => "#e53e3e"%string) "snap" initialState in
  let st1 := colorChange desktopBrowser (fun _ => "rgb(1,2,3)"%string)
               (fun _ => "#e53e3e"%string) "snap" st in
  frameColorOf st = "#00AD50"%string /\ frameColorOf st1 = "#FF9900"%string.
Proof.
  pose proof (two_pattern_click desktopBrowser (fun _ => "rgb(1,2,3)"%string)
                (fun _ => "#e53e3e"%string) "snap" initialState
                (or_introl eq_refl)) as H.
  cbv zeta in H. destruct H as [_ H]. split; [exact H | reflexivity].
Defined.

(** X22. With a photo loaded and "auto" selected, each further click on
    the auto swatch moves to the next of the three samplers and sets the
    frame colour to its sample; the third click is back at the sampler
    the cycle started from. *)
Theorem auto_click_cycle (B : Browser) (center highlight : Image -> string)
  (st : State) (img : Image) :
  color st = "auto"%string -> image st = Some img ->
  let click := colorChange B center highlight "auto" in
  let st1 := click st in
  let st3 := click (click st1) in
  autoPattern st1 = nextAutoPattern (autoPattern st) /\
  frameColorOf st1 = sampleAuto B center highlight (autoPattern st1) img /\
  autoPattern st1 <> autoPattern st /\
  autoPattern st3 = autoPattern st /\
  frameColorOf st3 = sampleAuto B center highlight (autoPattern st) img.
Proof.
  intros Hc Hi. cbv zeta. unfold colorChange, frameColorOf.
  cbn [String.eqb Ascii.eqb Bool.eqb].
  destruct st; cbn in Hc, Hi; subst; cbn.
  match goal with |- context [nextAutoPattern ?p] => destruct p end;
    cbn; repeat split; discriminate.
Qed.

Lemma auto_click_cycle_witness :
  let B := desktopBrowser in
  let center := fun _ : Image => "rgb(1,2,3)"%string in
  let highlight := fun _ : Image => "#e53e3e"%string in
  let st := colorChange B center highlight "auto"
              (handleFilesUpload B initialState [mkImage 3000 4000 1]) in
  frameColorOf (colorChange B center highlight "auto" st)
  = "rgb(1,2,3)"%string.
Proof.
  cbv zeta.
  pose proof (auto_click_cycle desktopBrowser (fun _ => "rgb(1,2,3)"%string)
                (fun _ => "#e53e3e"%string)
                (colorChange desktopBrowser (fun _ => "rgb(1,2,3)"%string)
                   (fun _ => "#e53e3e"%string) "auto"
                   (handleFilesUpload desktopBrowser initialState
                      [mkImage 3000 4000 1]))
                (mkImage 3000 4000 1) eq_refl eq_refl) as H.
  cbv zeta in H. destruct H as (_ & H & _). exact H.
Defined.

(** X23. The caption state stays consistent after any sequence of
    events: in manual mode (a film scan) the caption is the one built
    from the two manual inputs, and while no photo is stored there is no
    caption, no EXIF data and no manual mode. *)
Theorem caption_state_consistent (B : Browser)
  (center highlight : Image -> string) (events : list Event) :
  let st := ui_state (run B center highlight events) in
  (if isFilmScannerImage st
   then captionLines st = manualCaption (manualCamera st) (manualPlace st)
   else True) /\
  match image st with
  | Some _ => True
  | None => captionLines st = (""%string, ""%string) /\
            exifData st = None /\ isFilmScannerImage st = false
  end.
Proof.
  cbv zeta.
  apply (run_invariant B center highlight
           (fun ui =>
              let st := ui_state ui in
              (if isFilmScannerImage st
               then captionLines st
                    = manualCaption (manualCamera st) (manualPlace st)
               else True) /\
              match image st with
              | Some _ => True
              | None => captionLines st = (""%string, ""%string) /\
                        exifData st = None /\ isFilmScannerImage st = false
              end)).
  - cbn. auto.
  - intros ui e [H1 H2]. cbv zeta in *.
    destruct e as [files | key | r | s | | | | v | v]; cbn [step ui_state].
    + destruct files as [| file more]; [split; assumption |].
      cbn [handleFilesUpload]. unfold img_onload.
      destruct (isSupportedAspectRatio _ _); cbn; [| split; assumption].
      destruct (isFilmScanExif B _ _); cbn; auto.
    + unfold handleColorChange, unlockAnd. cbn [ui_state].
      rewrite colorChange_image.
      assert (E : forall st,
                 isFilmScannerImage (colorChange B center highlight key st)
                 = isFilmScannerImage st /\
                 captionLines (colorChange B center highlight key st)
                 = captionLines st /\
                 manualCamera (colorChange B center highlight key st)
                 = manualCamera st /\
                 manualPlace (colorChange B center highlight key st)
                 = manualPlace st /\
                 exifData (colorChange B center highlight key st)
                 = exifData st).
      { intros st. unfold colorChange.
        repeat match goal with
               | |- context [if ?b then _ else _] => destruct b
               end;
          destruct (image st); cbn; auto. }
      destruct (E (ui_state ui)) as (-> & -> & -> & -> & ->).
      split; assumption.
    + split; assumption.
    + split; assumption.
    + cbn. auto.
    + split; assumption.
    + split; assumption.
    + cbn. destruct (isFilmScannerImage (ui_state ui)) eqn:Ef.
      * split; [reflexivity |].
        destruct (image (ui_state ui)); [exact I |].
        destruct H2 as (_ & _ & H2). congruence.
      * split; [exact I | exact H2].
    + cbn. destruct (isFilmScannerImage (ui_state ui)) eqn:Ef.
      * split; [reflexivity |].
        destruct (image (ui_state ui)); [exact I |].
        destruct H2 as (_ & _ & H2). congruence.
      * split; [exact I | exact H2].
Qed.

(* ------------------------------------------------------------------ *)
(** ** Caption text *)

Lemma string_length_app (a b : string) :
  String.length (a ++ b)%string = (String.length a + String.length b)%nat.
Proof.
  induction a as [| c a IH]; [reflexivity |].
  simpl. now rewrite IH.
Qed.

Lemma substring_app_skip (a s : string) (n : nat) :
  substring (String.length a) n (a ++ s)%string = substring 0 n s.
Proof. induction a as [| c a IH]; [reflexivity | exact IH]. Qed.

Lemma substring_app_take (a s : string) :
  substring 0 (String.length a) (a ++ s)%string = a.
Proof.
  induction a as [| c a IH].
  - destruct s; reflexivity.
  - simpl. now rewrite IH.
Qed.

Lemma substring_all (s : string) : substring 0 (String.length s) s = s.
Proof.
  induction s as [| c s IH]; [reflexivity |].
  simpl. now rewrite IH.
Qed.

Lemma endsWith_app (a s suffix : string) :
  String.length s = String.length suffix ->
  endsWith (a ++ s)%string suffix = (s =? suffix)%string.
Proof.
  intros H. unfold endsWith. rewrite string_length_app, <- H.
  replace (String.length a + String.length s - String.length s)%nat
    with (String.length a) by lia.
  rewrite substring_app_skip, substring_all.
  replace (String.length s <=? String.length a + String.length s)%nat
    with true by (symmetry; apply Nat.leb_le; lia).
  reflexivity.
Qed.

Lemma dropLast_app (a s : string) (n : nat) :
  String.length s = n -> dropLast n (a ++ s)%string = a.
Proof.
  intros <-. unfold dropLast. rewrite string_length_app.
  replace (String.length a + String.length s - String.length s)%nat
    with (String.length a) by lia.
  apply substring_app_take.
Qed.

(** The display rule of [getFNumberString] on a numeral with one
    decimal. *)
Lemma fnumber_display (a d : string) :
  String.length d = 1%nat ->
  (if endsWith (a ++ "." ++ d)%string ".0"
   then dropLast 2 (a ++ "." ++ d)%string
   else (a ++ "." ++ d)%string)
  = (a ++ (if (d =? "0")%string then "" else "." ++ d))%string.
Proof.
  intros Hd.
  rewrite endsWith_app by (simpl; now f_equal).
  change (("." ++ d)%string =? ".0")%string with (d =? "0")%string.
  destruct (d =? "0")%string eqn:E; [| reflexivity].
  rewrite dropLast_app by (simpl; now f_equal).
  now rewrite string_app_nil_r.
Qed.

Lemma decimal_digit (r : Z) :
  (0 <= r < 10)%Z ->
  String.length (decimal (Z.to_N r)) = 1%nat /\
  (decimal (Z.to_N r) =? "0")%string = (r =? 0)%Z.
Proof.
  intros H.
  assert (C : (r = 0 \/ r = 1 \/ r = 2 \/ r = 3 \/ r = 4 \/ r = 5 \/ r = 6
               \/ r = 7 \/ r = 8 \/ r = 9)%Z) by lia.
  repeat (destruct C as [-> | C]; [split; reflexivity |]).
  subst r. split; reflexivity.
Qed.

Lemma Qfloor_unique (x : Q) (z : Z) :
  inject_Z z <= x -> x < inject_Z (z + 1) -> Qfloor x = z.
Proof.
  intros Hlo Hhi.
  pose proof (Qfloor_le x) as Hl. pose proof (Qlt_floor x) as Hu.
  assert (A : inject_Z (Qfloor x) < inject_Z (z + 1))
    by (eapply Qle_lt_trans; eassumption).
  assert (C : inject_Z z < inject_Z (Qfloor x + 1))
    by (eapply Qle_lt_trans; eassumption).
  rewrite <- Zlt_Qlt in A, C. lia.
Qed.

(** [toFixed(1)] of a non-negative number below 10^21. *)
Lemma toFixed1_value (toStr : Q -> string) (x : Q) :
  0 <= x -> x < inject_Z (10 ^ 21) ->
  CaptionText.toFixed1 toStr x
  = (decimal (Z.to_N (Qfloor (10 * x + (1 # 2)) / 10)) ++ "."
     ++ decimal (Z.to_N (Qfloor (10 * x + (1 # 2)) mod 10)))%string.
Proof.
  intros H0 Hhi. unfold CaptionText.toFixed1, CaptionText.toFixed1_abs.
  replace (ltb x 0) with false by (symmetry; now apply ltb_ge).
  replace (geb x (inject_Z (10 ^ 21))) with false; [reflexivity |].
  symmetry. unfold geb. apply not_true_iff_false. rewrite Qle_bool_iff.
  now apply Qlt_not_le.
Qed.

(** X24. A positive f-number below 10^21 is shown as "f", the integer
    part of its value rounded to one decimal, and the decimal only when
    it is not zero: [8] gives "f8", [2.8] gives "f2.8", [1.96] gives
    "f2". *)
Theorem getFNumberString_format (toStr : Q -> string) (x : Q) :
  0 < x -> x < inject_Z (10 ^ 21) ->
  let n := Qfloor (10 * x + (1 # 2)) in
  CaptionText.getFNumberString toStr (Some x)
  = ("f" ++ decimal (Z.to_N (n / 10))
     ++ (if (n mod 10 =? 0)%Z then ""
         else "." ++ decimal (Z.to_N (n mod 10))))%string.
Proof.
  intros Hpos Hhi n. unfold CaptionText.getFNumberString.
  replace (Num.eqb x 0) with false.
  2:{ symmetry. apply not_true_iff_false. rewrite eqb_eq.
      intros E. rewrite E in Hpos. discriminate. }
  rewrite toFixed1_value by (try assumption; now apply Qlt_le_weak).
  fold n.
  destruct (decimal_digit (n mod 10)) as [Hlen Hzero];
    [apply Z.mod_pos_bound; lia |].
  rewrite fnumber_display by exact Hlen.
  now rewrite Hzero.
Qed.

Lemma getFNumberString_format_witness :
  CaptionText.getFNumberString (fun _ => EmptyString) (Some 2.8)
  = "f2.8"%string /\
  CaptionText.getFNumberString (fun _ => EmptyString) (Some 8)
  = "f8"%string.
Proof.
  split.
  - exact (getFNumberString_format (fun _ => EmptyString) 2.8
             eq_refl eq_refl).
  - exact (getFNumberString_format (fun _ => EmptyString) 8
             eq_refl eq_refl).
Defined.

Lemma toString_positive (toStr : Q -> string) (n : positive) :
  (Zpos n <= 2 ^ 53)%Z ->
  CaptionText.toString toStr (inject_Z (Zpos n)) = decimal (Npos n).
Proof.
  intros Hn. unfold CaptionText.toString, CaptionText.isIntegerb.
  rewrite Qfloor_Z, Qeq_bool_refl.
  replace (Qle_bool (Qabs (inject_Z (Z.pos n))) (inject_Z (2 ^ 53)))
    with true; [reflexivity |].
  symmetry. apply Qle_bool_iff.
  change (Qabs (inject_Z (Z.pos n))) with (inject_Z (Z.pos n)).
  now rewrite <- Zle_Qle.
Qed.

(** The reciprocal of the double nearest to [1/n] rounds back to [n]. *)
Lemma f64_reciprocal (n : positive) :
  (2 <= Zpos n)%Z -> (Zpos n <= 4294967296)%Z ->
  exists v, F64.div 1 (F64.round (1 # n)) = Finite v /\
            Math_round v = inject_Z (Zpos n).
Proof.
  intros H2 Hn.
  set (Nq := inject_Z (Zpos n)).
  assert (N2 : 2 <= Nq).
  { subst Nq. change 2 with (inject_Z 2). now rewrite <- Zle_Qle. }
  assert (N32 : Nq <= 4294967296).
  { subst Nq. change 4294967296 with (inject_Z 4294967296).
    now rewrite <- Zle_Qle. }
  assert (Ex : (1 # n) * Nq == 1).
  { subst Nq. unfold Qeq, Qmult, inject_Z. simpl. lia. }
  assert (Hx : 0 < 1 # n) by reflexivity.
  destruct (round_nonneg_bounds (1 # n)) as [E1 E2]; [lra |].
  set (x := 1 # n) in *. set (e := F64.round x) in *.
  unfold ulp53, tiny in *.
  (* N * e is within 3 ulp of 1 *)
  assert (Z1 : 1 - (3 # 9007199254740992) <= Nq * e) by nra.
  assert (Z2 : Nq * e <= 1 + (3 # 9007199254740992)) by nra.
  assert (He : 0 < e) by nra.
  assert (Q1 : Nq * (1 - (4 # 9007199254740992)) <= 1 / e).
  { apply Qle_shift_div_l; [exact He |]. nra. }
  assert (Q2 : 1 / e <= Nq * (1 + (4 # 9007199254740992))).
  { apply Qle_shift_div_r; [exact He |]. nra. }
  assert (Hq : 0 <= 1 / e) by nra.
  destruct (round_nonneg_bounds (1 / e) Hq) as [V1 V2].
  unfold ulp53, tiny in *.
  set (q := 1 / e) in *. set (v := F64.round q) in *.
  exists v. split.
  - unfold F64.div, Num.div.
    replace (Num.eqb e 0) with false.
    2:{ symmetry. apply not_true_iff_false. intros E.
        apply Qeq_bool_eq in E. lra. }
    fold q. fold v. apply fin_finite.
    apply Qabs_Qle_condition. split; nra.
  - unfold Math_round. f_equal. apply Qfloor_unique.
    + subst Nq. nra.
    + rewrite inject_Z_plus. change (inject_Z 1) with 1. fold Nq. nra.
Qed.

(** An exposure tag [1/n], [2 <= n <= 2^32], as the upload stores it:
    the double nearest to the quotient. *)
Lemma exposure_reciprocal (toStr : Q -> string) (n : positive) :
  (2 <= Zpos n)%Z -> (Zpos n <= 4294967296)%Z ->
  CaptionText.getExposureString toStr (Some (F64.round (1 # n)))
  = ("1/" ++ decimal (Npos n) ++ "s")%string.
Proof.
  intros H2 Hn. unfold CaptionText.getExposureString.
  destruct (round_nonneg_bounds (1 # n)) as [E1 E2]; [discriminate |].
  assert (Hx : (1 # n) <= 1 # 2).
  { unfold Qle. simpl. lia. }
  assert (Hx0 : (1 # 4294967296) <= 1 # n).
  { unfold Qle. simpl. lia. }
  unfold ulp53, tiny in *.
  set (e := F64.round (1 # n)) in *.
  replace (Num.eqb e 0) with false.
  2:{ symmetry. apply not_true_iff_false. intros E.
      apply Qeq_bool_eq in E. lra. }
  replace (geb e 1) with false.
  2:{ symmetry. unfold geb. apply not_true_iff_false.
      rewrite Qle_bool_iff. lra. }
  subst e. destruct (f64_reciprocal n H2 Hn) as (v & -> & Hv).
  cbn [CaptionText.roundNumber CaptionText.templateNumber].
  rewrite Hv, toString_positive by lia. reflexivity.
Qed.

(** X25. An exposure tag of [1/n] seconds, [2 <= n <= 2^32], stored as
    the double nearest to the quotient, is written "1/ns": the
    reciprocal computed in doubles rounds back to [n].  An exposure of
    [k] whole seconds, [1 <= k <= 2^53], is written with one decimal,
    "k.0s". *)
Theorem getExposureString_format (toStr : Q -> string) (n : positive)
  (k : N) :
  (2 <= Zpos n)%Z -> (Zpos n <= 4294967296)%Z ->
  (1 <= k)%N -> (k <= 9007199254740992)%N ->
  CaptionText.getExposureString toStr (Some (F64.round (1 # n)))
  = ("1/" ++ decimal (Npos n) ++ "s")%string /\
  CaptionText.getExposureString toStr (Some (NtoQ k))
  = (decimal k ++ ".0s")%string.
Proof.
  intros H2 Hn H1 Hk53. split; [now apply exposure_reciprocal |].
  assert (Hk : (k < 10 ^ 21)%N) by lia.
  unfold CaptionText.getExposureString.
  assert (Hq : 1 <= NtoQ k).
  { unfold NtoQ. change 1 with (inject_Z 1). rewrite <- Zle_Qle. lia. }
  replace (Num.eqb (NtoQ k) 0) with false.
  2:{ symmetry. apply not_true_iff_false. rewrite eqb_eq. lra. }
  replace (geb (NtoQ k) 1) with true
    by (symmetry; unfold geb; now apply Qle_bool_iff).
  rewrite toFixed1_value.
  2: lra.
  2:{ unfold NtoQ. rewrite <- Zlt_Qlt. lia. }
  assert (E : Qfloor (10 * NtoQ k + (1 # 2)) = (10 * Z.of_N k)%Z).
  { apply Qfloor_unique; unfold NtoQ.
    - rewrite inject_Z_mult. change (inject_Z 10) with 10. lra.
    - rewrite inject_Z_plus, inject_Z_mult.
      change (inject_Z 10) with 10. change (inject_Z 1) with 1. lra. }
  rewrite E.
  replace (10 * Z.of_N k / 10)%Z with (Z.of_N k)
    by (symmetry; rewrite Z.mul_comm; apply Z.div_mul; lia).
  replace (10 * Z.of_N k mod 10)%Z with 0%Z
    by (symmetry; rewrite Z.mul_comm; apply Z.mod_mul; lia).
  rewrite N2Z.id.
  change (decimal (Z.to_N 0)) with "0"%string.
  now rewrite !string_app_assoc.
Qed.

Lemma getExposureString_format_witness :
  CaptionText.getExposureString (fun _ => EmptyString)
    (Some (F64.round (1 # 125)))
  = "1/125s"%string /\
  CaptionText.getExposureString (fun _ => EmptyString) (Some (NtoQ 2))
  = "2.0s"%string.
Proof.
  apply (getExposureString_format (fun _ => EmptyString) 125 2); lia.
Defined.

Lemma nonEmpty_true (s : string) :
  CaptionText.nonEmpty s = true <-> s <> EmptyString.
Proof.
  unfold CaptionText.nonEmpty. rewrite negb_true_iff.
  split.
  - intros H ->. discriminate.
  - intros H. apply String.eqb_neq. exact H.
Qed.

Lemma nonEmpty_false (s : string) :
  CaptionText.nonEmpty s = false <-> s = EmptyString.
Proof.
  unfold CaptionText.nonEmpty. rewrite negb_false_iff. apply String.eqb_eq.
Qed.

Lemma lookupOr_nonempty (table : gmap string string) (key : string) :
  key <> EmptyString -> CaptionText.lookupOr table key <> EmptyString.
Proof.
  intros Hk. unfold CaptionText.lookupOr.
  destruct (table !! key) as [v |]; [| exact Hk].
  destruct (v =? "")%string eqn:E; [exact Hk |].
  now apply String.eqb_neq.
Qed.

Lemma string_app_nonempty_l (a b : string) :
  a <> EmptyString -> (a ++ b)%string <> EmptyString.
Proof. destruct a; [congruence | discriminate]. Qed.

Lemma string_app_nonempty_r (a b : string) :
  b <> EmptyString -> (a ++ b)%string <> EmptyString.
Proof. destruct a; [trivial | discriminate]. Qed.

Lemma generateCameraName_nonempty (manufacturers models : gmap string string)
  (lower : string -> string) (make : option string) (m : string) :
  m <> EmptyString ->
  CaptionText.generateCameraName manufacturers models lower make (Some m)
  <> EmptyString.
Proof.
  intros Hm. unfold CaptionText.generateCameraName.
  change (default EmptyString (Some m)) with m.
  rewrite (proj2 (nonEmpty_true m) Hm). cbn [negb].
  assert (Hmodel : CaptionText.normalizeModel models (Some m) <> EmptyString).
  { unfold CaptionText.normalizeModel.
    rewrite (proj2 (String.eqb_neq m "") Hm).
    now apply lookupOr_nonempty. }
  set (nMake := CaptionText.normalizeMake manufacturers make) in *.
  set (nModel := CaptionText.normalizeModel models (Some m)) in *.
  rewrite (proj2 (nonEmpty_true nModel) Hmodel), andb_true_r.
  destruct (CaptionText.nonEmpty nMake) eqn:Emake; cbn [andb].
  - apply nonEmpty_true in Emake.
    destruct (includes (lower nModel) (lower nMake)); [exact Hmodel |].
    destruct (includes (lower nMake) (lower nModel)); [exact Emake |].
    now apply string_app_nonempty_l.
  - exact Hmodel.
Qed.

Lemma getCameraName_nonempty (manufacturers models aliases : gmap string string)
  (lower : string -> string) (make : option string) (m : string) :
  m <> EmptyString ->
  CaptionText.getCameraName manufacturers models aliases lower make (Some m)
  <> EmptyString.
Proof.
  intros Hm. unfold CaptionText.getCameraName.
  rewrite (proj2 (String.eqb_neq m "") Hm).
  destruct (aliases !! m) as [a |];
    [| now apply generateCameraName_nonempty].
  destruct (CaptionText.nonEmpty a) eqn:E;
    [now apply nonEmpty_true | now apply generateCameraName_nonempty].
Qed.

(** The first caption line is empty or "Shot on " and a name. *)
Lemma first_line_shape (manufacturers models aliases : gmap string string)
  (lower : string -> string) (toStr : Q -> string) (exif : ExifData) :
  let line1 :=
    (CaptionText.getCaptionLines manufacturers models aliases lower toStr
       exif).1 in
  line1 = EmptyString \/
  exists name, line1 = ("Shot on " ++ name)%string.
Proof.
  cbv zeta. unfold CaptionText.getCaptionLines. cbn [fst].
  destruct (CaptionText.nonEmpty _); [right; eauto | now left].
Qed.

(** X26. The first caption line depends on the EXIF model: without a
    model (missing or empty) it is empty, whatever the make; with a
    model it is "Shot on " followed by a camera name that is never
    empty, and that name is the entry of the alias table when the model
    has a non-empty one, and the generated name when it has none.  The
    make and the model are assumed not to be property names that every
    object inherits. *)
Theorem getCaptionLines_first_line
  (manufacturers models aliases : gmap string string)
  (lower : string -> string) (toStr : Q -> string) (exif : ExifData) :
  let line1 :=
    (CaptionText.getCaptionLines manufacturers models aliases lower toStr
       exif).1 in
  match Model exif with
  | None => line1 = EmptyString
  | Some m =>
      if (m =? "")%string then line1 = EmptyString
      else
        ownKey m = true ->
        (forall make, Make exif = Some make -> ownKey make = true) ->
        exists name,
          name <> EmptyString /\ line1 = ("Shot on " ++ name)%string /\
          match aliases !! m with
          | Some a => a <> EmptyString -> name = a
          | None =>
              name = CaptionText.generateCameraName manufacturers models
                       lower (Make exif) (Some m)
          end
  end.
Proof.
  cbv zeta. unfold CaptionText.getCaptionLines. cbn [fst].
  destruct (Model exif) as [m |] eqn:Em; [| reflexivity].
  destruct (m =? "")%string eqn:E.
  - apply String.eqb_eq in E. subst m. reflexivity.
  - intros _ _. apply String.eqb_neq in E.
    pose proof (getCameraName_nonempty manufacturers models aliases lower
                  (Make exif) m E) as Hne.
    rewrite (proj2 (nonEmpty_true _) Hne).
    eexists. split; [exact Hne |]. split; [reflexivity |].
    unfold CaptionText.getCameraName.
    rewrite (proj2 (String.eqb_neq m "") E).
    destruct (aliases !! m) as [a |]; [| reflexivity].
    intros Ha. now rewrite (proj2 (nonEmpty_true a) Ha).
Qed.

Lemma getCaptionLines_first_line_witness :
  exists name,
    name <> EmptyString /\
    (CaptionText.getCaptionLines ∅ ∅ ∅ Color.toLowerCase
       (fun _ => EmptyString)
       (EXIF_getData desktopBrowser (mkImage 3000 4000 1))).1
    = ("Shot on " ++ name)%string /\
    name = "FUJIFILM X100V"%string.
Proof.
  pose proof (getCaptionLines_first_line ∅ ∅ ∅ Color.toLowerCase
                (fun _ => EmptyString)
                (EXIF_getData desktopBrowser (mkImage 3000 4000 1))) as H.
  cbv zeta in H.
  change (Model (EXIF_getData desktopBrowser (mkImage 3000 4000 1)))
    with (Some "X100V"%string) in H.
  change (Make (EXIF_getData desktopBrowser (mkImage 3000 4000 1)))
    with (Some "FUJIFILM"%string) in H.
  cbv iota beta in H.
  change ("X100V" =? "")%string with false in H. cbv iota in H.
  destruct (H eq_refl) as (name & Hne & Hline & Hname).
  { intros make [= <-]. reflexivity. }
  exists name. split; [exact Hne |]. split; [exact Hline |].
  rewrite lookup_empty in Hname. rewrite Hname. reflexivity.
Defined.

Lemma concat_cons_nonempty (sep : string) (c : ascii) (s : string)
  (l : list string) :
  String.concat sep (String c s :: l) <> EmptyString.
Proof. destruct l; discriminate. Qed.

Lemma exposure_nonempty (toStr : Q -> string) (e : Q) :
  Num.eqb e 0 = false ->
  exists c s, CaptionText.getExposureString toStr (Some e) = String c s.
Proof.
  intros E. unfold CaptionText.getExposureString. rewrite E.
  destruct (geb e 1).
  - destruct (CaptionText.toFixed1 toStr e ++ "s")%string eqn:Es;
      [| eauto].
    exfalso. revert Es. now apply string_app_nonempty_r.
  - eauto.
Qed.

(** X27. The second caption line is empty exactly when the EXIF data has
    no ISO value, no f-number and no exposure time (a value of 0 counts
    as missing). *)
Theorem getCaptionLines_settings_empty
  (manufacturers models aliases : gmap string string)
  (lower : string -> string) (toStr : Q -> string) (exif : ExifData) :
  (CaptionText.getCaptionLines manufacturers models aliases lower toStr
     exif).2 = EmptyString
  <-> truthy (ISO exif) = false /\ truthy (FNumber exif) = false /\
      truthy (ExposureTime exif) = false.
Proof.
  unfold CaptionText.getCaptionLines. cbn [snd].
  assert (Hiso :
    match ISO exif with
    | Some i => if Num.eqb i 0 then EmptyString
                else ("ISO " ++ CaptionText.toString toStr i)%string
    | None => EmptyString
    end = (if truthy (ISO exif)
           then String "I" ("SO " ++ match ISO exif with
                                     | Some i => CaptionText.toString toStr i
                                     | None => EmptyString
                                     end)
           else EmptyString)%string).
  { unfold truthy. destruct (ISO exif) as [i |]; [| reflexivity].
    destruct (Num.eqb i 0); reflexivity. }
  rewrite Hiso. clear Hiso.
  assert (Hf : exists rest,
    CaptionText.getFNumberString toStr (FNumber exif)
    = if truthy (FNumber exif) then String "f" rest else EmptyString).
  { unfold truthy, CaptionText.getFNumberString.
    destruct (FNumber exif) as [f |]; [| now exists EmptyString].
    destruct (Num.eqb f 0); cbn [negb]; eauto. }
  destruct Hf as [frest ->].
  assert (He : exists c rest,
    CaptionText.getExposureString toStr (ExposureTime exif)
    = if truthy (ExposureTime exif) then String c rest else EmptyString).
  { unfold truthy.
    destruct (ExposureTime exif) as [e |];
      [| now exists "s"%char, EmptyString].
    destruct (Num.eqb e 0) eqn:E; cbn [negb].
    - exists "s"%char, EmptyString.
      unfold CaptionText.getExposureString. now rewrite E.
    - apply exposure_nonempty. exact E. }
  destruct He as (c & erest & ->).
  destruct (truthy (ISO exif)), (truthy (FNumber exif)),
    (truthy (ExposureTime exif)); cbn;
    split; first [discriminate | intros (? & ? & ?); discriminate
                 | intros _; repeat split | reflexivity].
Qed.

Lemma settings_all (a b c : string) :
  a <> EmptyString -> b <> EmptyString -> c <> EmptyString ->
  String.concat " / " (List.filter CaptionText.nonEmpty [a; b; c])
  = (a ++ " / " ++ b ++ " / " ++ c)%string.
Proof.
  intros Ha Hb Hc. cbn [List.filter].
  rewrite (proj2 (nonEmpty_true a) Ha), (proj2 (nonEmpty_true b) Hb),
    (proj2 (nonEmpty_true c) Hc).
  reflexivity.
Qed.

(** X28. With an integer ISO value [i] (at most 2^53), an f-number [x]
    (positive, below 10^21) and an exposure tag [1/m]
    ([2 <= m <= 2^32]) stored as the double nearest to the quotient,
    the second caption line is
    "ISO i / f<x to one decimal, a zero decimal dropped> / 1/ms". *)
Theorem getCaptionLines_settings_format
  (manufacturers models aliases : gmap string string)
  (lower : string -> string) (toStr : Q -> string) (exif : ExifData)
  (i m : positive) (x : Q) :
  ISO exif = Some (inject_Z (Zpos i)) -> (Zpos i <= 2 ^ 53)%Z ->
  FNumber exif = Some x -> 0 < x -> x < inject_Z (10 ^ 21) ->
  ExposureTime exif = Some (F64.round (1 # m)) -> (2 <= Zpos m)%Z ->
  (Zpos m <= 4294967296)%Z ->
  let n := Qfloor (10 * x + (1 # 2)) in
  (CaptionText.getCaptionLines manufacturers models aliases lower toStr
     exif).2
  = (("ISO " ++ decimal (Npos i)) ++ " / "
     ++ ("f" ++ decimal (Z.to_N (n / 10))
         ++ (if (n mod 10 =? 0)%Z then ""
             else "." ++ decimal (Z.to_N (n mod 10))))
     ++ " / " ++ ("1/" ++ decimal (Npos m) ++ "s"))%string.
Proof.
  intros Hiso Hi Hf Hx Hxhi He Hm2 Hm n.
  unfold CaptionText.getCaptionLines. cbn [snd].
  rewrite Hiso, Hf, He.
  replace (Num.eqb (inject_Z (Z.pos i)) 0) with false by reflexivity.
  rewrite toString_positive by exact Hi.
  rewrite exposure_reciprocal by assumption.
  unfold CaptionText.getFNumberString.
  replace (Num.eqb x 0) with false.
  2:{ symmetry. apply not_true_iff_false. rewrite eqb_eq.
      intros E. rewrite E in Hx. discriminate. }
  rewrite toFixed1_value by (try assumption; now apply Qlt_le_weak).
  fold n.
  destruct (decimal_digit (n mod 10)) as [Hlen Hzero];
    [apply Z.mod_pos_bound; lia |].
  rewrite fnumber_display by exact Hlen.
  rewrite Hzero.
  apply settings_all; discriminate.
Qed.

Lemma getCaptionLines_settings_format_witness :
  (CaptionText.getCaptionLines ∅ ∅ ∅ (fun s => s) (fun _ => EmptyString)
     (EXIF_getData desktopBrowser (mkImage 3000 4000 1))).2
  = "ISO 200 / f2.8 / 1/125s"%string.
Proof.
  exact (getCaptionLines_settings_format ∅ ∅ ∅ (fun s => s)
           (fun _ => EmptyString)
           (EXIF_getData desktopBrowser (mkImage 3000 4000 1))
           200 125 (F64.round 2.8) eq_refl ltac:(lia) eq_refl eq_refl
           eq_refl eq_refl ltac:(lia) ltac:(lia)).
Defined.

(* ------------------------------------------------------------------ *)
(** ** Film scans *)

Lemma prefix_app (s b : string) : String.prefix s (s ++ b)%string = true.
Proof.
  induction s as [| c s IH]; [destruct b; reflexivity |].
  simpl. destruct (ascii_dec c c); [exact IH | congruence].
Qed.

Lemma includes_unfold (s sub : string) :
  includes s sub
  = String.prefix sub s ||
    match s with
    | EmptyString => false
    | String _ rest => includes rest sub
    end.
Proof. destruct s; reflexivity. Qed.

Lemma includes_app (a s b : string) :
  includes (a ++ s ++ b)%string s = true.
Proof.
  induction a as [| c a IH].
  - rewrite includes_unfold. change ("" ++ s ++ b)%string with (s ++ b)%string.
    now rewrite prefix_app.
  - rewrite includes_unfold. simpl. rewrite IH. apply orb_true_r.
Qed.

(** X29. Film-scan detection at upload. An accepted photo whose EXIF
    software, in lower case, contains "negative lab pro", or whose
    non-empty EXIF make, in upper case, contains a listed scanner name in
    upper case, switches to manual mode: empty caption and cleared manual
    inputs instead of the EXIF caption. A photo with neither make nor
    software is not a film scan and gets the caption built from its
    EXIF data. *)
Theorem film_scan_upload (B : Browser) (scanners : list string)
  (upper lower : string -> string) (st : State) (file : Image) :
  isFilmScanExif B = FilmScan.isFilmScanExif scanners upper lower ->
  isSupportedAspectRatio (NtoQ (img_width file)) (NtoQ (img_height file))
  = true ->
  let exif := EXIF_getData B file in
  let st' := handleFilesUpload B st [file] in
  ((exists s a b,
       Software exif = Some s /\
       lower s = (a ++ "negative lab pro" ++ b)%string) \/
   (exists m scanner a b,
       Make exif = Some m /\ m <> EmptyString /\ In scanner scanners /\
       upper m = (a ++ upper scanner ++ b)%string) ->
   isFilmScannerImage st' = true /\
   captionLines st' = (EmptyString, EmptyString) /\
   manualCamera st' = EmptyString /\ manualPlace st' = EmptyString) /\
  ((Make exif = None \/ Make exif = Some EmptyString) ->
   Software exif = None ->
   isFilmScannerImage st' = false /\
   captionLines st' = getCaptionLines B exif /\
   manualCamera st' = manualCamera st /\ manualPlace st' = manualPlace st).
Proof.
  intros HB Hok. cbv zeta. cbn [handleFilesUpload]. unfold img_onload.
  rewrite Hok. cbn [negb]. rewrite HB. cbn.
  split.
  - intros H.
    assert (E : FilmScan.isFilmScanExif scanners upper lower
                  (Make (EXIF_getData B file))
                  (Software (EXIF_getData B file)) = true).
    { unfold FilmScan.isFilmScanExif.
      destruct H as [(s & a & b & Hs & Hl) | (m & sc & a & b & Hm & Hne & Hin & Hu)].
      - rewrite Hs, Hl, includes_app. now destruct (FilmScan.isFilmScanner _ _ _).
      - rewrite Hm. change (default EmptyString (Some m)) with m.
        replace (FilmScan.isFilmScanner scanners upper m) with true;
          [reflexivity |].
        symmetry. unfold FilmScan.isFilmScanner.
        rewrite (proj2 (String.eqb_neq m "") Hne).
        apply existsb_exists. exists sc. split; [exact Hin |].
        rewrite Hu. apply includes_app. }
    rewrite E. repeat split.
  - intros Hmake Hsoft.
    assert (E : FilmScan.isFilmScanExif scanners upper lower
                  (Make (EXIF_getData B file))
                  (Software (EXIF_getData B file)) = false).
    { unfold FilmScan.isFilmScanExif. rewrite Hsoft.
      destruct Hmake as [-> | ->]; reflexivity. }
    rewrite E. repeat split.
Qed.

Lemma film_scan_upload_witness :
  isFilmScannerImage
    (handleFilesUpload filmScanBrowser initialState [mkImage 3000 4000 1])
  = true.
Proof.
  pose proof (film_scan_upload filmScanBrowser ["NORITSU KOKI"%string]
                (fun s => s) Color.toLowerCase initialState
                (mkImage 3000 4000 1) eq_refl eq_refl) as H.
  cbv zeta in H. destruct H as [H _].
  apply H. left.
  exists "Negative Lab Pro v2.3"%string, EmptyString, " v2.3"%string.
  split; reflexivity.
Defined.

(* ------------------------------------------------------------------ *)
(** ** The text that is drawn *)

Lemma removeFirst_unfold (pat s : string) :
  removeFirst pat s
  = if String.prefix pat s then dropChars (String.length pat) s
    else match s with
         | EmptyString => EmptyString
         | String c rest => String c (removeFirst pat rest)
         end.
Proof. destruct s; reflexivity. Qed.

Lemma dropChars_app (p s : string) :
  dropChars (String.length p) (p ++ s)%string = s.
Proof. induction p as [| c p IH]; [reflexivity | exact IH]. Qed.

Lemma removeFirst_prefix (p s : string) :
  removeFirst p (p ++ s)%string = s.
Proof.
  rewrite removeFirst_unfold, prefix_app. apply dropChars_app.
Qed.

(** X30. A caption is drawn as it is written: for the lines built from
    EXIF data by [getCaptionLines] and for the lines built from the manual
    inputs, the characters passed to [fillText], one call per character
    and in the order of the calls, spell the first line followed by the
    second, on every canvas and for every frame colour. *)
Theorem caption_drawn_as_written (measure : Font -> string -> Q)
  (width height padBottom imageDrawTop imageDrawHeight : Q)
  (lines : string * string) (frameColor space ratio : string)
  (imageWidth imageHeight : option Q) :
  (exists manufacturers models aliases lower toStr exif,
      lines = CaptionText.getCaptionLines manufacturers models aliases lower
                toStr exif) \/
  (exists camera place, lines = manualCaption camera place) ->
  let ops :=
    drawCaption measure width height padBottom imageDrawTop imageDrawHeight
      lines frameColor space ratio imageWidth imageHeight in
  drawnText ops = (lines.1 ++ lines.2)%string /\
  List.length ops = (String.length lines.1 + String.length lines.2)%nat.
Proof.
  intros H.
  assert (Hshape : lines.1 = EmptyString \/
                   exists name, lines.1 = ("Shot on " ++ name)%string).
  { destruct H as [(ma & mo & al & lo & ts & exif & ->) | (cam & pl & ->)].
    - apply first_line_shape.
    - unfold manualCaption. cbn [fst].
      destruct (cam =? "")%string; [now left | right; eauto]. }
  clear H. cbv zeta.
  assert (Hops :
    forall ops, drawnText ops = (lines.1 ++ lines.2)%string ->
                Forall (fun op => match op with
                                  | FillText _ _ _ _ _ _ => True
                                  | _ => False
                                  end) ops ->
                drawnText ops = (lines.1 ++ lines.2)%string /\
                List.length ops
                = (String.length lines.1 + String.length lines.2)%nat).
  { intros ops Ht Hall. split; [exact Ht |].
    rewrite <- string_length_app, <- Ht. clear Ht.
    induction Hall as [| op ops Hop Hall IH]; [reflexivity |].
    destruct op; try contradiction. simpl. now rewrite IH. }
  apply Hops.
  - unfold drawCaption. destruct (captionColors frameColor) as [c1 c2].
    rewrite drawnText_app. f_equal.
    + destruct Hshape as [-> | [name ->]]; [reflexivity |].
      change (("Shot on " ++ name)%string =? "")%string with false.
      cbv iota. rewrite drawnText_app, !drawnText_letters.
      now rewrite removeFirst_prefix.
    + destruct (lines.2 =? "")%string eqn:E.
      * apply String.eqb_eq in E. now rewrite E.
      * apply drawnText_letters.
  - unfold drawCaption. destruct (captionColors frameColor) as [c1 c2].
    assert (Hl : forall font fs a text x y sp,
               Forall (fun op => match op with
                                 | FillText _ _ _ _ _ _ => True
                                 | _ => False
                                 end)
                 (drawTextWithLetterSpacing measure font fs a text x y sp)).
    { intros font fs a text. induction text as [| c t IH]; intros x y sp.
      - constructor.
      - simpl. constructor; [exact I | apply IH]. }
    apply Forall_app. split.
    + destruct (lines.1 =? "")%string; [constructor |].
      apply Forall_app. split; apply Hl.
    + destruct (lines.2 =? "")%string; [constructor | apply Hl].
Qed.

Lemma caption_drawn_as_written_witness :
  drawnText
    (drawCaption (measureText desktopBrowser) 378 672 114 27 449
       (manualCaption "Leica M6" "Tokyo") "#fff" "S" "9:16"
       (Some 3000) (Some 4000))
  = "Shot on Leica M6Tokyo"%string.
Proof.
  pose proof (caption_drawn_as_written (measureText desktopBrowser)
                378 672 114 27 449 (manualCaption "Leica M6" "Tokyo")
                "#fff" "S" "9:16" (Some 3000) (Some 4000)
                (or_intror (ex_intro _ "Leica M6"%string
                              (ex_intro _ "Tokyo"%string eq_refl)))) as H.
  cbv zeta in H. exact (proj1 H).
Defined.
